(** * Flat-JSON column iterators (be/src/storage/rowset/json_column_iterator.cpp)

    A shallow embedding of the two readers of the file,
    [JsonFlatColumnIterator] (the Precomputed-Flat Reader) and
    [JsonDynamicFlatIterator] (the Runtime-Flat Reader), and the properties
    the specification states about them.

    The readers drive collaborators that live outside the file: the
    sub-iterators behind the [ColumnIterator] interface, the cast evaluator,
    the flattening engine and the column classes.  The interface is a type
    class, the opaque collaborators are fields of [Externals] and
    [Collaborators]; every theorem holds for all of their implementations. *)

From stdpp Require Import gmap strings list pretty.

Set Default Proof Using "Type".
Open Scope Z_scope.

(** ** What the file takes from the rest of the code base *)

(** Types and build settings declared elsewhere in the code base.
    [NDEBUG] tells whether the debug assertions ([DCHECK]) are compiled
    out. *)
Class Externals := {
  LogicalType : Type;
  LogicalType_eq_dec :: EqDecision LogicalType;
  Datum : Type;
  JsonValue : Type;
  DelCondSatisfied : Type;
  DEL_NOT_SATISFIED : DelCondSatisfied;
  ColumnIteratorOptions : Type;
  ColumnPredicate : Type;
  CompoundNodeType : Type;
  Expr : Type;
  JsonFlattener : Type;
  NDEBUG : bool;
}.

(** [Status]: OK, or an error that is handed to the caller unchanged. *)
Record Error := mkError { err_code : Z; err_msg : string }.

Inductive Status := OK | Err (e : Error).

(** Ways a call can end other than by returning a [Status]: a failed
    [CHECK], [DCHECK] or debug assertion of [down_cast], and the undefined
    behaviours the file can reach (the unchecked [down_cast] of a release
    build to the wrong class, a null pointer dereferenced, an index past
    the end of a vector).  After an undefined behaviour the program may
    be killed or go on with a corrupted object; the model stops there. *)
Inductive Fault :=
| CheckFailed
| DCheckFailed
| BadDownCast
| UncheckedCast
| NullPointer
| OutOfBounds.

Inductive Outcome (A : Type) :=
| Done (a : A)
| Failed (e : Error)
| Crashed (f : Fault).
Arguments Done {A} a.
Arguments Failed {A} e.
Arguments Crashed {A} f.

(** The [Status] a call that ended normally hands back. *)
Definition returned_status {A} (o : Outcome A) : option Status :=
  match o with
  | Done _ => Some OK
  | Failed e => Some (Err e)
  | Crashed _ => None
  end.

(** ** State and error monad: the mutable objects a method works on are
    the state, [RETURN_IF_ERROR] is the early exit. *)
Definition M (St A : Type) : Type := St → Outcome A * St.

Global Instance M_ret {St} : MRet (M St) := λ A a s, (Done a, s).

Global Instance M_bind {St} : MBind (M St) := λ A B k m s,
  match m s with
  | (Done a, s') => k a s'
  | (Failed e, s') => (Failed e, s')
  | (Crashed f, s') => (Crashed f, s')
  end.

Definition get {St} : M St St := λ s, (Done s, s).
Definition gets {St A} (f : St → A) : M St A := λ s, (Done (f s), s).
Definition modify {St} (f : St → St) : M St unit := λ s, (Done tt, f s).
Definition crash {St A} (f : Fault) : M St A := λ s, (Crashed f, s).

(** [RETURN_IF_ERROR(st)]. *)
Definition RETURN_IF_ERROR {St} (st : Status) : M St unit := λ s,
  match st with
  | OK => (Done tt, s)
  | Err e => (Failed e, s)
  end.

(** [CHECK(c)]: fatal when [c] is false, in every build. *)
Definition CHECK {St} (c : bool) : M St unit :=
  if c then mret tt else crash CheckFailed.

(** [DCHECK(c)]: as [CHECK] in a debug build, nothing when [NDEBUG]. *)
Definition DCHECK `{Externals} {St} (c : bool) : M St unit :=
  if NDEBUG then mret tt else if c then mret tt else crash DCheckFailed.

(** [v[i]] on a [std::vector]: past the end is undefined behaviour. *)
Definition at_index {St A} (v : list A) (i : nat) : M St A :=
  match v !! i with
  | Some a => mret a
  | None => crash OutOfBounds
  end.

(** [p->...] on a pointer that may be null. *)
Definition deref {St A} (p : option A) : M St A :=
  match p with
  | Some a => mret a
  | None => crash NullPointer
  end.

(** A [for] loop over the indices [idxs], left at the first iteration
    that does not complete. *)
Fixpoint for_each {St} (idxs : list nat) (body : nat → M St unit) : M St unit :=
  match idxs with
  | [] => mret tt
  | i :: rest => body i;; for_each rest body
  end.

(** ** Columns *)

Section Columns.
Context `{Externals}.

(** Modelled from the spec: the column classes (column/column.h,
    nullable_column.h, const_column.h) are not in this file.  A scalar
    column is a sequence of rows, each a value or null, with its
    delete state; a constant column is one value, or null, repeated
    [const_size] times. *)
Inductive Column :=
| Vector (ty : LogicalType) (rows : list (option Datum)) (del : DelCondSatisfied)
| Const (ty : LogicalType) (v : option Datum) (const_size : nat) (del : DelCondSatisfied).

Definition Column_size (c : Column) : nat :=
  match c with
  | Vector _ rows _ => length rows
  | Const _ _ n _ => n
  end.

Definition delete_state (c : Column) : DelCondSatisfied :=
  match c with
  | Vector _ _ d => d
  | Const _ _ _ d => d
  end.

Definition set_delete_state (d : DelCondSatisfied) (c : Column) : Column :=
  match c with
  | Vector ty rows _ => Vector ty rows d
  | Const ty v n _ => Const ty v n d
  end.

(** The rows a column stands for. *)
Definition Column_rows (c : Column) : list (option Datum) :=
  match c with
  | Vector _ rows _ => rows
  | Const _ v n _ => replicate n v
  end.

(** Modelled from the spec: [Column::only_null()] (column/column.h, not
    in this file) holds of a result that is entirely null, the constant
    null column. *)
Definition only_null (c : Column) : bool :=
  match c with
  | Const _ None _ _ => true
  | _ => false
  end.

(** Modelled from the spec: [Column::is_constant()] (column/column.h,
    not in this file) holds of a single repeated value. *)
Definition is_constant (c : Column) : bool :=
  match c with
  | Const _ _ _ _ => true
  | Vector _ _ _ => false
  end.

(** Modelled from the spec: [ConstColumn::data_column()] is the
    one-row column behind a constant. *)
Definition const_data_column (c : Column) : Column :=
  match c with
  | Const ty v _ d => Vector ty [v] d
  | Vector _ _ _ => c
  end.

(** Modelled from the spec: [ColumnHelper::create_column(TypeDescriptor(ty), true)]
    is an empty column of the type. *)
Definition create_column (ty : LogicalType) : Column :=
  Vector ty [] DEL_NOT_SATISFIED.

Definition Column_type (c : Column) : LogicalType :=
  match c with
  | Vector ty _ _ => ty
  | Const ty _ _ _ => ty
  end.

(** Modelled from the spec: [Column::clone_empty()] (column/column.h,
    not in this file) gives a column of the same type with no rows
    ("empty-cloned"). *)
Definition clone_empty (c : Column) : Column := create_column (Column_type c).

(** Modelled from the spec: appending rows to a column; a constant
    destination is materialised. *)
Definition push_rows (c : Column) (new : list (option Datum)) : Column :=
  Vector (Column_type c) (Column_rows c ++ new) (delete_state c).

(** Modelled from the spec: [append_nulls(count)] appends that many
    null entries. *)
Definition append_nulls (c : Column) (count : nat) : Column :=
  push_rows c (replicate count None).

(** Modelled from the spec: [append_value_multiple_times(src, index, count)]
    appends the row [index] of [src], [count] times; [index] past the
    end is undefined. *)
Definition append_value_multiple_times {St} (c src : Column) (index count : nat)
  : M St Column :=
  v ← at_index (Column_rows src) index;
  mret (push_rows c (replicate count v)).

(** Modelled from the spec: [append(src, offset, count)] copies the
    rows [offset .. offset+count) of [src]; reading past its end is
    undefined. *)
Definition append {St} (c src : Column) (offset count : nat) : M St Column :=
  if decide (offset + count ≤ Column_size src)%nat
  then mret (push_rows c (take count (drop offset (Column_rows src))))
  else crash OutOfBounds.

(** [NullColumn]: one [uint8_t] flag per row, non-zero for null. *)
Definition NullColumn : Type := list Z.

(** Modelled from the spec: a document column holds raw documents or,
    once flattened, the flat fields for a list of (path, type)
    descriptors (column/json_column.h is not in this file). *)
Record JsonColumn := mkJsonColumn {
  json_objects : list JsonValue;
  flat_column_paths : list string;
  flat_column_types : list LogicalType;
  flat_columns : list Column;
  json_delete_state : DelCondSatisfied;
}.

(** Modelled from the spec: [JsonColumn::size()] (column/json_column.h,
    not in this file), the document column's row count, is the row
    count of its flat fields when it has any, read off the first one,
    and the number of raw documents otherwise. *)
Definition JsonColumn_size (c : JsonColumn) : nat :=
  match flat_columns c with
  | f :: _ => Column_size f
  | [] => length (json_objects c)
  end.

Definition set_flat_columns (fs : list Column) (c : JsonColumn) : JsonColumn :=
  mkJsonColumn (json_objects c) (flat_column_paths c) (flat_column_types c)
               fs (json_delete_state c).

(** [NullableColumn] around a document column. *)
Record NullableColumn := mkNullableColumn {
  data_column : JsonColumn;
  null_column : NullColumn;
  has_null : bool;
  nullable_delete_state : DelCondSatisfied;
}.

(** What a destination [Column*] of a batch read points to. *)
Inductive DocColumn :=
| Nullable (c : NullableColumn)
| Json (c : JsonColumn).

Definition is_nullable (c : DocColumn) : bool :=
  match c with
  | Nullable _ => true
  | Json _ => false
  end.

(** Modelled from the spec: [down_cast<T*>(p)] (gutil/casts.h, not in
    this file) asserts in a debug build that [p] points to a [T]; in a
    release build it is a bare [static_cast].  Every cast of the file is
    used at once, so a cast to the wrong class ends the call: by the
    assertion in a debug build, in undefined behaviour otherwise. *)
Definition bad_cast : Fault := if NDEBUG then UncheckedCast else BadDownCast.

(** [down_cast<NullableColumn*>], [down_cast<JsonColumn*>]. *)
Definition down_cast_nullable {St} (c : DocColumn) : M St NullableColumn :=
  match c with
  | Nullable nc => mret nc
  | Json _ => crash bad_cast
  end.

Definition down_cast_json {St} (c : DocColumn) : M St JsonColumn :=
  match c with
  | Json jc => mret jc
  | Nullable _ => crash bad_cast
  end.

Definition doc_delete_state (c : DocColumn) : DelCondSatisfied :=
  match c with
  | Nullable nc => nullable_delete_state nc
  | Json jc => json_delete_state jc
  end.

Definition doc_set_delete_state (d : DelCondSatisfied) (c : DocColumn) : DocColumn :=
  match c with
  | Nullable nc =>
      Nullable (mkNullableColumn (data_column nc) (null_column nc) (has_null nc) d)
  | Json jc =>
      Json (mkJsonColumn (json_objects jc) (flat_column_paths jc)
                         (flat_column_types jc) (flat_columns jc) d)
  end.

(** Modelled from the spec: [NullableColumn::update_has_null()]
    refreshes the cached flag from the null column. *)
Definition update_has_null (nc : NullableColumn) : NullableColumn :=
  mkNullableColumn (data_column nc) (null_column nc)
                   (existsb (λ b, negb (b =? 0)) (null_column nc))
                   (nullable_delete_state nc).

Definition set_has_null (b : bool) (nc : NullableColumn) : NullableColumn :=
  mkNullableColumn (data_column nc) (null_column nc) b (nullable_delete_state nc).

Definition set_null_column (n : NullColumn) (nc : NullableColumn) : NullableColumn :=
  mkNullableColumn (data_column nc) n (has_null nc) (nullable_delete_state nc).

Definition set_data_column (j : JsonColumn) (nc : NullableColumn) : NullableColumn :=
  mkNullableColumn j (null_column nc) (has_null nc) (nullable_delete_state nc).

(** A [Chunk]: columns by slot id, in the order they were appended. *)
Definition Chunk : Type := list (nat * Column).

Definition append_column (chunk : Chunk) (c : Column) (slot_id : nat) : Chunk :=
  chunk ++ [(slot_id, c)].

(** A half-open range of row ids and a [SparseRange] of them. *)
Record Range := mkRange { range_begin : Z; range_end : Z }.

Definition SparseRange : Type := list Range.

(** Modelled from the spec: [SparseRange::add] puts the range at the
    end of the ranges held so far (storage/range.h is not in this
    file). *)
Definition SparseRange_add (rs : SparseRange) (r : Range) : SparseRange :=
  rs ++ [r].

(** [static_cast<rowid_t>] of an [ordinal_t]; [rowid_t] is 32 bits
    wide (the typedef, in storage/olap_common.h, is not in this
    file). *)
Definition to_rowid (ord : Z) : Z := ord mod 2 ^ 32.

(** [OlapReaderStatistics]: the hit counters by absolute path, and the
    nanoseconds spent flattening. *)
Record OlapReaderStatistics := mkStats {
  flat_json_hits : gmap string Z;
  dynamic_json_hits : gmap string Z;
  json_flatten_ns : Z;
}.

(** The three modes of a batch read: next N rows, a sparse range of
    rows, a list of row ids. *)
Inductive ReadMode :=
| NextN
| ByRange (range : SparseRange)
| ByRowid (rowids : list Z).

Record ColumnAccessPath := mkPath { absolute_path : string }.

Record ColumnReader := mkColumnReader { reader_num_rows : Z }.
End Columns.

Arguments Column {_}.
Arguments JsonColumn {_}.
Arguments NullableColumn {_}.
Arguments DocColumn {_}.
Arguments Chunk {_}.

(** ** The collaborators *)

(** The [ColumnIterator] interface, as the sub-iterators offer it: [I] is
    the state of the iterator object, [C] the class of column it fills.
    A call hands back its [Status] together with everything it may have
    changed: the iterator, the column written through the pointer (also
    when the call fails), the count behind [size_t* n], the statistics
    behind [opts.stats].

    [iter_read_null] is a read, of any of the three kinds, that is handed
    a null column pointer: what the iterator does then is its own
    business, it may answer before it looks at the column or run into
    the null pointer. *)
Class ColumnIterator `{Externals} (I C : Type) := {
  iter_init : I → ColumnIteratorOptions → OlapReaderStatistics
              → Status * I * OlapReaderStatistics;
  iter_next_batch : I → N → C → Status * I * N * C;
  iter_next_batch_range : I → SparseRange → C → Status * I * C;
  iter_fetch_values_by_rowid : I → list Z → C → Status * I * C;
  iter_read_null : ReadMode → I → N → Fault + Status * I * N;
  iter_seek_to_first : I → Status * I;
  iter_seek_to_ordinal : I → Z → Status * I;
  iter_get_current_ordinal : I → Z;
  iter_num_rows : I → Z;
  iter_get_row_ranges_by_zone_map :
    I → list ColumnPredicate → option ColumnPredicate → SparseRange
    → CompoundNodeType → Status * I * SparseRange;
}.

(** The cast evaluator, the flattening engine and the parts of the
    document column that the readers call but do not define. *)
Class Collaborators `{Externals} := {
  (** [VectorizedCastExprFactory::from_type(source, target, ColumnRef(slot))];
      the pointer it returns may be null. *)
  from_type : LogicalType → LogicalType → nat → option Expr;
  (** [Expr::evaluate_checked(nullptr, &chunk)], a [StatusOr<ColumnPtr>]. *)
  evaluate_checked : Expr → Chunk → Error + Column;
  (** [JsonColumn::init_flat_columns(paths, types)]. *)
  init_flat_columns : list string → list LogicalType → JsonColumn → JsonColumn;
  (** [JsonFlattener()] and [JsonFlattener(paths, types)]. *)
  JsonFlattener_default : JsonFlattener;
  JsonFlattener_new : list string → list LogicalType → JsonFlattener;
  (** [JsonFlattener::flatten(input, &flat_fields)]. *)
  flatten : JsonFlattener → DocColumn → list Column → list Column;
  (** [clone_empty()] of a destination column. *)
  doc_clone_empty : DocColumn → DocColumn;
}.

(** Modelled from the spec: [ColumnIterator::init(opts)] of the base
    class (storage/rowset/column_iterator.h, not in this file) keeps the
    options in the member [_opts] and returns OK; the spec has [init]
    fail only through an owned sub-iterator.  This is the status; the
    Runtime-Flat Reader, which reads [_opts], records the assignment. *)
Definition ColumnIterator_init `{Externals} (opts : ColumnIteratorOptions) : Status := OK.

(** The hit counter update both readers perform in [init]:
    [if (hits.count(p) == 0) hits[p] = 1; else hits[p] = hits[p] + 1]. *)
Definition count_hit (abs_path : string) (hits : gmap string Z) : gmap string Z :=
  match hits !! abs_path with
  | None => <[abs_path := 1]> hits
  | Some v => <[abs_path := v + 1]> hits
  end.

(** [ASSIGN_OR_RETURN]. *)
Definition ASSIGN_OR_RETURN {St A} (r : Error + A) : M St A := λ s,
  match r with
  | inr a => (Done a, s)
  | inl e => (Failed e, s)
  end.

(** The document column behind a destination, and its replacement. *)
Definition json_of `{Externals} (d : DocColumn) : JsonColumn :=
  match d with
  | Nullable nc => data_column nc
  | Json jc => jc
  end.

Definition with_json `{Externals} (j : JsonColumn) (d : DocColumn) : DocColumn :=
  match d with
  | Nullable nc => Nullable (set_data_column j nc)
  | Json _ => Json j
  end.

(** The null column behind a destination: a null pointer unless the
    destination is null-wrapped. *)
Definition null_of `{Externals} (d : DocColumn) : option NullColumn :=
  match d with
  | Nullable nc => Some (null_column nc)
  | Json _ => None
  end.

Definition with_null `{Externals} (n : NullColumn) (d : DocColumn) : DocColumn :=
  match d with
  | Nullable nc => Nullable (set_null_column n nc)
  | Json _ => d
  end.

Definition doc_update_has_null `{Externals} {St} (d : DocColumn) : M St DocColumn :=
  nc ← down_cast_nullable d;
  mret (Nullable (update_has_null nc)).

(** The outcome of a method that returns the [Status] [st]. *)
Definition status_outcome (st : Status) : Outcome unit :=
  match st with
  | OK => Done tt
  | Err e => Failed e
  end.

(** [m] never changes the part [f] of the state, however it ends. *)
Definition keeps {St A X : Type} (f : St → X) (m : M St A) : Prop :=
  ∀ s o s', m s = (o, s') → f s' = f s.

(** What a destination holds around its document column: the null
    column, the has-null flag and the delete state of the wrapper, if it
    is null-wrapped. *)
Definition wrapper `{Externals} (d : DocColumn)
  : option (NullColumn * bool * DelCondSatisfied) :=
  match d with
  | Nullable nc => Some (null_column nc, has_null nc, nullable_delete_state nc)
  | Json _ => None
  end.

(** The call each mode of a batch read makes on a sub-iterator; the
    count [n] matters to the first only. *)
Definition sub_read `{Externals} {I C : Type} `{!ColumnIterator I C} (mode : ReadMode)
    (it : I) (n : N) (c : C) : Status * I * N * C :=
  match mode with
  | NextN => iter_next_batch it n c
  | ByRange range =>
      let '(st, it', c') := iter_next_batch_range it range c in (st, it', n, c')
  | ByRowid rowids =>
      let '(st, it', c') := iter_fetch_values_by_rowid it rowids c in (st, it', n, c')
  end.

(** The same call with a null column pointer. *)
Definition sub_read_null `{Externals} {I C : Type} `{!ColumnIterator I C} (mode : ReadMode)
    (it : I) (n : N) : Fault + Status * I * N :=
  match iter_read_null mode it n with
  | inl f => inl f
  | inr (st, it', n') => inr (st, it', match mode with NextN => n' | _ => n end)
  end.

(** The two seeks (to the first row, to an ordinal) and the call each
    makes on a sub-iterator. *)
Inductive SeekMode :=
| SeekFirst
| SeekOrdinal (ord : Z).

Definition sub_seek `{Externals} {I C : Type} `{!ColumnIterator I C} (mode : SeekMode)
    (it : I) : Status * I :=
  match mode with
  | SeekFirst => iter_seek_to_first it
  | SeekOrdinal ord => iter_seek_to_ordinal it ord
  end.

(** ** The Precomputed-Flat Reader *)

Module JsonFlatColumnIterator.
Section Reader.
Context `{Collaborators} {NI FI : Type}.
Context `{!ColumnIterator NI NullColumn, !ColumnIterator FI Column}.

(** The members of the class.  A [std::unique_ptr] that may be null is
    an [option]. *)
Record t := mk {
  _reader : ColumnReader;
  _null_iter : option NI;
  _flat_iters : list FI;
  _flat_paths : list string;
  _target_types : list LogicalType;
  _source_types : list LogicalType;
  _source_columns : list (option Column);
  _path : option ColumnAccessPath;
  _cast_exprs : list (option Expr);
}.

Definition set_null_iter (it : option NI) (r : t) : t :=
  mk (_reader r) it (_flat_iters r) (_flat_paths r) (_target_types r)
     (_source_types r) (_source_columns r) (_path r) (_cast_exprs r).

Definition set_flat_iter (i : nat) (it : FI) (r : t) : t :=
  mk (_reader r) (_null_iter r) (<[i := it]> (_flat_iters r)) (_flat_paths r)
     (_target_types r) (_source_types r) (_source_columns r) (_path r)
     (_cast_exprs r).

(** [_cast_exprs.push_back(e); _source_columns.push_back(c)]. *)
Definition push_cast_plan (e : option Expr) (c : option Column) (r : t) : t :=
  mk (_reader r) (_null_iter r) (_flat_iters r) (_flat_paths r) (_target_types r)
     (_source_types r) (_source_columns r ++ [c]) (_path r) (_cast_exprs r ++ [e]).

(** The constructor: the cast plan starts empty. *)
Definition new (reader : ColumnReader) (null_iter : option NI) (field_iters : list FI)
    (flat_paths : list string) (target_types source_types : list LogicalType)
    (path : option ColumnAccessPath) : t :=
  mk reader null_iter field_iters flat_paths target_types source_types [] path [].

(** *** [init] works on the reader and the statistics behind
    [opts.stats]. *)
Record InitState := mkInit { init_self : t; init_stats : OlapReaderStatistics }.

Definition on_self (f : t → t) (s : InitState) : InitState :=
  mkInit (f (init_self s)) (init_stats s).

Definition init_null_iter (opts : ColumnIteratorOptions) : M InitState unit :=
  s ← get;
  match _null_iter (init_self s) with
  | Some it =>
      let '(st, it', stats') := iter_init it opts (init_stats s) in
      modify (λ _, mkInit (set_null_iter (Some it') (init_self s)) stats');;
      RETURN_IF_ERROR st
  | None => mret tt
  end.

Definition init_flat_iter (opts : ColumnIteratorOptions) (i : nat) : M InitState unit :=
  s ← get;
  it ← at_index (_flat_iters (init_self s)) i;
  let '(st, it', stats') := iter_init it opts (init_stats s) in
  modify (λ _, mkInit (set_flat_iter i it' (init_self s)) stats');;
  RETURN_IF_ERROR st.

Definition update_stats : M InitState unit :=
  s ← get;
  path ← deref (_path (init_self s));
  let abs_path := absolute_path path in
  modify (λ s, mkInit (init_self s)
                      (mkStats (count_hit abs_path (flat_json_hits (init_stats s)))
                               (dynamic_json_hits (init_stats s))
                               (json_flatten_ns (init_stats s)))).

(** One round of the loop that builds the cast plan. *)
Definition build_cast_plan (i : nat) : M InitState unit :=
  s ← get;
  target ← at_index (_target_types (init_self s)) i;
  source ← at_index (_source_types (init_self s)) i;
  if decide (target = source)
  then modify (on_self (push_cast_plan None None))
  else
    let cast_expr := from_type source target i in
    modify (on_self (push_cast_plan cast_expr (Some (create_column source)))).

Definition init (opts : ColumnIteratorOptions) : M InitState unit :=
  RETURN_IF_ERROR (ColumnIterator_init opts);;
  init_null_iter opts;;
  s ← get;
  for_each (seq 0 (length (_flat_iters (init_self s)))) (init_flat_iter opts);;
  (* update stats *)
  s ← get;
  DCHECK (bool_decide (is_Some (_path (init_self s))));;
  update_stats;;
  DCHECK (bool_decide (length (_target_types (init_self s))
                       = length (_source_types (init_self s))));;
  for_each (seq 0 (length (_target_types (init_self s)))) build_cast_plan;;
  mret tt.

(** *** Batch reads work on the reader, the count behind [size_t* n]
    and the destination column. *)
Record Env := mkEnv { self : t; cnt : N; dst : DocColumn }.

Definition set_self (r : t) (e : Env) : Env := mkEnv r (cnt e) (dst e).
Definition set_cnt (n : N) (e : Env) : Env := mkEnv (self e) n (dst e).
Definition set_dst (d : DocColumn) (e : Env) : Env := mkEnv (self e) (cnt e) d.

(** [json_column->get_flat_field(i)] and the write through it. *)
Definition get_flat_field (i : nat) : M Env Column :=
  e ← get;
  at_index (flat_columns (json_of (dst e))) i.

Definition put_flat_field (i : nat) (c : Column) : M Env unit :=
  modify (λ e, set_dst (with_json (set_flat_columns
                                     (<[i := c]> (flat_columns (json_of (dst e))))
                                     (json_of (dst e)))
                                  (dst e)) e).

(** The three [read] lambdas: read flat field [index] into [column].
    The column comes back with the status, since the sub-iterator
    writes through the pointer before it reports. *)
Definition ReadFn : Type := nat → Column → M Env (Status * Column).

Definition read_next : ReadFn := λ index column,
  e ← get;
  it ← at_index (_flat_iters (self e)) index;
  let '(st, it', n', column') := iter_next_batch it (cnt e) column in
  modify (λ e, set_cnt n' (set_self (set_flat_iter index it' (self e)) e));;
  mret (st, column').

Definition read_range (range : SparseRange) : ReadFn := λ index column,
  e ← get;
  it ← at_index (_flat_iters (self e)) index;
  let '(st, it', column') := iter_next_batch_range it range column in
  modify (λ e, set_self (set_flat_iter index it' (self e)) e);;
  mret (st, column').

Definition read_rowid (rowids : list Z) : ReadFn := λ index column,
  e ← get;
  it ← at_index (_flat_iters (self e)) index;
  let '(st, it', column') := iter_fetch_values_by_rowid it rowids column in
  modify (λ e, set_self (set_flat_iter index it' (self e)) e);;
  mret (st, column').

(** What the cast branch appends to [target] for the result [res] of
    the cast and the [source] column that was read. *)
Definition append_cast_result (target res source : Column) : M Env Column :=
  if only_null res then
    mret (append_nulls target (Column_size source))
  else if is_constant res then
    let data := const_data_column res in
    append_value_multiple_times target data 0 (Column_size source)
  else
    append target res 0 (Column_size source).

(** One round of the loop of [_read_and_cast], for flat field [i];
    [chunk] is the local [Chunk], which lives across the rounds. *)
Definition read_and_cast_step (read_fn : ReadFn) (i : nat) (chunk : Chunk)
  : M Env Chunk :=
  e ← get;
  cast_expr ← at_index (_cast_exprs (self e)) i;
  match cast_expr with
  | Some expr =>
      scratch ← at_index (_source_columns (self e)) i;
      scratch ← deref scratch;
      let source := clone_empty scratch in
      '(st, source) ← read_fn i source;
      RETURN_IF_ERROR st;;
      let chunk := append_column chunk source i in
      res ← ASSIGN_OR_RETURN (evaluate_checked expr chunk);
      target ← get_flat_field i;
      let target := set_delete_state (delete_state source) target in
      target ← append_cast_result target res source;
      put_flat_field i target;;
      e ← get;
      DCHECK (bool_decide (JsonColumn_size (json_of (dst e)) = Column_size target));;
      mret chunk
  | None =>
      flat_column ← get_flat_field i;
      '(st, flat_column) ← read_fn i flat_column;
      put_flat_field i flat_column;;
      RETURN_IF_ERROR st;;
      mret chunk
  end.

(** [for (int i = 0; i < _flat_iters.size(); i++)], over the indices
    still to do. *)
Fixpoint read_and_cast_loop (read_fn : ReadFn) (idxs : list nat) (chunk : Chunk)
  : M Env unit :=
  match idxs with
  | [] => mret tt
  | i :: rest =>
      chunk ← read_and_cast_step read_fn i chunk;
      read_and_cast_loop read_fn rest chunk
  end.

Definition _read_and_cast (read_fn : ReadFn) : M Env unit :=
  e ← get;
  modify (λ e, set_dst (with_json (init_flat_columns (_flat_paths (self e))
                                                     (_target_types (self e))
                                                     (json_of (dst e)))
                                  (dst e)) e);;
  read_and_cast_loop read_fn (seq 0 (length (_flat_iters (self e)))) [].

(** The null column is read first, by the same kind of call, and the
    has-null flag of the destination is refreshed.  [null_column] is the
    pointer the null sub-iterator is handed: [read] is the call when it
    points to a column, [read_null] the call when it is null; both come
    with the count the call leaves behind [n]. *)
Definition read_null_column (it : NI) (null_column : option NullColumn)
    (read : NullColumn → Status * NI * N * NullColumn)
    (read_null : Fault + Status * NI * N) : M Env unit :=
  '(st, it', n', nulls') ←
    match null_column with
    | Some nulls =>
        let '(st, it', n', nulls') := read nulls in mret (st, it', n', Some nulls')
    | None =>
        match read_null with
        | inl f => crash f
        | inr (st, it', n') => mret (st, it', n', None)
        end
    end;
  modify (λ e, mkEnv (set_null_iter (Some it') (self e)) n'
                     (match nulls' with
                      | Some nulls' => with_null nulls' (dst e)
                      | None => dst e
                      end));;
  RETURN_IF_ERROR st;;
  e ← get;
  d ← doc_update_has_null (dst e);
  modify (set_dst d).

(** [next_batch(size_t* n, Column* dst)]. *)
Definition next_batch : M Env unit :=
  e ← get;
  (* json_column and null_column: by dst->is_nullable() *)
  let null_column := null_of (dst e) in
  (* 1. Read null column *)
  match _null_iter (self e) with
  | Some it =>
      read_null_column it null_column (iter_next_batch it (cnt e))
                       (sub_read_null NextN it (cnt e))
  | None => mret tt
  end;;
  (* 2. Read flat column *)
  _read_and_cast read_next.

(** [next_batch(const SparseRange<>& range, Column* dst)]. *)
Definition next_batch_range (range : SparseRange) : M Env unit :=
  e ← get;
  let null_column := null_of (dst e) in
  CHECK (bool_decide ((_null_iter (self e) = None ∧ null_column = None)
                      ∨ (is_Some (_null_iter (self e)) ∧ is_Some null_column)));;
  match _null_iter (self e) with
  | Some it =>
      read_null_column it null_column
        (λ nulls, let '(st, it', nulls') := iter_next_batch_range it range nulls in
                  (st, it', cnt e, nulls'))
        (sub_read_null (ByRange range) it (cnt e))
  | None => mret tt
  end;;
  _read_and_cast (read_range range).

(** [fetch_values_by_rowid(rowids, size, values)]: [rowids] is the
    array of [size] row ids. *)
Definition fetch_values_by_rowid (rowids : list Z) : M Env unit :=
  e ← get;
  match _null_iter (self e) with
  | Some it =>
      nullable_column ← down_cast_nullable (dst e);
      read_null_column it (Some (null_column nullable_column))
        (λ nulls, let '(st, it', nulls') := iter_fetch_values_by_rowid it rowids nulls in
                  (st, it', cnt e, nulls'))
        (sub_read_null (ByRowid rowids) it (cnt e))
  | None =>
      _ ← down_cast_json (dst e);
      mret tt
  end;;
  _read_and_cast (read_rowid rowids).

Definition seek_null_iter (seek : NI → Status * NI) : M t unit :=
  r ← get;
  match _null_iter r with
  | Some it =>
      let '(st, it') := seek it in
      modify (set_null_iter (Some it'));;
      RETURN_IF_ERROR st
  | None => mret tt
  end.

Definition seek_flat_iter (seek : FI → Status * FI) (i : nat) : M t unit :=
  r ← get;
  it ← at_index (_flat_iters r) i;
  let '(st, it') := seek it in
  modify (set_flat_iter i it');;
  RETURN_IF_ERROR st.

Definition seek_to_first : M t unit :=
  seek_null_iter iter_seek_to_first;;
  r ← get;
  for_each (seq 0 (length (_flat_iters r))) (seek_flat_iter iter_seek_to_first);;
  mret tt.

Definition seek_to_ordinal (ord : Z) : M t unit :=
  seek_null_iter (λ it, iter_seek_to_ordinal it ord);;
  r ← get;
  for_each (seq 0 (length (_flat_iters r)))
           (seek_flat_iter (λ it, iter_seek_to_ordinal it ord));;
  mret tt.

(** [_flat_iters[0]->get_current_ordinal()]. *)
Definition get_current_ordinal : M t Z :=
  r ← get;
  it ← at_index (_flat_iters r) 0;
  mret (iter_get_current_ordinal it).

(** [_flat_iters[0]->num_rows()]. *)
Definition num_rows : M t Z :=
  r ← get;
  it ← at_index (_flat_iters r) 0;
  mret (iter_num_rows it).

(** [get_row_ranges_by_zone_map]: the state is the [SparseRange]
    behind [row_ranges]. *)
Definition get_row_ranges_by_zone_map (r : t) (predicates : list ColumnPredicate)
    (del_predicate : option ColumnPredicate) (pred_relation : CompoundNodeType)
  : M SparseRange unit :=
  modify (λ row_ranges,
            SparseRange_add row_ranges
                            (mkRange 0 (to_rowid (reader_num_rows (_reader r)))));;
  mret tt.

(** The three entry points of a batch read. *)
Definition batch_read (mode : ReadMode) : M Env unit :=
  match mode with
  | NextN => next_batch
  | ByRange range => next_batch_range range
  | ByRowid rowids => fetch_values_by_rowid rowids
  end.

Definition read_fn_of (mode : ReadMode) : ReadFn :=
  match mode with
  | NextN => read_next
  | ByRange range => read_range range
  | ByRowid rowids => read_rowid rowids
  end.

(** *** Vocabulary of the statements about batch reads *)

(** The state a round of [_read_and_cast] leaves: sub-iterator [i]
    advanced, the count updated, flat field [i] replaced. *)
Definition after_round (i : nat) (it' : FI) (n' : N) (c' : Column) (e : Env) : Env :=
  mkEnv (set_flat_iter i it' (self e)) n'
        (with_json (set_flat_columns (<[i := c']> (flat_columns (json_of (dst e))))
                                     (json_of (dst e)))
                   (dst e)).

(** The rows the cast branch appends for the result [res] of the cast,
    when [source] is what was read. *)
Definition cast_rows (res source : Column) : list (option Datum) :=
  if only_null res then replicate (Column_size source) None
  else match res with
       | Const _ v _ _ => replicate (Column_size source) v
       | Vector _ rows _ => take (Column_size source) rows
       end.

(** Flat field [j] and its sub-iterator are the same in two states. *)
Definition same_at (j : nat) (e e' : Env) : Prop :=
  flat_columns (json_of (dst e')) !! j = flat_columns (json_of (dst e)) !! j
  ∧ _flat_iters (self e') !! j = _flat_iters (self e) !! j.

(** What no round changes: the cast plan, the number of flat fields and
    of sub-iterators, the null sub-iterator and the null column. *)
Definition same_plan (e e' : Env) : Prop :=
  _cast_exprs (self e') = _cast_exprs (self e)
  ∧ _source_columns (self e') = _source_columns (self e)
  ∧ length (_flat_iters (self e')) = length (_flat_iters (self e))
  ∧ length (flat_columns (json_of (dst e'))) = length (flat_columns (json_of (dst e)))
  ∧ _null_iter (self e') = _null_iter (self e)
  ∧ null_of (dst e') = null_of (dst e).

(** The destination with its flat-field storage initialised, as the
    loop of [_read_and_cast] finds it. *)
Definition with_flat_storage (e : Env) : Env :=
  set_dst (with_json (init_flat_columns (_flat_paths (self e)) (_target_types (self e))
                                        (json_of (dst e)))
                     (dst e)) e.

(** The first phase of a batch read, on the null column: it leaves the
    flat side alone. *)
Definition null_phase (mode : ReadMode) (e e0 : Env) : Prop :=
  _flat_iters (self e0) = _flat_iters (self e)
  ∧ _cast_exprs (self e0) = _cast_exprs (self e)
  ∧ _source_columns (self e0) = _source_columns (self e)
  ∧ _flat_paths (self e0) = _flat_paths (self e)
  ∧ _target_types (self e0) = _target_types (self e)
  ∧ json_of (dst e0) = json_of (dst e)
  ∧ match _null_iter (self e) with
    | None => e0 = e
    | Some it =>
        ∃ nc, dst e = Nullable nc
          ∧ let sub := sub_read mode it (cnt e) (null_column nc) in
            sub.1.1.1 = OK ∧ cnt e0 = sub.1.2 ∧ null_of (dst e0) = Some sub.2
    end.

(** What the null sub-iterator [it] answers in a batch read: a status,
    or the fault it runs into when the destination is not null-wrapped
    and it is handed a null pointer. *)
Definition null_read_answer (mode : ReadMode) (it : NI) (e : Env) : Fault + Status :=
  match null_of (dst e) with
  | Some nulls => inr (sub_read mode it (cnt e) nulls).1.1.1
  | None =>
      match sub_read_null mode it (cnt e) with
      | inl f => inl f
      | inr (st, _, _) => inr st
      end
  end.

(** Flat sub-iterator [it], asked for a count in [counts], delivers
    [rows] rows and leaves a count in [counts]. *)
Definition delivers (mode : ReadMode) (counts : N → Prop) (rows : nat) (it : FI) : Prop :=
  ∀ n c, counts n →
    let sub := sub_read mode it n c in
    sub.1.1.1 = OK → Column_size sub.2 = (Column_size c + rows)%nat ∧ counts sub.1.2.

(** The sub-iterators of a batch read work in lock step: each delivers
    [rows] rows, into sub-columns that all hold [s0] rows. *)
Definition lock_step (mode : ReadMode) (counts : N → Prop) (rows s0 : nat) (e : Env) : Prop :=
  match _null_iter (self e) with
  | Some it =>
      ∀ nulls : NullColumn,
        let sub := sub_read mode it (cnt e) nulls in
        sub.1.1.1 = OK → length sub.2 = (length nulls + rows)%nat ∧ counts sub.1.2
  | None => counts (cnt e)
  end
  ∧ (∀ i it, _flat_iters (self e) !! i = Some it → delivers mode counts rows it)
  ∧ (∀ i c, flat_columns (init_flat_columns (_flat_paths (self e)) (_target_types (self e))
                                            (json_of (dst e))) !! i = Some c →
            Column_size c = s0)
  ∧ (∀ nc, dst e = Nullable nc → length (null_column nc) = s0).

(** The column round [j] of [_read_and_cast] hands to sub-iterator
    [j]: flat field [j] as [init_flat_columns] made it where the plan has
    no cast, an empty clone of scratch column [j] where it has one. *)
Definition round_column (e : Env) (j : nat) : option Column :=
  match _cast_exprs (self e) !! j with
  | Some None =>
      flat_columns (init_flat_columns (_flat_paths (self e)) (_target_types (self e))
                                      (json_of (dst e))) !! j
  | Some (Some _) =>
      match _source_columns (self e) !! j with
      | Some (Some scratch) => Some (clone_empty scratch)
      | _ => None
      end
  | None => None
  end.

(** The count behind [size_t* n] is shared by all the calls of a batch
    read, each is made with the count the call before it left: the count
    when the null column has been read, and the count when round [i] of
    [_read_and_cast] begins. *)
Definition count_after_null (mode : ReadMode) (e : Env) : N :=
  match _null_iter (self e), null_of (dst e) with
  | Some it, Some nulls => (sub_read mode it (cnt e) nulls).1.2
  | _, _ => cnt e
  end.

Fixpoint count_at (mode : ReadMode) (e : Env) (i : nat) : N :=
  match i with
  | O => count_after_null mode e
  | S j =>
      match _flat_iters (self e) !! j, round_column e j with
      | Some it, Some c => (sub_read mode it (count_at mode e j) c).1.2
      | _, _ => count_at mode e j
      end
  end.

(** What [init] builds the cast plan from, and the plan. *)
Definition plan_of (r : t) :=
  (_target_types r, _source_types r, _cast_exprs r, _source_columns r).

(** *** Vocabulary of the statements about [init] and the seeks *)

(** What the constructor fixes and [init] completes: everything but the
    state of the sub-iterators. *)
Definition descriptors (r : t) :=
  (_reader r, _flat_paths r, _target_types r, _source_types r, _source_columns r,
   _path r, _cast_exprs r, length (_flat_iters r)).

Definition with_flat_iters (its : list FI) (r : t) : t :=
  mk (_reader r) (_null_iter r) its (_flat_paths r) (_target_types r)
     (_source_types r) (_source_columns r) (_path r) (_cast_exprs r).

(** One call [seek] on each sub-iterator of a list, in order, up to the
    first that fails: the status of the last call and the sub-iterators
    afterwards. *)
Fixpoint seek_each (seek : FI → Status * FI) (its : list FI) : Status * list FI :=
  match its with
  | [] => (OK, [])
  | it :: rest =>
      match seek it with
      | (OK, it') => let '(st, rest') := seek_each seek rest in (st, it' :: rest')
      | (Err e, it') => (Err e, it' :: rest)
      end
  end.

Definition seek (mode : SeekMode) : M t unit :=
  match mode with
  | SeekFirst => seek_to_first
  | SeekOrdinal ord => seek_to_ordinal ord
  end.

(** Parts [f] of the state of a batch read that do not look at the flat
    sub-iterators, at the count behind [n], at the document column. *)
Definition blind_to_iters {X : Type} (f : Env → X) : Prop :=
  ∀ j it (e : Env), f (set_self (set_flat_iter j it (self e)) e) = f e.

Definition blind_to_cnt {X : Type} (f : Env → X) : Prop :=
  ∀ n (e : Env), f (set_cnt n e) = f e.

Definition blind_to_json {X : Type} (f : Env → X) : Prop :=
  ∀ j (e : Env), f (set_dst (with_json j (dst e)) e) = f e.
End Reader.
End JsonFlatColumnIterator.

(** ** The Runtime-Flat Reader *)

Module JsonDynamicFlatIterator.
Section Reader.
Context `{Collaborators} {JI : Type} `{!ColumnIterator JI DocColumn}.

(** Modelled from the spec: besides the members of the class, the
    reader has [_opts] of the base class [ColumnIterator]
    (storage/rowset/column_iterator.h, not in this file), the options
    [ColumnIterator::init] was given; [None] is the default-constructed
    value of a reader that was never initialised, whose [stats] pointer
    is null. *)
Record t := mk {
  _json_iter : JI;
  _flat_paths : list string;
  _target_types : list LogicalType;
  _path : option ColumnAccessPath;
  _flattener : JsonFlattener;
  _opts : option ColumnIteratorOptions;
}.

Definition set_json_iter (it : JI) (r : t) : t :=
  mk it (_flat_paths r) (_target_types r) (_path r) (_flattener r) (_opts r).

Definition set_flattener (f : JsonFlattener) (r : t) : t :=
  mk (_json_iter r) (_flat_paths r) (_target_types r) (_path r) f (_opts r).

Definition set_opts (o : option ColumnIteratorOptions) (r : t) : t :=
  mk (_json_iter r) (_flat_paths r) (_target_types r) (_path r) (_flattener r) o.

Definition new (json_iter : JI) (flat_paths : list string)
    (target_types : list LogicalType) (path : option ColumnAccessPath) : t :=
  mk json_iter flat_paths target_types path JsonFlattener_default None.

Record InitState := mkInit { init_self : t; init_stats : OlapReaderStatistics }.

Definition update_stats : M InitState unit :=
  s ← get;
  path ← deref (_path (init_self s));
  let abs_path := absolute_path path in
  modify (λ s, mkInit (init_self s)
                      (mkStats (flat_json_hits (init_stats s))
                               (count_hit abs_path (dynamic_json_hits (init_stats s)))
                               (json_flatten_ns (init_stats s)))).

Definition init (opts : ColumnIteratorOptions) : M InitState unit :=
  (* ColumnIterator::init(opts): _opts = opts *)
  modify (λ s, mkInit (set_opts (Some opts) (init_self s)) (init_stats s));;
  RETURN_IF_ERROR (ColumnIterator_init opts);;
  s ← get;
  DCHECK (bool_decide (is_Some (_path (init_self s))));;
  update_stats;;
  modify (λ s, mkInit (set_flattener (JsonFlattener_new (_flat_paths (init_self s))
                                                        (_target_types (init_self s)))
                                     (init_self s))
                      (init_stats s));;
  s ← get;
  let '(st, it', stats') := iter_init (_json_iter (init_self s)) opts (init_stats s) in
  modify (λ s, mkInit (set_json_iter it' (init_self s)) stats');;
  RETURN_IF_ERROR st.

(** Batch reads work on the reader, the count behind [size_t* n], the
    destination column and the statistics behind [_opts.stats].
    [flatten_time] is what the stopwatch of [_flat_json] will read when
    the call is over: an input of the call, as the count is. *)
Record Env := mkEnv {
  self : t;
  cnt : N;
  dst : DocColumn;
  stats : OlapReaderStatistics;
  flatten_time : Z;
}.

Definition set_dst (d : DocColumn) (e : Env) : Env :=
  mkEnv (self e) (cnt e) d (stats e) (flatten_time e).

(** [*counter += elapsed], on [json_flatten_ns]. *)
Definition add_json_flatten_ns (elapsed : Z) (st : OlapReaderStatistics)
  : OlapReaderStatistics :=
  mkStats (flat_json_hits st) (dynamic_json_hits st) (json_flatten_ns st + elapsed).

(** [SCOPED_RAW_TIMER(&_opts.stats->json_flatten_ns)] with the rest of
    the function as [body]:
    when the scope is left, the timer adds the time its stopwatch shows
    to the counter.  The counter is reached through [_opts.stats]; in a
    reader that was never initialised that pointer is null, and the write
    through it is a null-pointer fault. *)
Definition SCOPED_RAW_TIMER (body : M Env unit) : M Env unit :=
  body;;
  e ← get;
  _ ← deref (_opts (self e));
  modify (λ e, mkEnv (self e) (cnt e) (dst e)
                     (add_json_flatten_ns (flatten_time e) (stats e)) (flatten_time e)).

(** [_flat_json(input, output)]; [output] is the destination of the
    batch read in each of the three calls. *)
Definition _flat_json (input : DocColumn) : M Env unit :=
  SCOPED_RAW_TIMER (
    e ← get;
    let output := dst e in
    (* 1. null column handle *)
    (if is_nullable output then
       output_nullable ← down_cast_nullable output;
       input_nullable ← down_cast_nullable input;
       let input_null := null_column input_nullable in
       let output_null :=
         null_column output_nullable ++ take (length input_null) input_null in
       modify (set_dst
                 (Nullable (set_has_null (has_null input_nullable || has_null output_nullable)
                                         (set_null_column output_null output_nullable))))
     else
       _ ← down_cast_json output;
       mret tt);;
    (* 2. flat *)
    modify (λ e, set_dst (with_json (init_flat_columns (_flat_paths (self e))
                                                       (_target_types (self e))
                                                       (json_of (dst e)))
                                    (dst e)) e);;
    modify (λ e, set_dst (with_json (set_flat_columns
                                       (flatten (_flattener (self e)) input
                                                (flat_columns (json_of (dst e))))
                                       (json_of (dst e)))
                                    (dst e)) e);;
    mret tt).

(** What the three batch reads share: [read] is the call that fills
    the proxy. *)
Definition read_via_proxy (read : JI → N → DocColumn → Status * JI * N * DocColumn)
  : M Env unit :=
  e ← get;
  let proxy := doc_clone_empty (dst e) in
  let '(st, it', n', proxy) := read (_json_iter (self e)) (cnt e) proxy in
  modify (λ e, mkEnv (set_json_iter it' (self e)) n' (dst e) (stats e) (flatten_time e));;
  RETURN_IF_ERROR st;;
  modify (λ e, set_dst (doc_set_delete_state (doc_delete_state proxy) (dst e)) e);;
  _flat_json proxy.

Definition next_batch : M Env unit :=
  read_via_proxy iter_next_batch.

Definition next_batch_range (range : SparseRange) : M Env unit :=
  read_via_proxy (λ it n proxy,
    let '(st, it', proxy') := iter_next_batch_range it range proxy in (st, it', n, proxy')).

Definition fetch_values_by_rowid (rowids : list Z) : M Env unit :=
  read_via_proxy (λ it n proxy,
    let '(st, it', proxy') := iter_fetch_values_by_rowid it rowids proxy in (st, it', n, proxy')).

Definition batch_read (mode : ReadMode) : M Env unit :=
  match mode with
  | NextN => next_batch
  | ByRange range => next_batch_range range
  | ByRowid rowids => fetch_values_by_rowid rowids
  end.

Definition seek_to_first : M t unit :=
  r ← get;
  let '(st, it') := iter_seek_to_first (_json_iter r) in
  modify (set_json_iter it');;
  RETURN_IF_ERROR st.

Definition seek_to_ordinal (ord : Z) : M t unit :=
  r ← get;
  let '(st, it') := iter_seek_to_ordinal (_json_iter r) ord in
  modify (set_json_iter it');;
  RETURN_IF_ERROR st.

Definition get_current_ordinal (r : t) : Z := iter_get_current_ordinal (_json_iter r).

Definition num_rows (r : t) : Z := iter_num_rows (_json_iter r).

(** The state is the reader and the [SparseRange] behind [row_ranges]. *)
Definition get_row_ranges_by_zone_map (predicates : list ColumnPredicate)
    (del_predicate : option ColumnPredicate) (pred_relation : CompoundNodeType)
  : M (t * SparseRange) unit :=
  '(r, row_ranges) ← get;
  let '(st, it', row_ranges') :=
    iter_get_row_ranges_by_zone_map (_json_iter r) predicates del_predicate
                                    row_ranges pred_relation in
  modify (λ _, (set_json_iter it' r, row_ranges'));;
  RETURN_IF_ERROR st.
End Reader.
End JsonDynamicFlatIterator.

(** ** The factory functions: construction cannot fail. *)

Definition create_json_flat_iterator `{Collaborators} {NI FI : Type}
    (reader : ColumnReader) (null_iter : option NI) (field_iters : list FI)
    (full_paths : list string) (target_types source_types : list LogicalType)
    (path : option ColumnAccessPath) : Error + JsonFlatColumnIterator.t (NI := NI) (FI := FI) :=
  inr (JsonFlatColumnIterator.new reader null_iter field_iters full_paths
                                  target_types source_types path).

Definition create_json_dynamic_flat_iterator `{Collaborators} {JI : Type}
    (json_iter : JI) (flat_paths : list string) (target_types : list LogicalType)
    (path : option ColumnAccessPath) : Error + JsonDynamicFlatIterator.t (JI := JI) :=
  inr (JsonDynamicFlatIterator.new json_iter flat_paths target_types path).

(** ** Concrete collaborators, to run the readers on

    Three logical types, integer and string values, and sub-iterators
    that serve rows from a stored sequence. *)

Module Fixture.
Inductive Ty := TYPE_INT | TYPE_VARCHAR | TYPE_BOOLEAN.

#[local] Instance Ty_eq_dec : EqDecision Ty.
Proof. solve_decision. Defined.

Inductive Value := IntVal (z : Z) | StrVal (s : string) | BoolVal (b : bool).

(** A compiled cast: source type, target type and the slot it reads. *)
Record CastExpr := mkCast { cast_source : Ty; cast_target : Ty; cast_slot : nat }.

Definition externals (ndebug : bool) : Externals := {|
  LogicalType := Ty;
  Datum := Value;
  JsonValue := string;
  DelCondSatisfied := bool;
  DEL_NOT_SATISFIED := false;
  ColumnIteratorOptions := unit;
  ColumnPredicate := unit;
  CompoundNodeType := unit;
  Expr := CastExpr;
  JsonFlattener := list string * list Ty;
  NDEBUG := ndebug;
|}.

Section WithBuild.
Variable ndebug : bool.
Let E : Externals := externals ndebug.
#[local] Existing Instance E.

(** The column the cast reads: the last one appended under its slot. *)
Fixpoint chunk_column (chunk : Chunk) (slot : nat) : option Column :=
  match chunk with
  | [] => None
  | (id, c) :: rest =>
      match chunk_column rest slot with
      | Some c' => Some c'
      | None => if decide (id = slot) then Some c else None
      end
  end.

Definition cast_value (v : option Value) : option Value :=
  match v with
  | Some (IntVal z) => Some (StrVal (pretty z))
  | _ => None
  end.

(** Integers print as strings, nothing parses back as an integer
    (the result is the constant null), and every value is true as a
    boolean (the result is a constant). *)
Definition eval_cast (e : CastExpr) (chunk : Chunk) : Error + Column :=
  match chunk_column chunk (cast_slot e) with
  | None => inl (mkError 1 "no such slot")
  | Some c =>
      match cast_target e with
      | TYPE_VARCHAR =>
          inr (Vector TYPE_VARCHAR (cast_value <$> Column_rows c) (delete_state c))
      | TYPE_INT => inr (Const TYPE_INT None (Column_size c) (delete_state c))
      | TYPE_BOOLEAN =>
          inr (Const TYPE_BOOLEAN (Some (BoolVal true)) (Column_size c) (delete_state c))
      end
  end.

(** Flat fields are created on first use and kept afterwards. *)
Definition make_flat_columns (paths : list string) (types : list Ty)
    (j : JsonColumn) : JsonColumn :=
  match flat_column_paths j with
  | [] => mkJsonColumn (json_objects j) paths types (create_column <$> types)
                       (json_delete_state j)
  | _ :: _ => j
  end.

Definition doc_rows (d : DocColumn) : nat :=
  length (json_objects (json_of d)).

(** A flattening engine that finds no path: one null per document. *)
Definition flatten_absent (f : list string * list Ty) (input : DocColumn)
    (fields : list Column) : list Column :=
  (λ c, append_nulls c (doc_rows input)) <$> fields.

Definition empty_json : JsonColumn := mkJsonColumn [] [] [] [] false.

Definition empty_like (d : DocColumn) : DocColumn :=
  match d with
  | Nullable _ => Nullable (mkNullableColumn empty_json [] false false)
  | Json _ => Json empty_json
  end.

Definition collaborators : Collaborators := {|
  from_type := λ source target slot, Some (mkCast source target slot);
  evaluate_checked := eval_cast;
  init_flat_columns := make_flat_columns;
  JsonFlattener_default := ([], []);
  JsonFlattener_new := pair;
  flatten := flatten_absent;
  doc_clone_empty := empty_like;
|}.

(** A sub-iterator over a stored sequence of rows: [stub_pos] is the
    current ordinal, [stub_init] what [init] answers. *)
Record Stub (A : Type) := mkStub {
  stub_rows : list A;
  stub_pos : nat;
  stub_init : Status;
}.
Arguments mkStub {A} _ _ _.
Arguments stub_rows {A} _.
Arguments stub_pos {A} _.
Arguments stub_init {A} _.

Definition rows_of_range {A} (rows : list A) (r : Range) : list A :=
  take (Z.to_nat (range_end r - range_begin r)) (drop (Z.to_nat (range_begin r)) rows).

Definition stub_iterator {A C : Type} (extend : C → list A → C) : ColumnIterator (Stub A) C := {|
  iter_init := λ it opts stats, (stub_init it, it, stats);
  iter_next_batch := λ it n c,
    let got := take (N.to_nat n) (drop (stub_pos it) (stub_rows it)) in
    (OK, mkStub (stub_rows it) (stub_pos it + length got) (stub_init it),
     N.of_nat (length got), extend c got);
  iter_next_batch_range := λ it range c,
    (OK, it, extend c (range ≫= rows_of_range (stub_rows it)));
  iter_fetch_values_by_rowid := λ it rowids c,
    (OK, it, extend c (omap (λ id, stub_rows it !! Z.to_nat id) rowids));
  iter_read_null := λ mode it n, inl NullPointer;
  iter_seek_to_first := λ it, (OK, mkStub (stub_rows it) 0 (stub_init it));
  iter_seek_to_ordinal := λ it ord,
    (OK, mkStub (stub_rows it) (Z.to_nat ord) (stub_init it));
  iter_get_current_ordinal := λ it, Z.of_nat (stub_pos it);
  iter_num_rows := λ it, Z.of_nat (length (stub_rows it));
  iter_get_row_ranges_by_zone_map := λ it predicates del_predicate row_ranges pred_relation,
    (OK, it, SparseRange_add row_ranges (mkRange 0 (Z.of_nat (length (stub_rows it)))));
|}.

Definition flat_stub : ColumnIterator (Stub (option Value)) Column :=
  stub_iterator push_rows.

Definition null_stub : ColumnIterator (Stub Z) NullColumn :=
  stub_iterator (λ (c : NullColumn) got, c ++ got).

(** Raw documents: a row is a document or null. *)
Definition push_docs (d : DocColumn) (got : list (option string)) : DocColumn :=
  let docs := default "null" <$> got in
  let flags := (λ o : option string, match o with Some _ => 0 | None => 1 end) <$> got in
  match d with
  | Nullable nc =>
      let j := data_column nc in
      Nullable (mkNullableColumn
                  (mkJsonColumn (json_objects j ++ docs) (flat_column_paths j)
                                (flat_column_types j) (flat_columns j)
                                (json_delete_state j))
                  (null_column nc ++ flags)
                  (has_null nc || existsb (λ b, negb (b =? 0)) flags)
                  true)
  | Json j =>
      Json (mkJsonColumn (json_objects j ++ docs) (flat_column_paths j)
                         (flat_column_types j) (flat_columns j) true)
  end.

Definition json_stub : ColumnIterator (Stub (option string)) DocColumn :=
  stub_iterator push_docs.
End WithBuild.

Arguments mkStub {A} _ _ _.
Arguments stub_rows {A} _.
Arguments stub_pos {A} _.
Arguments stub_init {A} _.
End Fixture.

(** ** Readers to run: a debug build, four flat fields, three rows *)

Module Demo.
Import Fixture.

#[local] Instance E : Externals := externals false.
#[local] Instance C : Collaborators := collaborators false.
#[local] Instance flat_iterator : ColumnIterator (Stub (option Value)) Column :=
  flat_stub false.
#[local] Instance null_iterator : ColumnIterator (Stub Z) NullColumn :=
  null_stub false.
#[local] Instance json_iterator : ColumnIterator (Stub (option string)) DocColumn :=
  json_stub false.

Definition doc_path : option ColumnAccessPath := Some (mkPath "doc").

Definition no_stats : OlapReaderStatistics := mkStats ∅ ∅ 0.

Definition empty_nullable : DocColumn :=
  Nullable (mkNullableColumn (empty_json false) [] false false).

(** [$.a] is stored as it is asked for; [$.b] is an integer asked for
    as a string; [$.c] is a string asked for as an integer (the cast
    gives the constant null); [$.d] is asked for as a boolean (the
    cast gives a constant). *)
Definition flat_reader : JsonFlatColumnIterator.t :=
  JsonFlatColumnIterator.new (mkColumnReader 1000)
    (Some (mkStub [0; 0; 1] 0%nat OK))
    [mkStub [Some (IntVal 7); Some (IntVal 8); Some (IntVal 9)] 0%nat OK;
     mkStub [Some (IntVal 1); Some (IntVal 2); None] 0%nat OK;
     mkStub [Some (StrVal "x"); Some (StrVal "y"); None] 0%nat OK;
     mkStub [Some (IntVal 4); Some (IntVal 5); Some (IntVal 6)] 0%nat OK]
    ["$.a"; "$.b"; "$.c"; "$.d"]%string
    [TYPE_INT; TYPE_VARCHAR; TYPE_INT; TYPE_BOOLEAN]
    [TYPE_INT; TYPE_INT; TYPE_VARCHAR; TYPE_INT]
    doc_path.

Definition flat_initialised : JsonFlatColumnIterator.InitState :=
  (JsonFlatColumnIterator.init tt (JsonFlatColumnIterator.mkInit flat_reader no_stats)).2.

(** Five rows are asked for, three are there. *)
Definition flat_env : JsonFlatColumnIterator.Env :=
  JsonFlatColumnIterator.mkEnv (JsonFlatColumnIterator.init_self flat_initialised)
                               5%N empty_nullable.

Definition flat_env_read : JsonFlatColumnIterator.Env :=
  (JsonFlatColumnIterator.batch_read NextN flat_env).2.

Definition three_or_five (n : N) : Prop := n = 5%N ∨ n = 3%N.

(** Two flat fields without a cast whose sub-iterators hold three rows
    and two rows, and no null sub-iterator. *)
Definition skewed_reader : JsonFlatColumnIterator.t (NI := Stub Z) :=
  JsonFlatColumnIterator.new (mkColumnReader 3) None
    [mkStub [Some (IntVal 7); Some (IntVal 8); Some (IntVal 9)] 0%nat OK;
     mkStub [Some (IntVal 1); Some (IntVal 2)] 0%nat OK]
    ["$.a"; "$.b"]%string [TYPE_INT; TYPE_INT] [TYPE_INT; TYPE_INT] doc_path.

Definition skewed_ready : JsonFlatColumnIterator.t (NI := Stub Z) :=
  JsonFlatColumnIterator.init_self
    (JsonFlatColumnIterator.init tt (JsonFlatColumnIterator.mkInit skewed_reader no_stats)).2.

Definition skewed_env : JsonFlatColumnIterator.Env :=
  JsonFlatColumnIterator.mkEnv skewed_ready 3%N (Json (empty_json false)).

(** The same reader, handed a null-wrapped destination although it has
    no null sub-iterator. *)
Definition mismatch_env : JsonFlatColumnIterator.Env :=
  JsonFlatColumnIterator.mkEnv skewed_ready 3%N empty_nullable.

(** A runtime reader over three raw documents, the second one null,
    and a destination that already holds one null row. *)
Definition dynamic_reader : JsonDynamicFlatIterator.t :=
  JsonDynamicFlatIterator.new
    (mkStub [Some "{a: 1}"; None; Some "{a: 3}"]%string 0%nat OK)
    ["$.a"]%string [TYPE_INT] doc_path.

Definition dynamic_initialised : JsonDynamicFlatIterator.InitState :=
  (JsonDynamicFlatIterator.init tt (JsonDynamicFlatIterator.mkInit dynamic_reader no_stats)).2.

(** Five rows are asked for; flattening will take 250 ns. *)
Definition dynamic_env : JsonDynamicFlatIterator.Env :=
  JsonDynamicFlatIterator.mkEnv (JsonDynamicFlatIterator.init_self dynamic_initialised) 5%N
    (Nullable (mkNullableColumn (empty_json false) [1] true false))
    (JsonDynamicFlatIterator.init_stats dynamic_initialised) 250.

(** The same batch read on the reader as the constructor left it. *)
Definition dynamic_env_without_init : JsonDynamicFlatIterator.Env :=
  JsonDynamicFlatIterator.mkEnv dynamic_reader 5%N
    (Nullable (mkNullableColumn (empty_json false) [1] true false)) no_stats 250.
End Demo.

(** ** Readers whose sub-iterators can fail *)

Module Probe.
Import Fixture.

(** A sub-iterator as in [Fixture], but broken when [stub_init] is an
    error: then every read and every seek answers that error and changes
    nothing. *)
Definition strict_iterator {A C : Type} (extend : C → list A → C)
  : ColumnIterator (H := externals false) (Stub A) C :=
  let good := stub_iterator false extend in
  {|
    iter_init := iter_init (ColumnIterator := good);
    iter_next_batch := λ it n c,
      match stub_init it with
      | OK => iter_next_batch (ColumnIterator := good) it n c
      | Err e => (Err e, it, n, c)
      end;
    iter_next_batch_range := λ it range c,
      match stub_init it with
      | OK => iter_next_batch_range (ColumnIterator := good) it range c
      | Err e => (Err e, it, c)
      end;
    iter_fetch_values_by_rowid := λ it rowids c,
      match stub_init it with
      | OK => iter_fetch_values_by_rowid (ColumnIterator := good) it rowids c
      | Err e => (Err e, it, c)
      end;
    iter_read_null := λ mode it n,
      match stub_init it with
      | OK => iter_read_null (ColumnIterator := good) mode it n
      | Err e => inr (Err e, it, n)
      end;
    iter_seek_to_first := λ it,
      match stub_init it with
      | OK => iter_seek_to_first (ColumnIterator := good) it
      | Err e => (Err e, it)
      end;
    iter_seek_to_ordinal := λ it ord,
      match stub_init it with
      | OK => iter_seek_to_ordinal (ColumnIterator := good) it ord
      | Err e => (Err e, it)
      end;
    iter_get_current_ordinal := iter_get_current_ordinal (ColumnIterator := good);
    iter_num_rows := iter_num_rows (ColumnIterator := good);
    iter_get_row_ranges_by_zone_map := iter_get_row_ranges_by_zone_map (ColumnIterator := good);
  |}.

#[local] Instance E : Externals := externals false.
#[local] Instance C : Collaborators := collaborators false.
#[local] Instance flat_iterator : ColumnIterator (Stub (option Value)) Column :=
  strict_iterator push_rows.
#[local] Instance null_iterator : ColumnIterator (Stub Z) NullColumn :=
  strict_iterator (λ (c : NullColumn) got, c ++ got).
#[local] Instance json_iterator : ColumnIterator (Stub (option string)) DocColumn :=
  strict_iterator (push_docs false).

Definition io_error : Error := mkError 5 "io error".

(** Three flat fields without a cast; the sub-iterator of the second is
    broken. *)
Definition brittle_reader : JsonFlatColumnIterator.t :=
  JsonFlatColumnIterator.mk (mkColumnReader 3)
    (Some (mkStub [0; 1; 0] 1%nat OK))
    [mkStub [Some (IntVal 7); Some (IntVal 8); Some (IntVal 9)] 1%nat OK;
     mkStub [Some (IntVal 1); Some (IntVal 2); Some (IntVal 3)] 1%nat (Err io_error);
     mkStub [Some (IntVal 4); Some (IntVal 5); Some (IntVal 6)] 1%nat OK]
    ["$.a"; "$.b"; "$.c"]%string
    [TYPE_INT; TYPE_INT; TYPE_INT] [TYPE_INT; TYPE_INT; TYPE_INT]
    [None; None; None] Demo.doc_path [None; None; None].

(** It is asked for two rows into an empty null-wrapped destination. *)
Definition brittle_env : JsonFlatColumnIterator.Env :=
  JsonFlatColumnIterator.mkEnv brittle_reader 2%N Demo.empty_nullable.

(** The same flat fields in working order behind a broken null
    sub-iterator. *)
Definition null_broken_reader : JsonFlatColumnIterator.t :=
  JsonFlatColumnIterator.mk (mkColumnReader 3)
    (Some (mkStub [0; 1; 0] 0%nat (Err io_error)))
    [mkStub [Some (IntVal 7); Some (IntVal 8); Some (IntVal 9)] 0%nat OK]
    ["$.a"]%string [TYPE_INT] [TYPE_INT] [None] Demo.doc_path [None].

Definition null_broken_env : JsonFlatColumnIterator.Env :=
  JsonFlatColumnIterator.mkEnv null_broken_reader 3%N Demo.empty_nullable.

(** A runtime reader over a broken raw-document sub-iterator, and a
    destination that holds one row. *)
Definition broken_dynamic_env : JsonDynamicFlatIterator.Env :=
  JsonDynamicFlatIterator.mkEnv
    (JsonDynamicFlatIterator.new
       (mkStub [Some "{a: 1}"]%string 0%nat (Err io_error))
       ["$.a"]%string [TYPE_INT] Demo.doc_path)
    5%N
    (Nullable (mkNullableColumn (empty_json false) [1] true false))
    Demo.no_stats 250.

End Probe.

(** * Proofs *)

(** ** The monad *)

Section MonadLemmas.
Context {St : Type}.

Lemma bind_done {A B} (m : M St A) (k : A → M St B) s b s' :
  (m ≫= k) s = (Done b, s') ↔ ∃ a s1, m s = (Done a, s1) ∧ k a s1 = (Done b, s').
Proof.
  unfold mbind, M_bind. split.
  - destruct (m s) as [[a|e|f] s1]; intros Hk; try discriminate. eauto.
  - intros (a & s1 & -> & Hk). done.
Qed.

Lemma bind_run {A B} (m : M St A) (k : A → M St B) s a s1 :
  m s = (Done a, s1) → (m ≫= k) s = k a s1.
Proof. unfold mbind, M_bind. by intros ->. Qed.

Lemma at_index_done {A} (v : list A) i (s : St) a s' :
  at_index v i s = (Done a, s') ↔ v !! i = Some a ∧ s' = s.
Proof.
  unfold at_index. destruct (v !! i); unfold mret, M_ret, crash.
  - split; [by intros [= -> ->]|by intros [[= ->] ->]].
  - split; [done|by intros [? _]].
Qed.
End MonadLemmas.

Ltac run_monad :=
  unfold mbind, M_bind, mret, M_ret, get, gets, modify, crash, RETURN_IF_ERROR,
    CHECK, at_index, deref, ASSIGN_OR_RETURN in *; simpl in *.


(** ** The Precomputed-Flat Reader *)

Section FlatReaderFacts.
Import JsonFlatColumnIterator.
Context `{Collaborators} {NI FI : Type}.
Context `{!ColumnIterator NI NullColumn, !ColumnIterator FI Column}.
#[local] Abbreviation t := (JsonFlatColumnIterator.t (NI := NI) (FI := FI)).
#[local] Abbreviation Env := (JsonFlatColumnIterator.Env (NI := NI) (FI := FI)).
#[local] Abbreviation InitState := (JsonFlatColumnIterator.InitState (NI := NI) (FI := FI)).

Lemma json_of_with_json j d : json_of (with_json j d) = j.
Proof. by destruct d. Qed.

Lemma read_fn_of_run mode i c (e : Env) it :
  _flat_iters (self e) !! i = Some it →
  read_fn_of mode i c e
  = (Done ((sub_read mode it (cnt e) c).1.1.1, (sub_read mode it (cnt e) c).2),
     mkEnv (set_flat_iter i (sub_read mode it (cnt e) c).1.1.2 (self e))
           (sub_read mode it (cnt e) c).1.2 (dst e)).
Proof.
  intros Hit. destruct mode; simpl; unfold read_next, read_range, read_rowid;
    run_monad; rewrite Hit; simpl.
  - by destruct (iter_next_batch _ _ _) as [[[? ?] ?] ?].
  - by destruct (iter_next_batch_range _ _ _) as [[? ?] ?].
  - by destruct (iter_fetch_values_by_rowid _ _ _) as [[? ?] ?].
Qed.

Lemma read_fn_of_done mode i c (e : Env) st c' e1 :
  read_fn_of mode i c e = (Done (st, c'), e1) →
  ∃ it, _flat_iters (self e) !! i = Some it
    ∧ st = (sub_read mode it (cnt e) c).1.1.1
    ∧ c' = (sub_read mode it (cnt e) c).2
    ∧ e1 = mkEnv (set_flat_iter i (sub_read mode it (cnt e) c).1.1.2 (self e))
                 (sub_read mode it (cnt e) c).1.2 (dst e).
Proof.
  destruct (_flat_iters (self e) !! i) as [it|] eqn:Hit.
  - rewrite (read_fn_of_run _ _ _ _ it Hit). intros [= <- <- <-]. eauto.
  - destruct mode; simpl; unfold read_next, read_range, read_rowid;
      run_monad; by rewrite Hit.
Qed.

Lemma append_cast_result_done target res source (e : Env) tgt e1 :
  append_cast_result target res source e = (Done tgt, e1) →
  e1 = e ∧ tgt = push_rows target (cast_rows res source).
Proof.
  unfold append_cast_result, cast_rows, append_nulls, append_value_multiple_times,
    append, const_data_column.
  destruct res as [ty rows d|ty [v|] n d]; run_monad.
  - case_decide; [|done]. intros [= <- <-]. by rewrite drop_0.
  - by intros [= <- <-].
  - by intros [= <- <-].
Qed.

Lemma cast_rows_length res source (e : Env) target tgt e1 :
  append_cast_result target res source e = (Done tgt, e1) →
  length (cast_rows res source) = Column_size source.
Proof.
  unfold append_cast_result, cast_rows, append.
  destruct res as [ty rows d|ty [v|] n d]; run_monad;
    rewrite ?length_replicate; try done.
  case_decide; [|done]. intros _. rewrite length_take. lia.
Qed.

Lemma DCHECK_done {St} c (s s' : St) :
  DCHECK c s = (Done tt, s') → s' = s ∧ (NDEBUG = false → c = true).
Proof.
  unfold DCHECK. destruct NDEBUG; run_monad; [naive_solver|].
  destruct c; naive_solver.
Qed.

(** What a round that completes has done. *)
Lemma read_and_cast_step_done mode i chunk (e : Env) chunk' e2 :
  read_and_cast_step (read_fn_of mode) i chunk e = (Done chunk', e2) →
  ∃ it c0 plan,
    _flat_iters (self e) !! i = Some it
    ∧ flat_columns (json_of (dst e)) !! i = Some c0
    ∧ _cast_exprs (self e) !! i = Some plan
    ∧ match plan with
      | None =>
          let sub := sub_read mode it (cnt e) c0 in
          sub.1.1.1 = OK ∧ chunk' = chunk
          ∧ e2 = after_round i sub.1.1.2 sub.1.2 sub.2 e
      | Some expr =>
          ∃ scratch res,
            _source_columns (self e) !! i = Some (Some scratch)
            ∧ let sub := sub_read mode it (cnt e) (clone_empty scratch) in
              let source := sub.2 in
              let target := push_rows (set_delete_state (delete_state source) c0)
                                      (cast_rows res source) in
              sub.1.1.1 = OK
              ∧ chunk' = append_column chunk source i
              ∧ evaluate_checked expr chunk' = inr res
              ∧ length (cast_rows res source) = Column_size source
              ∧ e2 = after_round i sub.1.1.2 sub.1.2 target e
              ∧ (NDEBUG = false →
                 JsonColumn_size (json_of (dst e2)) = Column_size target)
      end.
Proof.
  unfold read_and_cast_step. intros Hrun.
  apply bind_done in Hrun as (e0 & s1 & [= <- <-] & Hrun).
  apply bind_done in Hrun as (plan & s1 & [Hplan ->]%at_index_done & Hrun).
  destruct plan as [expr|].
  - apply bind_done in Hrun as (oscratch & s1 & [Hscr ->]%at_index_done & Hrun).
    apply bind_done in Hrun as (scratch & s1 & Hderef & Hrun).
    destruct oscratch as [sc|]; [|done]. injection Hderef as <- <-.
    apply bind_done in Hrun as ([st source] & s1 & Hread & Hrun).
    apply read_fn_of_done in Hread as (it & Hit & -> & -> & ->).
    apply bind_done in Hrun as ([] & s1 & Hst & Hrun).
    set (sub := sub_read mode it (cnt e) (clone_empty sc)) in *.
    destruct (sub.1.1.1) eqn:Hok; [|done]. injection Hst as <-.
    apply bind_done in Hrun as (res & s1 & Hres & Hrun).
    unfold ASSIGN_OR_RETURN in Hres.
    destruct (evaluate_checked _ _) as [?|res'] eqn:Heval; [done|].
    injection Hres as <- <-.
    apply bind_done in Hrun as (c0 & s1 & Hget & Hrun).
    unfold get_flat_field in Hget.
    apply bind_done in Hget as (? & ? & [= <- <-] & [Hc0 ->]%at_index_done).
    apply bind_done in Hrun as (tgt & s1 & Happ & Hrun).
    pose proof (cast_rows_length _ _ _ _ _ _ Happ) as Hlen.
    apply append_cast_result_done in Happ as [-> ->].
    apply bind_done in Hrun as ([] & s1 & [= <-] & Hrun).
    apply bind_done in Hrun as (? & ? & [= <- <-] & Hrun).
    apply bind_done in Hrun as ([] & s1 & [-> Hcheck]%DCHECK_done & [= <- <-]).
    exists it, c0, (Some expr). simpl in Hc0. repeat split; try done.
    exists sc, res'. repeat split; try done.
    intros Hdebug. specialize (Hcheck Hdebug). by apply bool_decide_eq_true in Hcheck.
  - apply bind_done in Hrun as (c0 & s1 & Hget & Hrun).
    unfold get_flat_field in Hget.
    apply bind_done in Hget as (? & ? & [= <- <-] & [Hc0 ->]%at_index_done).
    apply bind_done in Hrun as ([st c'] & s1 & Hread & Hrun).
    apply read_fn_of_done in Hread as (it & Hit & -> & -> & ->).
    apply bind_done in Hrun as ([] & s1 & [= <-] & Hrun).
    apply bind_done in Hrun as ([] & s1 & Hst & [= <- <-]).
    set (sub := sub_read mode it (cnt e) c0) in *.
    destruct (sub.1.1.1) eqn:Hok; [|done]. injection Hst as <-.
    exists it, c0, None. done.
Qed.

Lemma same_at_refl j (e : Env) : same_at j e e.
Proof. done. Qed.

Lemma same_at_trans j (e1 e2 e3 : Env) : same_at j e1 e2 → same_at j e2 e3 → same_at j e1 e3.
Proof. unfold same_at. intros [? ?] [? ?]. split; congruence. Qed.

Lemma same_plan_refl (e : Env) : same_plan e e.
Proof. done. Qed.

Lemma same_plan_trans (e1 e2 e3 : Env) : same_plan e1 e2 → same_plan e2 e3 → same_plan e1 e3.
Proof.
  unfold same_plan. intros (? & ? & ? & ? & ? & ?) (? & ? & ? & ? & ? & ?).
  repeat split; congruence.
Qed.

Lemma null_of_with_json j d : null_of (with_json j d) = null_of d.
Proof. by destruct d. Qed.

Lemma after_round_same_plan i it' n' c' (e : Env) : same_plan e (after_round i it' n' c' e).
Proof.
  unfold same_plan, after_round. simpl.
  rewrite json_of_with_json, null_of_with_json. simpl.
  by rewrite !length_insert.
Qed.

Lemma after_round_same_at i it' n' c' (e : Env) j :
  j ≠ i → same_at j e (after_round i it' n' c' e).
Proof.
  intros Hne. unfold same_at, after_round. simpl. rewrite json_of_with_json. simpl.
  by rewrite !list_lookup_insert_ne.
Qed.

Lemma after_round_lookup i it' n' c' (e : Env) c0 it :
  flat_columns (json_of (dst e)) !! i = Some c0 →
  _flat_iters (self e) !! i = Some it →
  flat_columns (json_of (dst (after_round i it' n' c' e))) !! i = Some c'
  ∧ _flat_iters (self (after_round i it' n' c' e)) !! i = Some it'.
Proof.
  intros Hc%lookup_lt_Some Hit%lookup_lt_Some. unfold after_round. simpl.
  rewrite json_of_with_json. simpl. by rewrite !list_lookup_insert_eq.
Qed.

Lemma read_and_cast_step_frame mode i chunk (e : Env) chunk' e2 :
  read_and_cast_step (read_fn_of mode) i chunk e = (Done chunk', e2) →
  same_plan e e2 ∧ ∀ j, j ≠ i → same_at j e e2.
Proof.
  intros (it & c0 & plan & Hit & Hc0 & Hplan & Hcase)%read_and_cast_step_done.
  destruct plan as [expr|].
  - destruct Hcase as (scratch & res & _ & _ & _ & _ & _ & -> & _).
    split; [apply after_round_same_plan|]. intros j Hj. by apply after_round_same_at.
  - destruct Hcase as (_ & _ & ->).
    split; [apply after_round_same_plan|]. intros j Hj. by apply after_round_same_at.
Qed.

(** A loop that completes: every round [i] of it completed, in a state
    where the fields and sub-iterators from [i] on were still as at the
    start, and nothing after it touched the fields up to [i]. *)
Lemma read_and_cast_loop_done mode k : ∀ a chunk (e e' : Env),
  read_and_cast_loop (read_fn_of mode) (seq a k) chunk e = (Done tt, e') →
  same_plan e e'
  ∧ (∀ j, (j < a ∨ a + k ≤ j)%nat → same_at j e e')
  ∧ ∀ i, (a ≤ i < a + k)%nat →
      ∃ chunk_i chunk' e1 e2,
        same_plan e e1
        ∧ (∀ j, (i ≤ j)%nat → same_at j e e1)
        ∧ read_and_cast_step (read_fn_of mode) i chunk_i e1 = (Done chunk', e2)
        ∧ same_plan e2 e'
        ∧ (∀ j, (j ≤ i)%nat → same_at j e2 e').
Proof.
  induction k as [|k IH]; intros a chunk e e' Hrun; simpl in Hrun.
  - injection Hrun as <-. split_and!; try done. intros i Hi. lia.
  - apply bind_done in Hrun as (chunk1 & em & Hstep & Hrest).
    pose proof (read_and_cast_step_frame _ _ _ _ _ _ Hstep) as [Hplan Hframe].
    apply IH in Hrest as (Hplan' & Hframe' & Hrounds).
    split; [by eapply same_plan_trans|]. split.
    + intros j Hj. eapply same_at_trans; [apply Hframe|apply Hframe']; lia.
    + intros i Hi. destruct (decide (i = a)) as [->|Hne].
      * exists chunk, chunk1, e, em. split_and!; try done.
        intros j Hj. apply Hframe'. lia.
      * destruct (Hrounds i) as (chunk_i & chunk' & e1 & e2 & Hp1 & Hf1 & Hs & Hp2 & Hf2);
          [lia|].
        exists chunk_i, chunk', e1, e2. split_and!; try done.
        -- by eapply same_plan_trans.
        -- intros j Hj. eapply same_at_trans; [apply Hframe|apply Hf1]; lia.
Qed.

Lemma down_cast_nullable_done {St} (d : DocColumn) (s s' : St) nc :
  down_cast_nullable d s = (Done nc, s') ↔ d = Nullable nc ∧ s' = s.
Proof.
  unfold down_cast_nullable. destruct d; run_monad; [|naive_solver].
  split; [by intros [= -> ->]|by intros [[= ->] ->]].
Qed.

Lemma down_cast_json_done {St} (d : DocColumn) (s s' : St) jc :
  down_cast_json d s = (Done jc, s') ↔ d = Json jc ∧ s' = s.
Proof.
  unfold down_cast_json. destruct d; run_monad; [naive_solver|].
  split; [by intros [= -> ->]|by intros [[= ->] ->]].
Qed.

Lemma read_null_column_done mode it null_column (e e0 : Env) :
  read_null_column it null_column (sub_read mode it (cnt e))
                   (sub_read_null mode it (cnt e)) e = (Done tt, e0) →
  _null_iter (self e) = Some it →
  null_column = null_of (dst e) →
  null_phase mode e e0.
Proof.
  intros Hrun Hit ->. unfold read_null_column in Hrun.
  apply bind_done in Hrun as ([[[st it'] n'] nulls'] & s1 & Hread & Hrun).
  apply bind_done in Hrun as ([] & s2 & [= <-] & Hrun).
  apply bind_done in Hrun as ([] & s3 & Hst & Hrun).
  destruct st; [|done]. injection Hst as <-.
  apply bind_done in Hrun as (? & ? & [= <- <-] & Hrun).
  apply bind_done in Hrun as (d & ? & Hd & [= <-]).
  unfold doc_update_has_null in Hd.
  apply bind_done in Hd as (nc' & ? & [Hnc' ->]%down_cast_nullable_done & [= <-]).
  simpl in Hnc'.
  destruct (dst e) as [nc|jc] eqn:Hdst; simpl in Hread.
  - destruct (sub_read mode it (cnt e) (null_column nc)) as [[[st it''] n''] nulls''] eqn:Hsub.
    injection Hread as -> <- <- <- <-. rewrite Hdst in Hnc'. simpl in Hnc'.
    injection Hnc' as <-. subst.
    unfold null_phase. rewrite Hit, Hdst. simpl. split_and!; try done.
    exists nc. by rewrite Hsub.
  - destruct (sub_read_null mode it (cnt e)) as [f|[[st it''] n'']]; [done|].
    injection Hread as -> <- <- <- <-. by rewrite Hdst in Hnc'.
Qed.

Lemma null_phase_none mode (e : Env) : _null_iter (self e) = None → null_phase mode e e.
Proof. intros Hnone. unfold null_phase. by rewrite Hnone. Qed.

(** A batch read that completes is a null phase followed by
    [_read_and_cast]. *)
Lemma batch_read_done mode (e e' : Env) :
  batch_read mode e = (Done tt, e') →
  ∃ e0, null_phase mode e e0
    ∧ read_and_cast_loop (read_fn_of mode) (seq 0 (length (_flat_iters (self e0)))) []
                         (with_flat_storage e0) = (Done tt, e').
Proof.
  intros Hrun.
  assert (∃ e0, null_phase mode e e0
                ∧ _read_and_cast (read_fn_of mode) e0 = (Done tt, e')) as (e0 & Hnull & Hcast).
  { destruct mode as [|range|rowids]; simpl in Hrun.
    - unfold next_batch in Hrun.
      apply bind_done in Hrun as (? & ? & [= <- <-] & Hrun).
      apply bind_done in Hrun as ([] & e0 & Hnull & Hrun). exists e0. split; [|done].
      destruct (_null_iter (self e)) as [it|] eqn:Hit.
      + by eapply (read_null_column_done NextN).
      + injection Hnull as <-. by apply null_phase_none.
    - unfold next_batch_range in Hrun.
      apply bind_done in Hrun as (? & ? & [= <- <-] & Hrun).
      apply bind_done in Hrun as ([] & ? & Hcheck & Hrun).
      unfold CHECK in Hcheck. case_bool_decide; [|done]. injection Hcheck as <-.
      apply bind_done in Hrun as ([] & e0 & Hnull & Hrun). exists e0. split; [|done].
      destruct (_null_iter (self e)) as [it|] eqn:Hit.
      + by eapply (read_null_column_done (ByRange range)).
      + injection Hnull as <-. by apply null_phase_none.
    - unfold fetch_values_by_rowid in Hrun.
      apply bind_done in Hrun as (? & ? & [= <- <-] & Hrun).
      apply bind_done in Hrun as ([] & e0 & Hnull & Hrun). exists e0. split; [|done].
      destruct (_null_iter (self e)) as [it|] eqn:Hit.
      + apply bind_done in Hnull as (nc & ? & Hcast & Hnull).
        destruct (dst e) as [nc'|] eqn:Hdst; [|done]. injection Hcast as <- <-.
        eapply (read_null_column_done (ByRowid rowids)); [done..|by rewrite Hdst].
      + apply bind_done in Hnull as (? & ? & Hcast & [= <-]).
        destruct (dst e); [done|]. injection Hcast as _ <-.
        by apply null_phase_none. }
  exists e0. split; [done|].
  unfold _read_and_cast in Hcast.
  apply bind_done in Hcast as (? & ? & [= <- <-] & Hcast).
  by apply bind_done in Hcast as ([] & ? & [= <-] & Hcast).
Qed.

(** The round for flat field [i] within a batch read that completes. *)
Lemma batch_read_round mode (e e' : Env) i :
  batch_read mode e = (Done tt, e') →
  (i < length (_flat_iters (self e)))%nat →
  ∃ chunk chunk' (e1 e2 : Env),
    _cast_exprs (self e1) = _cast_exprs (self e)
    ∧ _source_columns (self e1) = _source_columns (self e)
    ∧ _flat_iters (self e1) !! i = _flat_iters (self e) !! i
    ∧ flat_columns (json_of (dst e1)) !! i
      = flat_columns (init_flat_columns (_flat_paths (self e)) (_target_types (self e))
                                        (json_of (dst e))) !! i
    ∧ read_and_cast_step (read_fn_of mode) i chunk e1 = (Done chunk', e2)
    ∧ (∀ j, (j ≤ i)%nat →
            flat_columns (json_of (dst e')) !! j = flat_columns (json_of (dst e2)) !! j).
Proof.
  intros (e0 & Hnull & Hloop)%batch_read_done Hi.
  destruct Hnull as (Hiters & Hplan & Hsrc & Hpaths & Htypes & Hjson & _).
  apply read_and_cast_loop_done in Hloop as (_ & _ & Hrounds).
  destruct (Hrounds i) as (chunk & chunk' & e1 & e2 & Hp1 & Hf1 & Hstep & _ & Hf2).
  { rewrite Hiters. lia. }
  exists chunk, chunk', e1, e2.
  destruct Hp1 as (Hp1 & Hs1 & _). destruct (Hf1 i) as [Hfield Hiter]; [lia|].
  unfold with_flat_storage in *. simpl in *. rewrite json_of_with_json in Hfield.
  split_and!; try congruence.
  intros j Hj. by destruct (Hf2 j Hj).
Qed.

(** The count each round of the loop is entered with: the one the round
    before left behind [n]. *)
Lemma read_and_cast_loop_counts mode (e : Env) k : ∀ a chunk (e1 e' : Env),
  read_and_cast_loop (read_fn_of mode) (seq a k) chunk e1 = (Done tt, e') →
  _cast_exprs (self e1) = _cast_exprs (self e) →
  _source_columns (self e1) = _source_columns (self e) →
  (∀ j, (a ≤ j)%nat →
        flat_columns (json_of (dst e1)) !! j
        = flat_columns (init_flat_columns (_flat_paths (self e)) (_target_types (self e))
                                          (json_of (dst e))) !! j
        ∧ _flat_iters (self e1) !! j = _flat_iters (self e) !! j) →
  cnt e1 = count_at mode e a →
  ∀ i, (a ≤ i < a + k)%nat →
    ∃ chunk_i chunk' (ei e2 : Env),
      _cast_exprs (self ei) = _cast_exprs (self e)
      ∧ flat_columns (json_of (dst ei)) !! i
        = flat_columns (init_flat_columns (_flat_paths (self e)) (_target_types (self e))
                                          (json_of (dst e))) !! i
      ∧ _flat_iters (self ei) !! i = _flat_iters (self e) !! i
      ∧ cnt ei = count_at mode e i
      ∧ read_and_cast_step (read_fn_of mode) i chunk_i ei = (Done chunk', e2)
      ∧ (∀ j, (j ≤ i)%nat →
              flat_columns (json_of (dst e')) !! j = flat_columns (json_of (dst e2)) !! j).
Proof.
  induction k as [|k IH]; intros a chunk e1 e' Hrun Hplan Hsrc Hfresh Hcnt i Hi; [lia|].
  simpl in Hrun. apply bind_done in Hrun as (chunk1 & em & Hstep & Hrest).
  destruct (decide (i = a)) as [->|Hne].
  - exists chunk, chunk1, e1, em. destruct (Hfresh a) as [Hc Hit]; [lia|].
    split_and!; try done.
    apply read_and_cast_loop_done in Hrest as (_ & Hframe & _).
    intros j Hj. destruct (Hframe j) as [Hsame _]; [lia|]. done.
  - pose proof (read_and_cast_step_frame _ _ _ _ _ _ Hstep) as [Hp Hframe].
    destruct Hp as (Hp1 & Hp2 & _).
    apply (IH (S a) chunk1 em e' Hrest); [congruence|congruence| | |lia].
    + intros j Hj. destruct (Hframe j) as [Hc Hit]; [lia|].
      destruct (Hfresh j) as [Hc0 Hit0]; [lia|]. split; congruence.
    + destruct (Hfresh a) as [Hc0 Hit0]; [lia|].
      apply read_and_cast_step_done in Hstep
        as (it & c0 & plan & Hit & Hc & Hplan1 & Hcase).
      simpl. rewrite <- Hit0, Hit. unfold round_column.
      rewrite <- Hplan, Hplan1, <- Hcnt.
      destruct plan as [expr|].
      * destruct Hcase as (scratch & res & Hscr & _ & _ & _ & _ & -> & _).
        by rewrite <- Hsrc, Hscr.
      * destruct Hcase as (_ & _ & ->). by rewrite <- Hc0, Hc.
Qed.

Lemma null_phase_count mode (e e0 : Env) :
  null_phase mode e e0 → cnt e0 = count_after_null mode e.
Proof.
  intros (_ & _ & _ & _ & _ & _ & Hnull). unfold count_after_null.
  destruct (_null_iter (self e)) as [it|]; [|by subst].
  destruct Hnull as (nc & -> & _ & Hcnt & _). done.
Qed.

(** The round for flat field [i] within a batch read that completes,
    with the count it is entered with. *)
Lemma batch_read_round_count mode (e e' : Env) i :
  batch_read mode e = (Done tt, e') →
  (i < length (_flat_iters (self e)))%nat →
  ∃ chunk chunk' (e1 e2 : Env),
    _cast_exprs (self e1) = _cast_exprs (self e)
    ∧ flat_columns (json_of (dst e1)) !! i
      = flat_columns (init_flat_columns (_flat_paths (self e)) (_target_types (self e))
                                        (json_of (dst e))) !! i
    ∧ _flat_iters (self e1) !! i = _flat_iters (self e) !! i
    ∧ cnt e1 = count_at mode e i
    ∧ read_and_cast_step (read_fn_of mode) i chunk e1 = (Done chunk', e2)
    ∧ (∀ j, (j ≤ i)%nat →
            flat_columns (json_of (dst e')) !! j = flat_columns (json_of (dst e2)) !! j).
Proof.
  intros (e0 & Hnull & Hloop)%batch_read_done Hi.
  pose proof (null_phase_count _ _ _ Hnull) as Hcnt.
  destruct Hnull as (Hiters & Hplan & Hsrc & Hpaths & Htypes & Hjson & _).
  apply (read_and_cast_loop_counts mode e _ 0 [] _ _ Hloop); simpl;
    [done|done| |done|rewrite Hiters; lia].
  intros j _. rewrite json_of_with_json. split; congruence.
Qed.

(** A flat field without a cast holds what its sub-iterator wrote into
    it when it was called with the count the call before it left. *)
Lemma no_cast_field_read_with_count mode (e e' : Env) i :
  batch_read mode e = (Done tt, e') →
  (i < length (_flat_iters (self e)))%nat →
  _cast_exprs (self e) !! i = Some None →
  ∃ it c0,
    _flat_iters (self e) !! i = Some it
    ∧ flat_columns (init_flat_columns (_flat_paths (self e)) (_target_types (self e))
                                      (json_of (dst e))) !! i = Some c0
    ∧ (sub_read mode it (count_at mode e i) c0).1.1.1 = OK
    ∧ flat_columns (json_of (dst e')) !! i
      = Some (sub_read mode it (count_at mode e i) c0).2.
Proof.
  intros Hrun Hi Hplan.
  destruct (batch_read_round_count _ _ _ _ Hrun Hi)
    as (chunk & chunk' & e1 & e2 & Hp & Hfield & Hiter & Hcnt & Hstep & Hframe).
  apply read_and_cast_step_done in Hstep
    as (it & c0 & plan & Hit & Hc0 & Hplan1 & Hcase).
  rewrite Hp, Hplan in Hplan1. injection Hplan1 as <-.
  destruct Hcase as (Hok & _ & ->). rewrite Hcnt in *.
  exists it, c0. split_and!; try congruence.
  rewrite Hframe by lia. by eapply after_round_lookup.
Qed.

Lemma Column_size_rows (c : Column) : Column_size c = length (Column_rows c).
Proof. destruct c; simpl; by rewrite ?length_replicate. Qed.

Lemma Column_size_push_rows (c : Column) new :
  Column_size (push_rows c new) = (Column_size c + length new)%nat.
Proof. unfold push_rows. simpl. by rewrite length_app, Column_size_rows. Qed.

Lemma Column_size_set_delete_state d (c : Column) :
  Column_size (set_delete_state d c) = Column_size c.
Proof. by destruct c. Qed.

Lemma Column_rows_set_delete_state d (c : Column) :
  Column_rows (set_delete_state d c) = Column_rows c.
Proof. by destruct c. Qed.

Lemma JsonColumn_size_lookup (j j' : JsonColumn) c :
  flat_columns j !! 0%nat = Some c →
  flat_columns j' !! 0%nat = flat_columns j !! 0%nat →
  JsonColumn_size j' = JsonColumn_size j.
Proof.
  unfold JsonColumn_size. intros Hc Heq. rewrite Hc in Heq.
  destruct (flat_columns j), (flat_columns j'); simplify_eq/=. done.
Qed.

(** A flat field with a cast: what was read, what the cast gave, and
    what the field holds then. *)
Lemma cast_field_appended mode (e e' : Env) i expr :
  batch_read mode e = (Done tt, e') →
  (i < length (_flat_iters (self e)))%nat →
  _cast_exprs (self e) !! i = Some (Some expr) →
  ∃ it n c0 scratch chunk res,
    _flat_iters (self e) !! i = Some it
    ∧ flat_columns (init_flat_columns (_flat_paths (self e)) (_target_types (self e))
                                      (json_of (dst e))) !! i = Some c0
    ∧ _source_columns (self e) !! i = Some (Some scratch)
    ∧ let sub := sub_read mode it n (clone_empty scratch) in
      let source := sub.2 in
      let target := push_rows (set_delete_state (delete_state source) c0)
                              (cast_rows res source) in
      sub.1.1.1 = OK
      ∧ evaluate_checked expr (append_column chunk source i) = inr res
      ∧ length (cast_rows res source) = Column_size source
      ∧ flat_columns (json_of (dst e')) !! i = Some target
      ∧ (NDEBUG = false → JsonColumn_size (json_of (dst e')) = Column_size target).
Proof.
  intros Hrun Hi Hplan.
  destruct (batch_read_round _ _ _ _ Hrun Hi)
    as (chunk & chunk' & e1 & e2 & Hp & Hs & Hiter & Hfield & Hstep & Hframe).
  apply read_and_cast_step_done in Hstep
    as (it & c0 & plan & Hit & Hc0 & Hplan1 & Hcase).
  rewrite Hp, Hplan in Hplan1. injection Hplan1 as <-.
  destruct Hcase as (scratch & res & Hscr & Hok & -> & Heval & Hlen & -> & Hcheck).
  exists it, (cnt e1), c0, scratch, chunk, res. cbv zeta in *.
  pose proof (after_round_lookup i (sub_read mode it (cnt e1) (clone_empty scratch)).1.1.2
                (sub_read mode it (cnt e1) (clone_empty scratch)).1.2
                (push_rows (set_delete_state
                              (delete_state (sub_read mode it (cnt e1) (clone_empty scratch)).2) c0)
                           (cast_rows res (sub_read mode it (cnt e1) (clone_empty scratch)).2))
                e1 c0 it Hc0 Hit) as [Hnew _].
  split_and!; try congruence.
  - rewrite Hframe by lia. done.
  - intros Hdebug. rewrite <- (Hcheck Hdebug).
    assert (is_Some (flat_columns (json_of (dst (after_round i
              (sub_read mode it (cnt e1) (clone_empty scratch)).1.1.2
              (sub_read mode it (cnt e1) (clone_empty scratch)).1.2
              (push_rows (set_delete_state
                            (delete_state (sub_read mode it (cnt e1) (clone_empty scratch)).2) c0)
                         (cast_rows res (sub_read mode it (cnt e1) (clone_empty scratch)).2))
              e1))) !! 0%nat)) as [c Hc].
    { apply lookup_lt_is_Some. apply lookup_lt_Some in Hnew. lia. }
    eapply JsonColumn_size_lookup; [done|]. apply Hframe. lia.
Qed.

Lemma Column_size_clone_empty (c : Column) : Column_size (clone_empty c) = 0%nat.
Proof. done. Qed.

Lemma read_and_cast_loop_lockstep mode (counts : N → Prop) rows s0 k :
  ∀ a chunk (e e' : Env),
    read_and_cast_loop (read_fn_of mode) (seq a k) chunk e = (Done tt, e') →
    counts (cnt e) →
    (∀ i it, (a ≤ i < a + k)%nat → _flat_iters (self e) !! i = Some it →
             delivers mode counts rows it) →
    (∀ i c, (a ≤ i < a + k)%nat → flat_columns (json_of (dst e)) !! i = Some c →
            Column_size c = s0) →
    ∀ i, (a ≤ i < a + k)%nat →
         ∃ c, flat_columns (json_of (dst e')) !! i = Some c
           ∧ Column_size c = (s0 + rows)%nat.
Proof.
  induction k as [|k IH]; intros a chunk e e' Hrun Hcnt Hiters Hsizes i Hi; [lia|].
  simpl in Hrun. apply bind_done in Hrun as (chunk1 & em & Hstep & Hrest).
  pose proof (read_and_cast_step_frame _ _ _ _ _ _ Hstep) as [_ Hframe].
  assert (counts (cnt em)
          ∧ ∃ c, flat_columns (json_of (dst em)) !! a = Some c
              ∧ Column_size c = (s0 + rows)%nat) as (Hcnt' & c & Hc & Hsize).
  { apply read_and_cast_step_done in Hstep
      as (it & c0 & plan & Hit & Hc0 & Hplan & Hcase).
    pose proof (Hiters a it ltac:(lia) Hit) as Hdel.
    pose proof (Hsizes a c0 ltac:(lia) Hc0) as Hs0.
    destruct plan as [expr|].
    - destruct Hcase as (scratch & res & _ & Hok & _ & _ & Hlen & -> & _).
      destruct (Hdel (cnt e) (clone_empty scratch) Hcnt Hok) as [Hsrc Hn].
      split; [done|]. eexists. split; [by eapply after_round_lookup|].
      rewrite Column_size_push_rows, Column_size_set_delete_state, Hlen, Hsrc.
      rewrite Column_size_clone_empty. lia.
    - destruct Hcase as (Hok & _ & ->).
      destruct (Hdel (cnt e) c0 Hcnt Hok) as [Hsrc Hn].
      split; [done|]. eexists. split; [by eapply after_round_lookup|]. lia. }
  destruct (decide (i = a)) as [->|Hne].
  - apply read_and_cast_loop_done in Hrest as (_ & Hframe' & _).
    exists c. split; [|done]. destruct (Hframe' a) as [-> _]; [lia|done].
  - eapply (IH (S a)); [done..| | |lia].
    + intros j it Hj Hit. destruct (Hframe j) as [_ Hsame]; [lia|].
      apply (Hiters j); [lia|congruence].
    + intros j cj Hj Hcj. destruct (Hframe j) as [Hsame _]; [lia|].
      apply (Hsizes j); [lia|congruence].
Qed.

(** Lock-step sub-iterators give equal row counts. *)
Lemma batch_read_lockstep mode (counts : N → Prop) rows s0 (e e' : Env) :
  batch_read mode e = (Done tt, e') →
  lock_step mode counts rows s0 e →
  (∀ i, (i < length (_flat_iters (self e)))%nat →
        ∃ c, flat_columns (json_of (dst e')) !! i = Some c
          ∧ Column_size c = (s0 + rows)%nat)
  ∧ (_flat_iters (self e) ≠ [] → JsonColumn_size (json_of (dst e')) = (s0 + rows)%nat)
  ∧ (is_Some (_null_iter (self e)) →
     ∃ nc', dst e' = Nullable nc' ∧ length (null_column nc') = (s0 + rows)%nat).
Proof.
  intros (e0 & Hnull & Hloop)%batch_read_done (Hnit & Hiters & Hsizes & Hnsize).
  destruct Hnull as (Hit0 & _ & _ & Hpaths & Htypes & Hjson & Hnull).
  assert (counts (cnt e0)) as Hcnt.
  { destruct (_null_iter (self e)) as [nit|].
    - destruct Hnull as (nc & _ & Hok & -> & _). by apply Hnit.
    - by subst e0. }
  assert (∀ i, (i < length (_flat_iters (self e)))%nat →
               ∃ c, flat_columns (json_of (dst e')) !! i = Some c
                 ∧ Column_size c = (s0 + rows)%nat) as Hfields.
  { intros i Hi.
    eapply (read_and_cast_loop_lockstep mode counts rows s0); [exact Hloop|done| | |].
    - intros j it _ Hj. simpl in Hj. rewrite Hit0 in Hj. by eapply Hiters.
    - intros j c _ Hc. unfold with_flat_storage in Hc. simpl in Hc.
      rewrite json_of_with_json, Hpaths, Htypes, Hjson in Hc. by eapply Hsizes.
    - rewrite Hit0. lia. }
  split_and!; [done| |].
  - intros Hne. destruct (Hfields 0%nat) as (c & Hc & Hsize).
    { destruct (_flat_iters (self e)); [done|simpl; lia]. }
    unfold JsonColumn_size. by destruct (flat_columns (json_of (dst e'))); simplify_eq/=.
  - intros [nit Hsome]. rewrite Hsome in Hnull, Hnit.
    destruct Hnull as (nc & Hdst & Hok & _ & Hnulls).
    destruct (Hnit (null_column nc) Hok) as [Hlen _].
    apply read_and_cast_loop_done in Hloop as ((_ & _ & _ & _ & _ & Hnull') & _).
    unfold with_flat_storage in Hnull'. simpl in Hnull'.
    rewrite null_of_with_json, Hnulls in Hnull'.
    destruct (dst e') as [nc'|]; [|done]. injection Hnull' as Hnull'.
    exists nc'. split; [done|]. rewrite Hnull', Hlen, (Hnsize nc Hdst). done.
Qed.

Lemma init_null_iter_plan opts (s s' : InitState) o :
  init_null_iter opts s = (o, s') → plan_of (init_self s') = plan_of (init_self s).
Proof.
  unfold init_null_iter, plan_of. run_monad. destruct (_null_iter (init_self s)) as [it|].
  - destruct (iter_init it opts (init_stats s)) as [[[|er] it'] stats'];
      simpl; intros ?; simplify_eq; reflexivity.
  - intros ?; simplify_eq; reflexivity.
Qed.


Lemma init_flat_iter_plan opts i (s s' : InitState) o :
  init_flat_iter opts i s = (o, s') → plan_of (init_self s') = plan_of (init_self s).
Proof.
  unfold init_flat_iter, plan_of. run_monad.
  destruct (_flat_iters (init_self s) !! i) as [it|]; simpl.
  - destruct (iter_init it opts (init_stats s)) as [[[|er] it'] stats'];
      simpl; intros ?; simplify_eq; reflexivity.
  - intros ?; simplify_eq; reflexivity.
Qed.


Lemma init_flat_iters_plan opts idxs : ∀ (s s' : InitState) o,
  for_each idxs (init_flat_iter opts) s = (o, s') →
  plan_of (init_self s') = plan_of (init_self s).
Proof.
  induction idxs as [|i idxs IH]; intros s s' o; simpl.
  - by intros [= <- <-].
  - unfold mbind, M_bind at 1.
    destruct (init_flat_iter opts i s) as [[[]|er|f] sm] eqn:Hstep;
      apply init_flat_iter_plan in Hstep.
    + intros Hrest%IH. congruence.
    + intros [= <- <-]. done.
    + intros [= <- <-]. done.
Qed.

Lemma update_stats_plan (s s' : InitState) o :
  update_stats s = (o, s') → plan_of (init_self s') = plan_of (init_self s).
Proof.
  unfold update_stats, plan_of. run_monad.
  destruct (_path (init_self s)); run_monad; intros ?; simplify_eq; reflexivity.
Qed.

Lemma build_cast_plan_loop k : ∀ a (s s' : InitState),
  for_each (seq a k) build_cast_plan s = (Done tt, s') →
  _target_types (init_self s') = _target_types (init_self s)
  ∧ _source_types (init_self s') = _source_types (init_self s)
  ∧ ∃ es cs,
      _cast_exprs (init_self s') = _cast_exprs (init_self s) ++ es
      ∧ _source_columns (init_self s') = _source_columns (init_self s) ++ cs
      ∧ length es = k ∧ length cs = k
      ∧ ∀ j ty, _target_types (init_self s) !! (a + j)%nat = Some ty →
                _source_types (init_self s) !! (a + j)%nat = Some ty →
                (j < k)%nat →
                es !! j = Some None ∧ cs !! j = Some None.
Proof.
  induction k as [|k IH]; intros a s s' Hrun; simpl in Hrun.
  - injection Hrun as <-. split_and!; try done. exists [], [].
    rewrite !app_nil_r. split_and!; try done. intros; lia.
  - apply bind_done in Hrun as ([] & sm & Hstep & Hrest).
    unfold build_cast_plan in Hstep.
    apply bind_done in Hstep as (? & ? & [= <- <-] & Hstep).
    apply bind_done in Hstep as (target & ? & [Htgt ->]%at_index_done & Hstep).
    apply bind_done in Hstep as (source & ? & [Hsrc ->]%at_index_done & Hstep).
    apply IH in Hrest as (Ht & Hs & es & cs & Hes & Hcs & Hles & Hlcs & Hentries).
    assert (∃ e c, sm = on_self (push_cast_plan e c) s
                   ∧ (target = source → e = None ∧ c = None)) as (e0 & c0 & -> & Hnone).
    { case_decide; injection Hstep as <-.
      - eexists _, _. split; [done|]. done.
      - eexists _, _. split; [done|]. done. }
    simpl in *. split_and!; try done.
    exists (e0 :: es), (c0 :: cs). rewrite Hes, Hcs, <- !app_assoc. simpl.
    split_and!; try done; try lia.
    intros [|j] ty Hty1 Hty2 Hj.
    + rewrite Nat.add_0_r in Hty1, Hty2. simpl.
      destruct Hnone as [-> ->]; [congruence|done].
    + simpl. apply (Hentries j ty); [| |lia].
      * replace (S (a + j))%nat with (a + S j)%nat by lia. exact Hty1.
      * replace (S (a + j))%nat with (a + S j)%nat by lia. exact Hty2.
Qed.

(** [init], when it completes, has added one entry per target type to
    the cast plan, null wherever the target type is the source type. *)
Lemma init_cast_plan opts (s s1 : InitState) :
  init opts s = (Done tt, s1) →
  ∃ es cs,
    _cast_exprs (init_self s1) = _cast_exprs (init_self s) ++ es
    ∧ _source_columns (init_self s1) = _source_columns (init_self s) ++ cs
    ∧ length es = length (_target_types (init_self s))
    ∧ length cs = length (_target_types (init_self s))
    ∧ ∀ i ty, _target_types (init_self s) !! i = Some ty →
              _source_types (init_self s) !! i = Some ty →
              es !! i = Some None ∧ cs !! i = Some None.
Proof.
  unfold init. intros Hrun.
  apply bind_done in Hrun as ([] & ? & [= <-] & Hrun).
  apply bind_done in Hrun as ([] & s2 & Hnull%init_null_iter_plan & Hrun).
  apply bind_done in Hrun as (? & ? & [= <- <-] & Hrun).
  apply bind_done in Hrun as ([] & s3 & Hflat%init_flat_iters_plan & Hrun).
  apply bind_done in Hrun as (? & ? & [= <- <-] & Hrun).
  apply bind_done in Hrun as ([] & ? & [-> _]%DCHECK_done & Hrun).
  apply bind_done in Hrun as ([] & s4 & Hstats%update_stats_plan & Hrun).
  apply bind_done in Hrun as ([] & ? & [-> _]%DCHECK_done & Hrun).
  apply bind_done in Hrun as ([] & s5 & Hplan & [= <-]).
  assert (plan_of (init_self s4) = plan_of (init_self s)) as Heq by congruence.
  assert (_target_types (init_self s3) = _target_types (init_self s)) as Hlen.
  { unfold plan_of in *. congruence. }
  rewrite Hlen in Hplan. unfold plan_of in Heq. injection Heq as Ht Hs He Hc.
  apply build_cast_plan_loop in Hplan as (_ & _ & es & cs & Hes & Hcs & Hles & Hlcs & Hent).
  exists es, cs. rewrite He in Hes. rewrite Hc in Hcs. split_and!; try done.
  intros i ty Hty1 Hty2. apply (Hent i ty); simpl; [congruence..|].
  apply lookup_lt_Some in Hty1. lia.
Qed.

(** *** The claims about the Precomputed-Flat Reader *)

(** C1, as the code has it.  After a batch read that completes: in a
    build with the debug assertions, every flat field that needed a
    cast has the row count of the document sub-column (the assertion
    sits in the cast branch, a mismatch there is fatal); and when the
    sub-iterators work in lock step ([lock_step]: the null and the flat
    sub-iterators all deliver [rows] rows, into sub-columns that all
    hold [s0] rows) every flat field, the document sub-column and the
    null sub-column hold [s0 + rows] rows.  Nothing checks the fields
    without a cast or the null sub-column. *)
Theorem batch_read_row_counts mode (counts : N → Prop) rows s0 (e e' : Env) :
  batch_read mode e = (Done tt, e') →
  (NDEBUG = false →
   ∀ i expr, (i < length (_flat_iters (self e)))%nat →
             _cast_exprs (self e) !! i = Some (Some expr) →
             ∃ c, flat_columns (json_of (dst e')) !! i = Some c
               ∧ Column_size c = JsonColumn_size (json_of (dst e')))
  ∧ (lock_step mode counts rows s0 e →
     (∀ i, (i < length (_flat_iters (self e)))%nat →
           ∃ c, flat_columns (json_of (dst e')) !! i = Some c
             ∧ Column_size c = (s0 + rows)%nat)
     ∧ (_flat_iters (self e) ≠ [] →
        JsonColumn_size (json_of (dst e')) = (s0 + rows)%nat)
     ∧ (is_Some (_null_iter (self e)) →
        ∃ nc', dst e' = Nullable nc'
          ∧ length (null_column nc') = (s0 + rows)%nat)).
Proof.
  intros Hrun. split.
  - intros Hdebug i expr Hi Hplan.
    destruct (cast_field_appended _ _ _ _ _ Hrun Hi Hplan)
      as (it & n & c0 & scratch & chunk & res & _ & _ & _ & _ & _ & _ & Hfield & Hcheck).
    eexists. split; [exact Hfield|]. symmetry. by apply Hcheck.
  - intros Hlock. by eapply batch_read_lockstep.
Qed.

(** C2.  Where the target type of a flat field is its source type,
    [init] puts a null entry into the cast plan (no cast expression, no
    scratch column), and a batch read of a reader with that plan leaves
    in the flat field exactly the column the backing sub-iterator
    returns when it reads into that field: sub-iterator [it] of the
    field, called in the mode of the batch read, with the count the
    request of the batch has become when the turn of the field comes
    ([count_at]: the count is behind a pointer that all the calls of the
    batch share), on the field [c0] as [init_flat_columns] left it. *)
Theorem same_type_field_is_read_directly reader null_iter field_iters flat_paths
    target_types source_types path opts stats (s1 : InitState) i ty :
  init opts (mkInit (new reader null_iter field_iters flat_paths target_types
                         source_types path) stats) = (Done tt, s1) →
  target_types !! i = Some ty →
  source_types !! i = Some ty →
  _cast_exprs (init_self s1) !! i = Some None
  ∧ _source_columns (init_self s1) !! i = Some None
  ∧ ∀ mode (e e' : Env),
      _cast_exprs (self e) = _cast_exprs (init_self s1) →
      (i < length (_flat_iters (self e)))%nat →
      batch_read mode e = (Done tt, e') →
      ∃ it c0,
        _flat_iters (self e) !! i = Some it
        ∧ flat_columns (init_flat_columns (_flat_paths (self e)) (_target_types (self e))
                                          (json_of (dst e))) !! i = Some c0
        ∧ (sub_read mode it (count_at mode e i) c0).1.1.1 = OK
        ∧ flat_columns (json_of (dst e')) !! i
          = Some (sub_read mode it (count_at mode e i) c0).2.
Proof.
  intros Hinit Htarget Hsource.
  apply init_cast_plan in Hinit as (es & cs & Hes & Hcs & _ & _ & Hentries).
  simpl in Hes, Hcs, Hentries.
  destruct (Hentries i ty Htarget Hsource) as [He Hc].
  rewrite Hes, Hcs. split_and!; try done.
  intros mode e e' Hplan Hi Hrun.
  apply no_cast_field_read_with_count; [done..|]. by rewrite Hplan.
Qed.

(** C3.  For a flat field with a cast, in a batch read that completes:
    [source] is what sub-iterator [it] read into the empty clone of the
    scratch column and [res] what the cast made of it.  When [res] is a
    constant column, the flat field ends as it was ([c0]) followed by
    the one value [v] of the constant, once per row of [source]. *)
Theorem constant_cast_result_is_repeated mode (e e' : Env) i expr :
  batch_read mode e = (Done tt, e') →
  (i < length (_flat_iters (self e)))%nat →
  _cast_exprs (self e) !! i = Some (Some expr) →
  ∃ it n c0 scratch chunk res,
    _flat_iters (self e) !! i = Some it
    ∧ flat_columns (init_flat_columns (_flat_paths (self e)) (_target_types (self e))
                                      (json_of (dst e))) !! i = Some c0
    ∧ _source_columns (self e) !! i = Some (Some scratch)
    ∧ let sub := sub_read mode it n (clone_empty scratch) in
      let source := sub.2 in
      sub.1.1.1 = OK
      ∧ evaluate_checked expr (append_column chunk source i) = inr res
      ∧ (is_constant res = true →
         ∃ v c, Column_rows (const_data_column res) = [v]
           ∧ flat_columns (json_of (dst e')) !! i = Some c
           ∧ Column_rows c = Column_rows c0 ++ replicate (Column_size source) v).
Proof.
  intros Hrun Hi Hplan.
  destruct (cast_field_appended _ _ _ _ _ Hrun Hi Hplan)
    as (it & n & c0 & scratch & chunk & res & Hit & Hc0 & Hscr & Hok & Heval & _ & Hfield & _).
  exists it, n, c0, scratch, chunk, res. cbv zeta in *. split_and!; try done.
  intros Hconst. destruct res as [|ty v size d]; [done|].
  exists v. eexists. split_and!; [done|exact Hfield|].
  unfold push_rows, cast_rows. simpl. rewrite Column_rows_set_delete_state.
  by destruct v.
Qed.

(** C4.  For a flat field with a cast, in a batch read that completes:
    when the result [res] of the cast is entirely null, the flat field
    ends as it was ([c0]) followed by one null per row of [source], the
    rows that were read into the scratch column.  The scratch column
    starts every batch empty, whatever [scratch] held. *)
Theorem all_null_cast_result_appends_nulls mode (e e' : Env) i expr :
  batch_read mode e = (Done tt, e') →
  (i < length (_flat_iters (self e)))%nat →
  _cast_exprs (self e) !! i = Some (Some expr) →
  ∃ it n c0 scratch chunk res,
    _flat_iters (self e) !! i = Some it
    ∧ flat_columns (init_flat_columns (_flat_paths (self e)) (_target_types (self e))
                                      (json_of (dst e))) !! i = Some c0
    ∧ _source_columns (self e) !! i = Some (Some scratch)
    ∧ Column_rows (clone_empty scratch) = []
    ∧ let sub := sub_read mode it n (clone_empty scratch) in
      let source := sub.2 in
      sub.1.1.1 = OK
      ∧ evaluate_checked expr (append_column chunk source i) = inr res
      ∧ (only_null res = true →
         ∃ c, flat_columns (json_of (dst e')) !! i = Some c
           ∧ Column_rows c = Column_rows c0 ++ replicate (Column_size source) None
           ∧ Column_size c = (Column_size c0 + Column_size source)%nat).
Proof.
  intros Hrun Hi Hplan.
  destruct (cast_field_appended _ _ _ _ _ Hrun Hi Hplan)
    as (it & n & c0 & scratch & chunk & res & Hit & Hc0 & Hscr & Hok & Heval & _ & Hfield & _).
  exists it, n, c0, scratch, chunk, res. cbv zeta in *. split_and!; try done.
  intros Hnull. eexists. split_and!; [exact Hfield| |].
  - unfold push_rows, cast_rows. simpl. by rewrite Column_rows_set_delete_state, Hnull.
  - rewrite Column_size_push_rows, Column_size_set_delete_state.
    unfold cast_rows. by rewrite Hnull, length_replicate.
Qed.

(** C5.  [get_row_ranges_by_zone_map] succeeds and adds the one range
    from 0 to the reader's row count to the ranges it is handed,
    whatever the predicates, the delete predicate and the relation are:
    handed no ranges, it returns that single range.  The row count is
    one that fits a row id (32 bits). *)
Theorem zone_map_returns_full_range (r : t) predicates del_predicate pred_relation
    (row_ranges : SparseRange) :
  0 ≤ reader_num_rows (_reader r) < 2 ^ 32 →
  get_row_ranges_by_zone_map r predicates del_predicate pred_relation row_ranges
    = (Done tt, row_ranges ++ [mkRange 0 (reader_num_rows (_reader r))])
  ∧ get_row_ranges_by_zone_map r predicates del_predicate pred_relation []
    = (Done tt, [mkRange 0 (reader_num_rows (_reader r))]).
Proof.
  intros Hrows. unfold get_row_ranges_by_zone_map, SparseRange_add, to_rowid.
  run_monad. rewrite Z.mod_small by done. done.
Qed.

(** C10.  [get_current_ordinal] and [num_rows] read the first flat
    sub-iterator: with one they return its answer and leave the reader
    as it is, with none they index past the end of the vector. *)
Theorem ordinal_accessors_read_first_flat_iter (r : t) :
  match _flat_iters r with
  | it :: _ =>
      get_current_ordinal r = (Done (iter_get_current_ordinal it), r)
      ∧ num_rows r = (Done (iter_num_rows it), r)
  | [] =>
      get_current_ordinal r = (Crashed OutOfBounds, r)
      ∧ num_rows r = (Crashed OutOfBounds, r)
  end.
Proof.
  unfold get_current_ordinal, num_rows. run_monad.
  destruct (_flat_iters r); done.
Qed.
End FlatReaderFacts.

(** ** The Runtime-Flat Reader *)

Section DynamicReaderFacts.
Import JsonDynamicFlatIterator.
Context `{Collaborators} {JI : Type} `{!ColumnIterator JI DocColumn}.
#[local] Abbreviation t := (JsonDynamicFlatIterator.t (JI := JI)).

(** C6.  [seek_to_first], [seek_to_ordinal], [get_current_ordinal],
    [num_rows] and [get_row_ranges_by_zone_map] of the runtime reader
    hand back what the raw-document sub-iterator hands back for the
    same arguments, an error included, and leave in the reader (and in
    the row ranges) what the sub-iterator left. *)
Theorem runtime_reader_passes_through (r : t) (ord : Z) predicates del_predicate
    (row_ranges : SparseRange) pred_relation :
  (returned_status (seek_to_first r).1 = Some (iter_seek_to_first (_json_iter r)).1
   ∧ (seek_to_first r).2 = set_json_iter (iter_seek_to_first (_json_iter r)).2 r)
  ∧ (returned_status (seek_to_ordinal ord r).1
       = Some (iter_seek_to_ordinal (_json_iter r) ord).1
     ∧ (seek_to_ordinal ord r).2
       = set_json_iter (iter_seek_to_ordinal (_json_iter r) ord).2 r)
  ∧ get_current_ordinal r = iter_get_current_ordinal (_json_iter r)
  ∧ num_rows r = iter_num_rows (_json_iter r)
  ∧ (let sub := iter_get_row_ranges_by_zone_map (_json_iter r) predicates del_predicate
                                                row_ranges pred_relation in
     let own := get_row_ranges_by_zone_map predicates del_predicate pred_relation
                                           (r, row_ranges) in
     returned_status own.1 = Some sub.1.1
     ∧ own.2 = (set_json_iter sub.1.2 r, sub.2)).
Proof.
  unfold seek_to_first, seek_to_ordinal, get_row_ranges_by_zone_map. run_monad.
  repeat split.
  - by destruct (iter_seek_to_first _) as [[|?] ?].
  - by destruct (iter_seek_to_first _) as [[|?] ?].
  - by destruct (iter_seek_to_ordinal _ _) as [[|?] ?].
  - by destruct (iter_seek_to_ordinal _ _) as [[|?] ?].
  - by destruct (iter_get_row_ranges_by_zone_map _ _ _ _ _) as [[[|?] ?] ?].
  - by destruct (iter_get_row_ranges_by_zone_map _ _ _ _ _) as [[[|?] ?] ?].
Qed.

(** C8.  [init] of the runtime reader, for a reader with an access
    path: it counts one more hit for the absolute path in
    [dynamic_json_hits] (and touches no other counter), builds the
    flattener from the reader's paths and target types, and initialises
    the raw-document sub-iterator, on the statistics so counted.  It
    returns the status of that sub-iterator: it fails exactly when the
    sub-iterator fails, with its error.  The reader keeps the options. *)
Theorem runtime_init_counts_once_and_reports_sub_iterator (r : t) opts stats p :
  _path r = Some p →
  let counted := mkStats (flat_json_hits stats)
                         (count_hit (absolute_path p) (dynamic_json_hits stats))
                         (json_flatten_ns stats) in
  let sub := iter_init (_json_iter r) opts counted in
  let own := init opts (mkInit r stats) in
  returned_status own.1 = Some sub.1.1
  ∧ (∀ e, own.1 = Failed e ↔ sub.1.1 = Err e)
  ∧ own.2 = mkInit (mk sub.1.2 (_flat_paths r) (_target_types r) (_path r)
                       (JsonFlattener_new (_flat_paths r) (_target_types r))
                       (Some opts))
                   sub.2
  ∧ dynamic_json_hits counted !! absolute_path p
    = Some (default 0 (dynamic_json_hits stats !! absolute_path p) + 1)
  ∧ (∀ q, q ≠ absolute_path p →
          dynamic_json_hits counted !! q = dynamic_json_hits stats !! q)
  ∧ flat_json_hits counted = flat_json_hits stats.
Proof.
  intros Hp counted sub own.
  assert (own = (match sub.1.1 with OK => Done tt | Err e => Failed e end,
                 mkInit (mk sub.1.2 (_flat_paths r) (_target_types r) (_path r)
                            (JsonFlattener_new (_flat_paths r) (_target_types r))
                            (Some opts))
                        sub.2)) as Hown.
  { subst own sub counted. unfold init, update_stats, DCHECK, ColumnIterator_init.
    run_monad. rewrite Hp.
    assert (bool_decide (is_Some (Some p)) = true) as -> by (by apply bool_decide_eq_true).
    destruct NDEBUG; run_monad; rewrite ?Hp; simpl.
    all: destruct (iter_init _ _ _) as [[[|?] ?] ?].
    all: unfold set_json_iter, set_flattener; simpl; by rewrite ?Hp. }
  rewrite Hown. simpl. repeat split.
  - by destruct (sub.1.1).
  - destruct (sub.1.1); naive_solver.
  - destruct (sub.1.1); naive_solver.
  - unfold count_hit. destruct (dynamic_json_hits stats !! absolute_path p);
      simpl; by rewrite lookup_insert_eq.
  - intros q Hq. unfold count_hit.
    destruct (dynamic_json_hits stats !! absolute_path p); by rewrite lookup_insert_ne.
Qed.

(** C7.  A batch read of the runtime reader, in any of the three
    modes, into a null-wrapped destination, by a reader that has been
    initialised: when the sub-iterator has filled the proxy, the
    destination's null column is what it was followed by the proxy's
    null column, its has-null flag is the OR of the proxy's and its own
    (a flag that was set stays set), and its delete state is the
    proxy's. *)
Theorem runtime_batch_read_copies_nulls (mode : ReadMode) (e : Env) nc :
  is_Some (_opts (self e)) →
  dst e = Nullable nc →
  let sub := sub_read mode (_json_iter (self e)) (cnt e) (doc_clone_empty (dst e)) in
  let own := batch_read mode e in
  ∀ proxy, sub.1.1.1 = OK → sub.2 = Nullable proxy →
  ∃ nc', own.1 = Done tt
    ∧ dst own.2 = Nullable nc'
    ∧ null_column nc' = null_column nc ++ null_column proxy
    ∧ has_null nc' = has_null proxy || has_null nc
    ∧ (has_null nc = true → has_null nc' = true)
    ∧ nullable_delete_state nc' = nullable_delete_state proxy.
Proof.
  intros [opts Hopts] Hdst sub own proxy Hok Hproxy.
  assert (own = read_via_proxy (sub_read mode) e) as ->.
  { subst own. by destruct mode. }
  unfold read_via_proxy. run_monad. fold sub.
  destruct sub as [[[st it'] n'] px] eqn:Hsub. simpl in *. subst st px.
  unfold _flat_json, SCOPED_RAW_TIMER. run_monad. rewrite Hdst. simpl. rewrite Hopts. simpl.
  eexists. repeat split; simpl.
  - by rewrite firstn_all.
  - intros ->. by rewrite orb_true_r.
Qed.
End DynamicReaderFacts.

(** ** The readers at work *)

Section Runs.
Import Fixture Demo.
#[local] Existing Instance Demo.E.
#[local] Existing Instance Demo.C.
#[local] Existing Instance Demo.flat_iterator.
#[local] Existing Instance Demo.null_iterator.
#[local] Existing Instance Demo.json_iterator.

Lemma flat_reader_init_run :
  JsonFlatColumnIterator.init tt (JsonFlatColumnIterator.mkInit flat_reader no_stats)
  = (Done tt, flat_initialised).
Proof. vm_compute. reflexivity. Defined.

Lemma flat_env_run :
  JsonFlatColumnIterator.batch_read NextN flat_env = (Done tt, flat_env_read).
Proof. vm_compute. reflexivity. Defined.

Lemma flat_env_lock_step :
  JsonFlatColumnIterator.lock_step NextN three_or_five 3 0 flat_env.
Proof.
  unfold JsonFlatColumnIterator.lock_step. split_and!.
  - simpl. intros nulls _. rewrite length_app. simpl. split; [reflexivity|by right].
  - assert (JsonFlatColumnIterator._flat_iters (JsonFlatColumnIterator.self flat_env)
            = JsonFlatColumnIterator._flat_iters flat_reader) as -> by (vm_compute; reflexivity).
    intros i it Hit n c Hn. cbv zeta.
    do 4 (destruct i as [|i];
          [injection Hit as <-;
           (destruct Hn as [-> | ->]; simpl; rewrite length_app, (Column_size_rows c);
            (split; [reflexivity|by right]))|]).
    discriminate.
  - intros i c Hc. vm_compute in Hc.
    do 4 (destruct i as [|i]; [by injection Hc as <-|]). discriminate.
  - intros nc [= <-]. reflexivity.
Defined.

(** Witness of C1: the reader of four flat fields, asked for five rows
    where three are left. *)
Lemma batch_read_row_counts_witness :
  JsonFlatColumnIterator.batch_read NextN flat_env = (Done tt, flat_env_read)
  ∧ JsonFlatColumnIterator.lock_step NextN three_or_five 3 0 flat_env
  ∧ (∃ c, flat_columns (json_of (JsonFlatColumnIterator.dst flat_env_read)) !! 1%nat = Some c
        ∧ Column_size c = JsonColumn_size (json_of (JsonFlatColumnIterator.dst flat_env_read)))
  ∧ JsonColumn_size (json_of (JsonFlatColumnIterator.dst flat_env_read)) = 3%nat
  ∧ (∃ nc', JsonFlatColumnIterator.dst flat_env_read = Nullable nc'
          ∧ length (null_column nc') = 3%nat).
Proof.
  destruct (batch_read_row_counts NextN three_or_five 3 0 flat_env flat_env_read flat_env_run)
    as [Hchecked Hlock].
  destruct (Hlock flat_env_lock_step) as (_ & Hdoc & Hnull).
  split_and!.
  - exact flat_env_run.
  - exact flat_env_lock_step.
  - apply (Hchecked eq_refl 1%nat (mkCast TYPE_INT TYPE_VARCHAR 1)).
    + vm_compute. lia.
    + vm_compute. reflexivity.
  - apply Hdoc. vm_compute. discriminate.
  - apply Hnull. vm_compute. eauto.
Defined.

(** Against C1 as stated: two flat fields without a cast, sub-iterators
    holding three rows and two rows.  The batch read completes, in a
    build with the debug assertions, and leaves fields of three rows
    and of two rows. *)
Lemma row_count_mismatch_goes_unnoticed :
  ¬ (∀ (mode : ReadMode) (e e' : JsonFlatColumnIterator.Env),
       JsonFlatColumnIterator.batch_read mode e = (Done tt, e') →
       ∀ i c, flat_columns (json_of (JsonFlatColumnIterator.dst e')) !! i = Some c →
              Column_size c = JsonColumn_size (json_of (JsonFlatColumnIterator.dst e'))).
Proof.
  intros Hclaim.
  assert (JsonFlatColumnIterator.batch_read NextN skewed_env
          = (Done tt, (JsonFlatColumnIterator.batch_read NextN skewed_env).2)) as Hrun
    by (vm_compute; reflexivity).
  assert (flat_columns (json_of (JsonFlatColumnIterator.dst
                                   (JsonFlatColumnIterator.batch_read NextN skewed_env).2))
            !! 1%nat
          = Some (Vector TYPE_INT [Some (IntVal 1); Some (IntVal 2)] false)) as Hfield
    by (vm_compute; reflexivity).
  pose proof (Hclaim _ _ _ Hrun _ _ Hfield) as Hsize.
  vm_compute in Hsize. discriminate.
Qed.

(** Witness of C2: [$.a], stored as the integer it is asked for.  Five
    rows are asked for; the null sub-iterator has three and leaves the
    count at three, which is what the sub-iterator of [$.a] is called
    with; the field ends as the three integers it serves. *)
Lemma same_type_field_is_read_directly_witness :
  JsonFlatColumnIterator.init tt (JsonFlatColumnIterator.mkInit flat_reader no_stats)
  = (Done tt, flat_initialised)
  ∧ JsonFlatColumnIterator._cast_exprs (JsonFlatColumnIterator.init_self flat_initialised)
      !! 0%nat = Some None
  ∧ JsonFlatColumnIterator.batch_read NextN flat_env = (Done tt, flat_env_read)
  ∧ JsonFlatColumnIterator.count_at NextN flat_env 0 = 3%N
  ∧ flat_columns (json_of (JsonFlatColumnIterator.dst flat_env_read)) !! 0%nat
    = Some (sub_read NextN
              (mkStub [Some (IntVal 7); Some (IntVal 8); Some (IntVal 9)] 0%nat OK)
              3%N (create_column TYPE_INT)).2
  ∧ flat_columns (json_of (JsonFlatColumnIterator.dst flat_env_read)) !! 0%nat
    = Some (Vector TYPE_INT [Some (IntVal 7); Some (IntVal 8); Some (IntVal 9)] false).
Proof.
  destruct (same_type_field_is_read_directly
              (mkColumnReader 1000)
              (JsonFlatColumnIterator._null_iter flat_reader)
              (JsonFlatColumnIterator._flat_iters flat_reader)
              (JsonFlatColumnIterator._flat_paths flat_reader)
              (JsonFlatColumnIterator._target_types flat_reader)
              (JsonFlatColumnIterator._source_types flat_reader)
              doc_path tt no_stats flat_initialised 0%nat TYPE_INT
              flat_reader_init_run eq_refl eq_refl) as (Hplan & _ & Hread).
  assert (JsonFlatColumnIterator.count_at NextN flat_env 0 = 3%N) as Hcount
    by (vm_compute; reflexivity).
  destruct (Hread NextN flat_env flat_env_read) as (it & c0 & Hit & Hc0 & _ & Hfield).
  { reflexivity. }
  { vm_compute. lia. }
  { exact flat_env_run. }
  rewrite Hcount in Hfield.
  assert (JsonFlatColumnIterator._flat_iters (JsonFlatColumnIterator.self flat_env) !! 0%nat
          = Some (mkStub [Some (IntVal 7); Some (IntVal 8); Some (IntVal 9)] 0%nat OK)) as Hit'
    by (vm_compute; reflexivity).
  assert (flat_columns
            (init_flat_columns
               (JsonFlatColumnIterator._flat_paths (JsonFlatColumnIterator.self flat_env))
               (JsonFlatColumnIterator._target_types (JsonFlatColumnIterator.self flat_env))
               (json_of (JsonFlatColumnIterator.dst flat_env))) !! 0%nat
          = Some (create_column TYPE_INT)) as Hc0' by (vm_compute; reflexivity).
  rewrite Hit' in Hit. rewrite Hc0' in Hc0.
  injection Hit as <-. injection Hc0 as <-.
  split_and!; [exact flat_reader_init_run | exact Hplan | exact flat_env_run
               | exact Hcount | exact Hfield |].
  rewrite Hfield. vm_compute. reflexivity.
Defined.

(** Witness of C3: [$.d], asked for as a boolean. *)
Lemma constant_cast_result_is_repeated_witness :
  JsonFlatColumnIterator.batch_read NextN flat_env = (Done tt, flat_env_read)
  ∧ JsonFlatColumnIterator._cast_exprs (JsonFlatColumnIterator.self flat_env) !! 3%nat
    = Some (Some (mkCast TYPE_INT TYPE_BOOLEAN 3))
  ∧ ∃ it n c0 scratch chunk res,
      JsonFlatColumnIterator._flat_iters (JsonFlatColumnIterator.self flat_env) !! 3%nat
      = Some it
      ∧ flat_columns
          (init_flat_columns
             (JsonFlatColumnIterator._flat_paths (JsonFlatColumnIterator.self flat_env))
             (JsonFlatColumnIterator._target_types (JsonFlatColumnIterator.self flat_env))
             (json_of (JsonFlatColumnIterator.dst flat_env))) !! 3%nat = Some c0
      ∧ JsonFlatColumnIterator._source_columns (JsonFlatColumnIterator.self flat_env)
          !! 3%nat = Some (Some scratch)
      ∧ let sub := sub_read NextN it n (clone_empty scratch) in
        let source := sub.2 in
        sub.1.1.1 = OK
        ∧ evaluate_checked (mkCast TYPE_INT TYPE_BOOLEAN 3) (append_column chunk source 3)
          = inr res
        ∧ (is_constant res = true →
           ∃ v c, Column_rows (const_data_column res) = [v]
             ∧ flat_columns (json_of (JsonFlatColumnIterator.dst flat_env_read)) !! 3%nat
               = Some c
             ∧ Column_rows c = Column_rows c0 ++ replicate (Column_size source) v).
Proof.
  split_and!.
  - exact flat_env_run.
  - vm_compute. reflexivity.
  - apply (constant_cast_result_is_repeated NextN flat_env flat_env_read 3
                                            (mkCast TYPE_INT TYPE_BOOLEAN 3)).
    + exact flat_env_run.
    + vm_compute. lia.
    + vm_compute. reflexivity.
Defined.

(** Witness of C4: [$.c], a string asked for as an integer. *)
Lemma all_null_cast_result_appends_nulls_witness :
  JsonFlatColumnIterator.batch_read NextN flat_env = (Done tt, flat_env_read)
  ∧ JsonFlatColumnIterator._cast_exprs (JsonFlatColumnIterator.self flat_env) !! 2%nat
    = Some (Some (mkCast TYPE_VARCHAR TYPE_INT 2))
  ∧ ∃ it n c0 scratch chunk res,
      JsonFlatColumnIterator._flat_iters (JsonFlatColumnIterator.self flat_env) !! 2%nat
      = Some it
      ∧ flat_columns
          (init_flat_columns
             (JsonFlatColumnIterator._flat_paths (JsonFlatColumnIterator.self flat_env))
             (JsonFlatColumnIterator._target_types (JsonFlatColumnIterator.self flat_env))
             (json_of (JsonFlatColumnIterator.dst flat_env))) !! 2%nat = Some c0
      ∧ JsonFlatColumnIterator._source_columns (JsonFlatColumnIterator.self flat_env)
          !! 2%nat = Some (Some scratch)
      ∧ Column_rows (clone_empty scratch) = []
      ∧ let sub := sub_read NextN it n (clone_empty scratch) in
        let source := sub.2 in
        sub.1.1.1 = OK
        ∧ evaluate_checked (mkCast TYPE_VARCHAR TYPE_INT 2) (append_column chunk source 2)
          = inr res
        ∧ (only_null res = true →
           ∃ c, flat_columns (json_of (JsonFlatColumnIterator.dst flat_env_read)) !! 2%nat
                = Some c
             ∧ Column_rows c = Column_rows c0 ++ replicate (Column_size source) None
             ∧ Column_size c = (Column_size c0 + Column_size source)%nat).
Proof.
  split_and!.
  - exact flat_env_run.
  - vm_compute. reflexivity.
  - apply (all_null_cast_result_appends_nulls NextN flat_env flat_env_read 2
                                              (mkCast TYPE_VARCHAR TYPE_INT 2)).
    + exact flat_env_run.
    + vm_compute. lia.
    + vm_compute. reflexivity.
Defined.

(** Witness of C5: a segment of 1000 rows. *)
Lemma zone_map_returns_full_range_witness :
  0 ≤ 1000 < 2 ^ 32
  ∧ JsonFlatColumnIterator.get_row_ranges_by_zone_map flat_reader [tt; tt] (Some tt) tt []
    = (Done tt, [mkRange 0 1000]).
Proof.
  split; [lia|].
  apply (zone_map_returns_full_range flat_reader [tt; tt] (Some tt) tt []). simpl. lia.
Defined.

(** What the sub-iterator of the runtime reader puts into the proxy. *)
Lemma dynamic_proxy_run :
  (sub_read NextN (JsonDynamicFlatIterator._json_iter
                     (JsonDynamicFlatIterator.self dynamic_env))
            (JsonDynamicFlatIterator.cnt dynamic_env)
            (doc_clone_empty (JsonDynamicFlatIterator.dst dynamic_env))).2
  = Nullable (mkNullableColumn
                (@mkJsonColumn Demo.E ["{a: 1}"; "null"; "{a: 3}"]%string [] [] [] false)
                [0; 1; 0] true true).
Proof. vm_compute. reflexivity. Defined.

(** The runtime reader of the demo has been through [init]. *)
Lemma dynamic_reader_init_run :
  JsonDynamicFlatIterator.init tt (JsonDynamicFlatIterator.mkInit dynamic_reader no_stats)
  = (Done tt, dynamic_initialised).
Proof. vm_compute. reflexivity. Defined.

Lemma dynamic_env_initialised :
  is_Some (JsonDynamicFlatIterator._opts (JsonDynamicFlatIterator.self dynamic_env)).
Proof. exists tt. vm_compute. reflexivity. Defined.

(** Witness of C7: three raw documents, the second one null, read by
    the initialised reader into a destination that holds one null
    row. *)
Lemma runtime_batch_read_copies_nulls_witness :
  is_Some (JsonDynamicFlatIterator._opts (JsonDynamicFlatIterator.self dynamic_env))
  ∧ JsonDynamicFlatIterator.dst dynamic_env
    = Nullable (mkNullableColumn (empty_json false) [1] true false)
  ∧ ∃ nc', (JsonDynamicFlatIterator.batch_read NextN dynamic_env).1 = Done tt
      ∧ JsonDynamicFlatIterator.dst (JsonDynamicFlatIterator.batch_read NextN dynamic_env).2
        = Nullable nc'
      ∧ null_column nc' = [1] ++ [0; 1; 0]
      ∧ has_null nc' = true || true
      ∧ (true = true → has_null nc' = true)
      ∧ nullable_delete_state nc' = true.
Proof.
  split; [exact dynamic_env_initialised|]. split; [reflexivity|].
  apply (runtime_batch_read_copies_nulls NextN dynamic_env
           (mkNullableColumn (empty_json false) [1] true false)
           dynamic_env_initialised eq_refl
           (mkNullableColumn
              (@mkJsonColumn Demo.E ["{a: 1}"; "null"; "{a: 3}"]%string [] [] [] false)
              [0; 1; 0] true true)).
  - vm_compute. reflexivity.
  - exact dynamic_proxy_run.
Defined.

(** Witness of C8: the first reader of the path [doc]. *)
Lemma runtime_init_witness :
  JsonDynamicFlatIterator._path dynamic_reader = Some (mkPath "doc")
  ∧ returned_status
      (JsonDynamicFlatIterator.init tt (JsonDynamicFlatIterator.mkInit dynamic_reader no_stats)).1
    = Some OK
  ∧ dynamic_json_hits
      (mkStats (flat_json_hits no_stats)
               (count_hit "doc" (dynamic_json_hits no_stats))
               (json_flatten_ns no_stats)) !! "doc"%string
    = Some 1.
Proof.
  destruct (runtime_init_counts_once_and_reports_sub_iterator
              dynamic_reader tt no_stats (mkPath "doc") eq_refl)
    as (Hstatus & _ & _ & Hcount & _).
  split_and!.
  - reflexivity.
  - exact Hstatus.
  - exact Hcount.
Defined.

(** C9, where the code departs from the claim.  The reader has no null
    sub-iterator and the destination is null-wrapped.  The range read
    stops at its [CHECK]; the next-N read has no such check: it
    completes, fills the flat fields and leaves the null column
    without a row; the read by row id stops at the cast of the
    destination to a document column. *)
Theorem next_batch_misses_null_wrapping_check :
  JsonFlatColumnIterator._null_iter (JsonFlatColumnIterator.self mismatch_env) = None
  ∧ is_nullable (JsonFlatColumnIterator.dst mismatch_env) = true
  ∧ JsonFlatColumnIterator.next_batch_range [mkRange 0 3] mismatch_env
    = (Crashed CheckFailed, mismatch_env)
  ∧ (JsonFlatColumnIterator.next_batch mismatch_env).1 = Done tt
  ∧ null_of (JsonFlatColumnIterator.dst (JsonFlatColumnIterator.next_batch mismatch_env).2)
    = Some []
  ∧ Column_size <$> flat_columns
      (json_of (JsonFlatColumnIterator.dst (JsonFlatColumnIterator.next_batch mismatch_env).2))
    = [3%nat; 2%nat]
  ∧ (JsonFlatColumnIterator.fetch_values_by_rowid [0; 1] mismatch_env).1
    = Crashed BadDownCast.
Proof. split_and!; vm_compute; reflexivity. Qed.
End Runs.

(** * Further facts about the code *)

(** ** What a method leaves alone *)

Section KeepsLemmas.
Context {St X : Type} (f : St → X).

Lemma keeps_ret {A} (a : A) : keeps f (mret a : M St A).
Proof. intros s o s' [= <- <-]. done. Qed.

Lemma keeps_bind {A B} (m : M St A) (k : A → M St B) :
  keeps f m → (∀ a, keeps f (k a)) → keeps f (m ≫= k).
Proof.
  intros Hm Hk s o s'. unfold mbind, M_bind.
  destruct (m s) as [[a|e|c] s1] eqn:Hrun; specialize (Hm _ _ _ Hrun).
  - intros Hrest%Hk. congruence.
  - intros [= <- <-]. done.
  - intros [= <- <-]. done.
Qed.

Lemma keeps_get : keeps f (get : M St St).
Proof. intros s o s' [= <- <-]. done. Qed.

Lemma keeps_crash {A} c : keeps f (crash c : M St A).
Proof. intros s o s' [= <- <-]. done. Qed.

Lemma keeps_modify (g : St → St) : (∀ s, f (g s) = f s) → keeps f (modify g).
Proof. intros Hg s o s' [= <- <-]. done. Qed.

Lemma keeps_RETURN_IF_ERROR st : keeps f (RETURN_IF_ERROR st : M St unit).
Proof. intros s o s'. destruct st; intros [= <- <-]; done. Qed.

Lemma keeps_CHECK c : keeps f (CHECK c : M St unit).
Proof. destruct c; [apply keeps_ret|apply keeps_crash]. Qed.

Lemma keeps_at_index {A} (v : list A) i : keeps f (at_index v i : M St A).
Proof. unfold at_index. destruct (v !! i); [apply keeps_ret|apply keeps_crash]. Qed.

Lemma keeps_deref {A} (p : option A) : keeps f (deref p : M St A).
Proof. destruct p; [apply keeps_ret|apply keeps_crash]. Qed.

Lemma keeps_ASSIGN_OR_RETURN {A} (r : Error + A) : keeps f (ASSIGN_OR_RETURN r : M St A).
Proof. intros s o s'. destruct r; intros [= <- <-]; done. Qed.

Lemma keeps_for_each idxs (body : nat → M St unit) :
  (∀ i, keeps f (body i)) → keeps f (for_each idxs body).
Proof.
  intros Hbody. induction idxs as [|i idxs IH]; simpl.
  - apply keeps_ret.
  - apply keeps_bind; [apply Hbody|]. intros _. apply IH.
Qed.
End KeepsLemmas.

Lemma keeps_DCHECK `{Externals} {St X} (f : St → X) c : keeps f (DCHECK c : M St unit).
Proof.
  unfold DCHECK. destruct NDEBUG; [apply keeps_ret|].
  destruct c; [apply keeps_ret|apply keeps_crash].
Qed.

Ltac keeps_step :=
  first
    [ apply keeps_ret | apply keeps_get | apply keeps_crash
    | apply keeps_RETURN_IF_ERROR | apply keeps_CHECK | apply keeps_DCHECK
    | apply keeps_at_index | apply keeps_deref | apply keeps_ASSIGN_OR_RETURN
    | apply keeps_bind; [|intros ?]
    | apply keeps_for_each; intros ?
    | apply keeps_modify; intros ? ].

Section FlatMore.
Import JsonFlatColumnIterator.
Context `{Collaborators} {NI FI : Type}.
Context `{!ColumnIterator NI NullColumn, !ColumnIterator FI Column}.
#[local] Abbreviation t := (JsonFlatColumnIterator.t (NI := NI) (FI := FI)).
#[local] Abbreviation Env := (JsonFlatColumnIterator.Env (NI := NI) (FI := FI)).
#[local] Abbreviation InitState := (JsonFlatColumnIterator.InitState (NI := NI) (FI := FI)).

Lemma descriptors_set_flat_iter i it (r : t) :
  descriptors (set_flat_iter i it r) = descriptors r.
Proof. unfold descriptors. simpl. by rewrite length_insert. Qed.

Lemma descriptors_set_null_iter it (r : t) :
  descriptors (set_null_iter it r) = descriptors r.
Proof. done. Qed.

Lemma with_json_wrapper j (d : DocColumn) : wrapper (with_json j d) = wrapper d.
Proof. by destruct d. Qed.

Lemma read_fn_of_keeps {X} (f : Env → X) mode i c :
  blind_to_iters f → (mode = NextN → blind_to_cnt f) →
  keeps f (read_fn_of mode i c).
Proof.
  intros Hit Hcnt. destruct mode as [|range|rowids]; simpl;
    unfold read_next, read_range, read_rowid.
  - keeps_step; [keeps_step|]. keeps_step; [keeps_step|].
    destruct (iter_next_batch _ _ _) as [[[st it'] n'] c'].
    keeps_step; [|keeps_step]. keeps_step. by rewrite Hcnt, Hit.
  - keeps_step; [keeps_step|]. keeps_step; [keeps_step|].
    destruct (iter_next_batch_range _ _ _) as [[st it'] c'].
    keeps_step; [|keeps_step]. keeps_step. by rewrite Hit.
  - keeps_step; [keeps_step|]. keeps_step; [keeps_step|].
    destruct (iter_fetch_values_by_rowid _ _ _) as [[st it'] c'].
    keeps_step; [|keeps_step]. keeps_step. by rewrite Hit.
Qed.

Lemma append_cast_result_keeps {X} (f : Env → X) target res source :
  keeps f (append_cast_result target res source).
Proof.
  unfold append_cast_result, append_value_multiple_times, append.
  destruct (only_null res); [keeps_step|].
  destruct (is_constant res).
  - keeps_step; keeps_step.
  - case_decide; keeps_step.
Qed.

Lemma read_and_cast_step_keeps {X} (f : Env → X) mode i chunk :
  blind_to_iters f → (mode = NextN → blind_to_cnt f) → blind_to_json f →
  keeps f (read_and_cast_step (read_fn_of mode) i chunk).
Proof.
  intros Hit Hcnt Hjson. unfold read_and_cast_step, get_flat_field, put_flat_field.
  apply keeps_bind; [keeps_step|intros e].
  apply keeps_bind; [keeps_step|intros [expr|]].
  - apply keeps_bind; [keeps_step|intros scratch].
    apply keeps_bind; [keeps_step|intros scratch'].
    apply keeps_bind; [by apply read_fn_of_keeps|intros [st source]].
    apply keeps_bind; [keeps_step|intros _].
    apply keeps_bind; [keeps_step|intros res].
    apply keeps_bind; [repeat keeps_step|intros target].
    apply keeps_bind; [apply append_cast_result_keeps|intros target'].
    apply keeps_bind; [keeps_step; apply Hjson|intros _].
    repeat keeps_step.
  - apply keeps_bind; [repeat keeps_step|intros c].
    apply keeps_bind; [by apply read_fn_of_keeps|intros [st c']].
    apply keeps_bind; [keeps_step; apply Hjson|intros _].
    repeat keeps_step.
Qed.

Lemma read_and_cast_loop_keeps {X} (f : Env → X) mode idxs :
  blind_to_iters f → (mode = NextN → blind_to_cnt f) → blind_to_json f →
  ∀ chunk, keeps f (read_and_cast_loop (read_fn_of mode) idxs chunk).
Proof.
  intros Hit Hcnt Hjson. induction idxs as [|i idxs IH]; intros chunk; simpl.
  - keeps_step.
  - keeps_step; [by apply read_and_cast_step_keeps|]. apply IH.
Qed.

Lemma read_and_cast_keeps {X} (f : Env → X) mode :
  blind_to_iters f → (mode = NextN → blind_to_cnt f) → blind_to_json f →
  keeps f (_read_and_cast (read_fn_of mode)).
Proof.
  intros Hit Hcnt Hjson. unfold _read_and_cast.
  keeps_step; [keeps_step|]. keeps_step; [keeps_step; apply Hjson|].
  by apply read_and_cast_loop_keeps.
Qed.

Lemma keeps_doc_update_has_null {X} (f : Env → X) (d : DocColumn) :
  keeps f (doc_update_has_null d).
Proof. unfold doc_update_has_null, down_cast_nullable. destruct d; repeat keeps_step. Qed.

Lemma read_null_column_keeps_descriptors it null_column read read_null :
  keeps (λ e : Env, descriptors (self e)) (read_null_column it null_column read read_null).
Proof.
  unfold read_null_column.
  apply keeps_bind; [|intros [[[st it'] n'] nulls']].
  { destruct null_column as [nulls|].
    - destruct (read nulls) as [[[st it'] n'] nulls']. keeps_step.
    - destruct read_null as [f|[[st it'] n']]; keeps_step. }
  apply keeps_bind; [by keeps_step|intros _].
  apply keeps_bind; [keeps_step|intros _].
  apply keeps_bind; [keeps_step|intros e].
  apply keeps_bind; [apply keeps_doc_update_has_null|intros d].
  by keeps_step.
Qed.

Lemma descriptors_blind :
  blind_to_iters (λ e : Env, descriptors (self e))
  ∧ blind_to_cnt (λ e : Env, descriptors (self e))
  ∧ blind_to_json (λ e : Env, descriptors (self e)).
Proof.
  split_and!.
  - intros j it e. apply descriptors_set_flat_iter.
  - done.
  - done.
Qed.

Lemma wrapper_blind :
  blind_to_iters (λ e : Env, wrapper (dst e))
  ∧ blind_to_cnt (λ e : Env, wrapper (dst e))
  ∧ blind_to_json (λ e : Env, wrapper (dst e)).
Proof.
  split_and!; try done. intros j e. simpl. apply with_json_wrapper.
Qed.

(** X1. Whatever a batch read or a seek of the Precomputed-Flat Reader does and
    however it ends, the reader keeps what the constructor and [init] gave
    it: the column reader, the flat paths, the target and source types, the
    scratch columns, the access path, the cast plan and the number of flat
    sub-iterators. *)
Theorem reads_and_seeks_keep_descriptors (mode : ReadMode) (ord : Z) :
  keeps (λ e : Env, descriptors (self e)) (batch_read mode)
  ∧ keeps (descriptors : t → _) seek_to_first
  ∧ keeps (descriptors : t → _) (seek_to_ordinal ord).
Proof.
  destruct descriptors_blind as (Hit & Hcnt & Hjson).
  assert (∀ seek, keeps (descriptors : t → _) (seek_null_iter seek)) as Hnull.
  { intros seek. unfold seek_null_iter. apply keeps_bind; [keeps_step|intros r].
    destruct (_null_iter r) as [it|]; [|keeps_step].
    destruct (seek it) as [st it']. repeat keeps_step. done. }
  assert (∀ seek i, keeps (descriptors : t → _) (seek_flat_iter seek i)) as Hflat.
  { intros seek i. unfold seek_flat_iter. apply keeps_bind; [keeps_step|intros r].
    apply keeps_bind; [keeps_step|intros it].
    destruct (seek it) as [st it']. apply keeps_bind; [|intros _; keeps_step].
    keeps_step. apply descriptors_set_flat_iter. }
  split_and!.
  - destruct mode as [|range|rowids]; simpl;
      unfold next_batch, next_batch_range, fetch_values_by_rowid.
    + apply keeps_bind; [keeps_step|intros e].
      apply keeps_bind; [|intros _; by apply (read_and_cast_keeps _ NextN)].
      destruct (_null_iter (self e)); [apply read_null_column_keeps_descriptors|keeps_step].
    + apply keeps_bind; [keeps_step|intros e].
      apply keeps_bind; [keeps_step|intros _].
      apply keeps_bind; [|intros _; by apply (read_and_cast_keeps _ (ByRange range))].
      destruct (_null_iter (self e)); [apply read_null_column_keeps_descriptors|keeps_step].
    + apply keeps_bind; [keeps_step|intros e].
      apply keeps_bind; [|intros _; by apply (read_and_cast_keeps _ (ByRowid rowids))].
      destruct (_null_iter (self e)).
      * apply keeps_bind; [|intros nc; apply read_null_column_keeps_descriptors].
        unfold down_cast_nullable. destruct (dst e); keeps_step.
      * apply keeps_bind; [|intros _; keeps_step].
        unfold down_cast_json. destruct (dst e); keeps_step.
  - unfold seek_to_first. apply keeps_bind; [apply Hnull|intros _].
    apply keeps_bind; [keeps_step|intros r].
    apply keeps_bind; [|intros _; keeps_step]. apply keeps_for_each. intros i. apply Hflat.
  - unfold seek_to_ordinal. apply keeps_bind; [apply Hnull|intros _].
    apply keeps_bind; [keeps_step|intros r].
    apply keeps_bind; [|intros _; keeps_step]. apply keeps_for_each. intros i. apply Hflat.
Qed.

(** A batch read with a null sub-iterator and a null-wrapped destination,
    and one with neither. *)
Lemma batch_read_with_null mode (e : Env) it nc :
  _null_iter (self e) = Some it →
  dst e = Nullable nc →
  batch_read mode e
  = (read_null_column it (Some (null_column nc)) (sub_read mode it (cnt e))
                      (sub_read_null mode it (cnt e));;
     _read_and_cast (read_fn_of mode)) e.
Proof.
  intros Hit Hdst. destruct mode as [|range|rowids]; simpl;
    unfold next_batch, next_batch_range, fetch_values_by_rowid.
  - unfold mbind at 1, M_bind at 1. simpl. by rewrite Hit, Hdst.
  - unfold mbind at 1, M_bind at 1. simpl. rewrite Hit, Hdst. simpl. done.
  - unfold mbind at 1, M_bind at 1. simpl. by rewrite Hit, Hdst.
Qed.

Lemma batch_read_without_null mode (e : Env) jc :
  _null_iter (self e) = None →
  dst e = Json jc →
  batch_read mode e = _read_and_cast (read_fn_of mode) e.
Proof.
  intros Hit Hdst. destruct mode as [|range|rowids]; simpl;
    unfold next_batch, next_batch_range, fetch_values_by_rowid.
  - unfold mbind at 1, M_bind at 1. simpl. by rewrite Hit.
  - unfold mbind at 1, M_bind at 1. simpl. rewrite Hit, Hdst. simpl. done.
  - unfold mbind at 1, M_bind at 1. simpl. by rewrite Hit, Hdst.
Qed.

Lemma read_null_column_run it nulls read read_null (e : Env) nc :
  dst e = Nullable nc →
  read_null_column it (Some nulls) read read_null e
  = (status_outcome (read nulls).1.1.1,
     mkEnv (set_null_iter (Some (read nulls).1.1.2) (self e)) (read nulls).1.2
           (Nullable (match (read nulls).1.1.1 with
                      | OK => update_has_null (set_null_column (read nulls).2 nc)
                      | Err _ => set_null_column (read nulls).2 nc
                      end))).
Proof.
  intros Hdst. unfold read_null_column. run_monad.
  destruct (read nulls) as [[[[|err] it'] n'] nulls']; simpl; by rewrite Hdst.
Qed.

(** X2. In a batch read that completes, with a null sub-iterator and a
    null-wrapped destination, the null sub-iterator is read once with the
    count asked for, the null column of the destination is what that read
    left, [has_null] says whether it holds a flag other than zero, the
    delete state of the wrapper is untouched, and the reader keeps the
    null sub-iterator as the read left it. *)
Theorem batch_read_fills_null_column mode (e e' : Env) it nc :
  batch_read mode e = (Done tt, e') →
  _null_iter (self e) = Some it →
  dst e = Nullable nc →
  let sub := sub_read mode it (cnt e) (null_column nc) in
  sub.1.1.1 = OK
  ∧ wrapper (dst e')
    = Some (sub.2, existsb (λ b, negb (b =? 0)) sub.2, nullable_delete_state nc)
  ∧ _null_iter (self e') = Some sub.1.1.2.
Proof.
  intros Hrun Hit Hdst sub. rewrite (batch_read_with_null _ _ _ _ Hit Hdst) in Hrun.
  apply bind_done in Hrun as ([] & e0 & Hnull & Hcast).
  rewrite (read_null_column_run _ _ _ _ _ _ Hdst) in Hnull. fold sub in Hnull.
  destruct (sub.1.1.1) eqn:Hok; [|done]. injection Hnull as <-.
  destruct wrapper_blind as (Hw1 & Hw2 & Hw3).
  apply (read_and_cast_keeps (λ e : Env, wrapper (dst e)) mode Hw1 (λ _, Hw2) Hw3) in Hcast as Hw.
  assert (blind_to_iters (λ e : Env, _null_iter (self e))
          ∧ blind_to_cnt (λ e : Env, _null_iter (self e))
          ∧ blind_to_json (λ e : Env, _null_iter (self e))) as (Hn1 & Hn2 & Hn3) by done.
  apply (read_and_cast_keeps (λ e : Env, _null_iter (self e)) mode Hn1 (λ _, Hn2) Hn3)
    in Hcast as Hn.
  simpl in Hw, Hn. by rewrite Hw, Hn.
Qed.

(** X3. A null sub-iterator that fails ends the batch read with its error
    before any flat field is initialised or read: the destination differs
    only in what the failed read did to its null column, and the flat
    sub-iterators are not touched. *)
Theorem null_read_failure_stops_batch mode (e : Env) it nc err :
  _null_iter (self e) = Some it →
  dst e = Nullable nc →
  let sub := sub_read mode it (cnt e) (null_column nc) in
  sub.1.1.1 = Err err →
  batch_read mode e
  = (Failed err,
     mkEnv (set_null_iter (Some sub.1.1.2) (self e)) sub.1.2
           (Nullable (set_null_column sub.2 nc))).
Proof.
  intros Hit Hdst sub Herr. rewrite (batch_read_with_null _ _ _ _ Hit Hdst).
  unfold mbind, M_bind. rewrite (read_null_column_run _ _ _ _ _ _ Hdst). fold sub.
  by rewrite Herr.
Qed.

(** A null pointer handed to the null sub-iterator, with a destination
    that is not null-wrapped. *)
Lemma read_null_column_null it read read_null (e : Env) jc :
  dst e = Json jc →
  read_null_column it None read read_null e
  = match read_null with
    | inl f => (Crashed f, e)
    | inr (st, it', n') =>
        (match st with OK => Crashed bad_cast | Err err => Failed err end,
         mkEnv (set_null_iter (Some it') (self e)) n' (dst e))
    end.
Proof.
  intros Hdst. unfold read_null_column. run_monad.
  destruct read_null as [f|[[[|err] it'] n']]; simpl; by rewrite ?Hdst.
Qed.



(** The loop of a batch read that completes, split at round [i]: the
    rounds before it, the round, the rounds after it. *)
Lemma read_and_cast_loop_split mode k : ∀ a chunk (e e' : Env) i,
  read_and_cast_loop (read_fn_of mode) (seq a k) chunk e = (Done tt, e') →
  (a ≤ i < a + k)%nat →
  ∃ chunk_i chunk' (e1 e2 : Env),
    (∀ j, (i ≤ j)%nat → same_at j e e1)
    ∧ same_plan e e1
    ∧ read_and_cast_step (read_fn_of mode) i chunk_i e1 = (Done chunk', e2)
    ∧ read_and_cast_loop (read_fn_of mode) (seq (S i) (a + k - S i)) chunk' e2
      = (Done tt, e').
Proof.
  induction k as [|k IH]; intros a chunk e e' i Hrun Hi; [lia|].
  simpl in Hrun. apply bind_done in Hrun as (chunk1 & em & Hstep & Hrest).
  destruct (decide (i = a)) as [->|Hne].
  - exists chunk, chunk1, e, em. split_and!; try done.
    by replace (a + S k - S a)%nat with k by lia.
  - pose proof (read_and_cast_step_frame _ _ _ _ _ _ Hstep) as [Hplan Hframe].
    destruct (IH (S a) chunk1 em e' i Hrest) as (chunk_i & chunk' & e1 & e2 & Hf & Hp & Hs & Hl);
      [lia|].
    exists chunk_i, chunk', e1, e2. split_and!; try done.
    + intros j Hj. eapply same_at_trans; [apply Hframe|apply Hf]; lia.
    + by eapply same_plan_trans.
    + by replace (a + S k - S i)%nat with (S a + k - S i)%nat by lia.
Qed.

(** X5. Every flat sub-iterator is read exactly where its field stands in a
    batch read that completes: into the flat field of the destination when
    the plan has no cast, into an empty clone of the scratch column when it
    has one; the read succeeded, and the reader keeps the sub-iterator as
    that read left it. *)
Theorem batch_read_advances_each_sub_iterator mode (e e' : Env) i :
  batch_read mode e = (Done tt, e') →
  (i < length (_flat_iters (self e)))%nat →
  ∃ it n c plan,
    _flat_iters (self e) !! i = Some it
    ∧ _cast_exprs (self e) !! i = Some plan
    ∧ match plan with
      | None =>
          flat_columns (init_flat_columns (_flat_paths (self e)) (_target_types (self e))
                                          (json_of (dst e))) !! i = Some c
      | Some _ =>
          ∃ scratch, _source_columns (self e) !! i = Some (Some scratch)
                     ∧ c = clone_empty scratch
      end
    ∧ (sub_read mode it n c).1.1.1 = OK
    ∧ _flat_iters (self e') !! i = Some (sub_read mode it n c).1.1.2.
Proof.
  intros (e0 & Hnull & Hloop)%batch_read_done Hi.
  destruct Hnull as (Hiters & Hplan & Hsrc & Hpaths & Htypes & Hjson & _).
  pose proof (read_and_cast_loop_done _ _ _ _ _ _ Hloop) as (_ & _ & Hrounds).
  destruct (Hrounds i) as (chunk & chunk' & e1 & e2 & Hp1 & Hf1 & Hstep & _ & Hf2).
  { rewrite Hiters. lia. }
  destruct Hp1 as (Hp1 & Hs1 & _). destruct (Hf1 i) as [Hfield Hiter]; [lia|].
  unfold with_flat_storage in *. simpl in *. rewrite json_of_with_json in Hfield.
  destruct (Hf2 i) as [_ Hiter']; [lia|].
  apply read_and_cast_step_done in Hstep as (it & c0 & plan & Hit & Hc0 & Hplan1 & Hcase).
  destruct plan as [expr|].
  - destruct Hcase as (scratch & res & Hscr & Hok & _ & _ & _ & -> & _).
    exists it, (cnt e1), (clone_empty scratch), (Some expr).
    split_and!; try congruence.
    + exists scratch. split; [congruence|done].
    + rewrite Hiter'. by eapply after_round_lookup.
  - destruct Hcase as (Hok & _ & ->).
    exists it, (cnt e1), c0, None. split_and!; try congruence.
    rewrite Hiter'. by eapply after_round_lookup.
Qed.

(** X6. The count a next-N read leaves behind [n] is the count the last flat
    sub-iterator reported in the call that left it in its final state. *)
Theorem next_batch_reports_last_count (e e' : Env) its it :
  batch_read NextN e = (Done tt, e') →
  _flat_iters (self e) = its ++ [it] →
  ∃ n c, (iter_next_batch it n c).1.1.1 = OK
         ∧ _flat_iters (self e') !! length its = Some (iter_next_batch it n c).1.1.2
         ∧ cnt e' = (iter_next_batch it n c).1.2.
Proof.
  intros (e0 & Hnull & Hloop)%batch_read_done Hlast.
  destruct Hnull as (Hiters & _). rewrite Hiters, Hlast, length_app in Hloop. simpl in Hloop.
  destruct (read_and_cast_loop_split NextN (length its + 1) 0 [] _ _ (length its) Hloop)
    as (chunk & chunk' & e1 & e2 & Hf & _ & Hstep & Hrest); [lia|].
  replace (0 + (length its + 1) - S (length its))%nat with 0%nat in Hrest by lia.
  simpl in Hrest. injection Hrest as <-.
  destruct (Hf (length its)) as [_ Hit1]; [lia|].
  unfold with_flat_storage in Hit1. simpl in Hit1.
  rewrite Hiters, Hlast, lookup_app_r, Nat.sub_diag in Hit1 by lia. simpl in Hit1.
  apply (read_and_cast_step_done NextN) in Hstep
    as (it' & c0 & plan & Hit & Hc0 & Hplan1 & Hcase).
  rewrite Hit1 in Hit. injection Hit as <-.
  destruct plan as [expr|].
  - destruct Hcase as (scratch & res & _ & Hok & _ & _ & _ & -> & _).
    exists (cnt e1), (clone_empty scratch). split_and!; try done.
    by eapply after_round_lookup.
  - destruct Hcase as (Hok & _ & ->). exists (cnt e1), c0. split_and!; try done.
    by eapply after_round_lookup.
Qed.

Lemma batch_read_round_covered mode (e e' : Env) i :
  batch_read mode e = (Done tt, e') →
  (i < length (_flat_iters (self e)))%nat →
  (i < length (_cast_exprs (self e)))%nat
  ∧ (i < length (flat_columns (init_flat_columns (_flat_paths (self e))
                                                 (_target_types (self e))
                                                 (json_of (dst e)))))%nat.
Proof.
  intros Hrun Hi.
  destruct (batch_read_round _ _ _ _ Hrun Hi)
    as (chunk & chunk' & e1 & e2 & Hp & Hs & Hiter & Hfield & Hstep & Hframe).
  apply read_and_cast_step_done in Hstep as (it & c0 & plan & Hit & Hc0 & Hplan1 & _).
  rewrite Hp in Hplan1. rewrite Hfield in Hc0.
  split; by eapply lookup_lt_Some.
Qed.

(** X7. A batch read completes only when the cast plan and the flat fields
    made by [init_flat_columns] cover every flat sub-iterator; it keeps the
    number of flat fields, and leaves the fields beyond the sub-iterators
    as [init_flat_columns] made them. *)
Theorem batch_read_needs_plan_and_fields mode (e e' : Env) :
  batch_read mode e = (Done tt, e') →
  (length (_flat_iters (self e)) ≤ length (_cast_exprs (self e)))%nat
  ∧ (length (_flat_iters (self e))
     ≤ length (flat_columns (init_flat_columns (_flat_paths (self e))
                                                (_target_types (self e))
                                                (json_of (dst e)))))%nat
  ∧ length (flat_columns (json_of (dst e')))
    = length (flat_columns (init_flat_columns (_flat_paths (self e))
                                              (_target_types (self e))
                                              (json_of (dst e))))
  ∧ ∀ j, (length (_flat_iters (self e)) ≤ j)%nat →
         flat_columns (json_of (dst e')) !! j
         = flat_columns (init_flat_columns (_flat_paths (self e)) (_target_types (self e))
                                           (json_of (dst e))) !! j.
Proof.
  intros Hrun.
  assert (∀ i, (i < length (_flat_iters (self e)))%nat →
               (i < length (_cast_exprs (self e)))%nat
               ∧ (i < length (flat_columns
                                (init_flat_columns (_flat_paths (self e))
                                                   (_target_types (self e))
                                                   (json_of (dst e)))))%nat) as Hcover.
  { intros i Hi.
    destruct (batch_read_round_covered mode e e' i Hrun Hi) as [? ?]. done. }
  apply batch_read_done in Hrun as (e0 & Hnull & Hloop).
  destruct Hnull as (Hiters & Hplan & Hsrc & Hpaths & Htypes & Hjson & _).
  apply read_and_cast_loop_done in Hloop as ((_ & _ & _ & Hlen & _) & Hframe & _).
  unfold with_flat_storage in *. simpl in *. rewrite json_of_with_json in *.
  rewrite Hpaths, Htypes, Hjson in *.
  split_and!.
  - destruct (length (_flat_iters (self e))) as [|m] eqn:Hm; [lia|].
    destruct (Hcover m); lia.
  - destruct (length (_flat_iters (self e))) as [|m] eqn:Hm; [lia|].
    destruct (Hcover m); lia.
  - done.
  - intros j Hj. destruct (Hframe j) as [Hfield _]; [rewrite Hiters; lia|].
    simpl in Hfield. by rewrite json_of_with_json in Hfield.
Qed.

(** X8. A cast result that is neither entirely null nor constant is at least
    as long as what was read (DCHECK_EQ in a debug build, the range check
    of [append] otherwise), and its first rows, as many as were read, are
    appended to the flat field. *)
Theorem plain_cast_result_is_copied mode (e e' : Env) i expr :
  batch_read mode e = (Done tt, e') →
  (i < length (_flat_iters (self e)))%nat →
  _cast_exprs (self e) !! i = Some (Some expr) →
  ∃ it n c0 scratch chunk res,
    _flat_iters (self e) !! i = Some it
    ∧ flat_columns (init_flat_columns (_flat_paths (self e)) (_target_types (self e))
                                      (json_of (dst e))) !! i = Some c0
    ∧ _source_columns (self e) !! i = Some (Some scratch)
    ∧ let sub := sub_read mode it n (clone_empty scratch) in
      let source := sub.2 in
      sub.1.1.1 = OK
      ∧ evaluate_checked expr (append_column chunk source i) = inr res
      ∧ (only_null res = false → is_constant res = false →
         (Column_size source ≤ Column_size res)%nat
         ∧ ∃ c, flat_columns (json_of (dst e')) !! i = Some c
             ∧ Column_rows c = Column_rows c0 ++ take (Column_size source) (Column_rows res)).
Proof.
  intros Hrun Hi Hplan.
  destruct (cast_field_appended _ _ _ _ _ Hrun Hi Hplan)
    as (it & n & c0 & scratch & chunk & res & Hit & Hc0 & Hscr & Hok & Heval & Hlen & Hfield & _).
  exists it, n, c0, scratch, chunk, res. cbv zeta in *. split_and!; try done.
  intros Hnull Hconst. destruct res as [ty rows d|]; [|done].
  unfold cast_rows in *. simpl in *. rewrite length_take in Hlen. split; [lia|].
  eexists. split; [exact Hfield|]. simpl. by rewrite Column_rows_set_delete_state.
Qed.

(** X9. A flat field with a cast takes over the delete state of the scratch
    column read in the batch, whatever the cast gave, and grows by as many
    rows as were read. *)
Theorem cast_field_takes_delete_state mode (e e' : Env) i expr :
  batch_read mode e = (Done tt, e') →
  (i < length (_flat_iters (self e)))%nat →
  _cast_exprs (self e) !! i = Some (Some expr) →
  ∃ it n c0 scratch c,
    _flat_iters (self e) !! i = Some it
    ∧ flat_columns (init_flat_columns (_flat_paths (self e)) (_target_types (self e))
                                      (json_of (dst e))) !! i = Some c0
    ∧ _source_columns (self e) !! i = Some (Some scratch)
    ∧ flat_columns (json_of (dst e')) !! i = Some c
    ∧ let source := (sub_read mode it n (clone_empty scratch)).2 in
      delete_state c = delete_state source
      ∧ Column_size c = (Column_size c0 + Column_size source)%nat.
Proof.
  intros Hrun Hi Hplan.
  destruct (cast_field_appended _ _ _ _ _ Hrun Hi Hplan)
    as (it & n & c0 & scratch & chunk & res & Hit & Hc0 & Hscr & Hok & Heval & Hlen & Hfield & _).
  exists it, n, c0, scratch. eexists. cbv zeta in *. split_and!; try done.
  - unfold push_rows. simpl. by destruct c0.
  - by rewrite Column_size_push_rows, Column_size_set_delete_state, Hlen.
Qed.

(** *** [init] *)

Lemma build_cast_plan_loop_entries k : ∀ a (s s' : InitState),
  for_each (seq a k) build_cast_plan s = (Done tt, s') →
  ((0 < k)%nat → (a + k ≤ length (_target_types (init_self s)))%nat
                 ∧ (a + k ≤ length (_source_types (init_self s)))%nat)
  ∧ init_stats s' = init_stats s
  ∧ ∃ es cs,
      _cast_exprs (init_self s') = _cast_exprs (init_self s) ++ es
      ∧ _source_columns (init_self s') = _source_columns (init_self s) ++ cs
      ∧ length es = k ∧ length cs = k
      ∧ ∀ j target source,
          _target_types (init_self s) !! (a + j)%nat = Some target →
          _source_types (init_self s) !! (a + j)%nat = Some source →
          (j < k)%nat →
          target ≠ source →
          es !! j = Some (from_type source target (a + j))
          ∧ cs !! j = Some (Some (create_column source)).
Proof.
  induction k as [|k IH]; intros a s s' Hrun; simpl in Hrun.
  - injection Hrun as <-. split_and!; try lia; try done. exists [], [].
    rewrite !app_nil_r. split_and!; try done. intros; lia.
  - apply bind_done in Hrun as ([] & sm & Hstep & Hrest).
    unfold build_cast_plan in Hstep.
    apply bind_done in Hstep as (? & ? & [= <- <-] & Hstep).
    apply bind_done in Hstep as (target & ? & [Htgt ->]%at_index_done & Hstep).
    apply bind_done in Hstep as (source & ? & [Hsrc ->]%at_index_done & Hstep).
    apply IH in Hrest as (Hlen & Hstats & es & cs & Hes & Hcs & Hles & Hlcs & Hentries).
    assert (∃ e c, sm = on_self (push_cast_plan e c) s
                   ∧ (target ≠ source →
                      e = from_type source target a ∧ c = Some (create_column source)))
      as (e0 & c0 & -> & Hcast).
    { case_decide; injection Hstep as <-.
      - eexists _, _. split; [done|]. done.
      - eexists _, _. split; [done|]. done. }
    simpl in *. split_and!; try done.
    { intros _. apply lookup_lt_Some in Htgt, Hsrc.
      destruct k as [|k']; [lia|]. destruct Hlen; lia. }
    exists (e0 :: es), (c0 :: cs). rewrite Hes, Hcs, <- !app_assoc. simpl.
    split_and!; try done; try lia.
    intros [|j] tgt src Hty1 Hty2 Hj Hne.
    + rewrite Nat.add_0_r in *. simpl.
      assert (tgt = target) as -> by congruence. assert (src = source) as -> by congruence.
      destruct (Hcast Hne) as [-> ->]. split; reflexivity.
    + simpl. replace (a + S j)%nat with (S (a + j)) in * by lia.
      apply (Hentries j tgt src); [exact Hty1|exact Hty2|lia|done].
Qed.

Lemma init_sub_iterators_keep {X} (f : InitState → X) opts :
  (∀ it (s : InitState),
     f (mkInit (set_null_iter (Some (iter_init it opts (init_stats s)).1.2) (init_self s))
               (iter_init it opts (init_stats s)).2) = f s) →
  (∀ i it (s : InitState),
     f (mkInit (set_flat_iter i (iter_init it opts (init_stats s)).1.2 (init_self s))
               (iter_init it opts (init_stats s)).2) = f s) →
  keeps f (init_null_iter opts)
  ∧ ∀ idxs, keeps f (for_each idxs (init_flat_iter opts)).
Proof.
  intros Hnull Hflat. split.
  - intros s o s'. unfold init_null_iter. run_monad.
    destruct (_null_iter (init_self s)) as [it|]; [|by intros [= <- <-]].
    specialize (Hnull it s).
    destruct (iter_init it opts (init_stats s)) as [[[|err] it'] stats'];
      simpl; intros [= <- <-]; exact Hnull.
  - intros idxs. apply keeps_for_each. intros i s o s'. unfold init_flat_iter. run_monad.
    destruct (_flat_iters (init_self s) !! i) as [it|]; simpl; [|by intros [= <- <-]].
    specialize (Hflat i it s).
    destruct (iter_init it opts (init_stats s)) as [[[|err] it'] stats'];
      simpl; intros [= <- <-]; exact Hflat.
Qed.

Lemma bind_failed {St A B} (m : M St A) (k : A → M St B) s err s' :
  (m ≫= k) s = (Failed err, s') →
  m s = (Failed err, s') ∨ ∃ a s1, m s = (Done a, s1) ∧ k a s1 = (Failed err, s').
Proof.
  unfold mbind, M_bind. destruct (m s) as [[a|e|f] s1]; intros Hk.
  - right. exists a, s1. split; [reflexivity|exact Hk].
  - left. by injection Hk as -> ->.
  - discriminate.
Qed.

Lemma DCHECK_not_failed {St} c (s s' : St) err : DCHECK c s ≠ (Failed err, s').
Proof. unfold DCHECK. destruct NDEBUG, c; done. Qed.

Lemma update_stats_not_failed (s s' : InitState) err : update_stats s ≠ (Failed err, s').
Proof. unfold update_stats. run_monad. by destruct (_path (init_self s)). Qed.

Lemma build_cast_plan_not_failed idxs : ∀ (s s' : InitState) err,
  for_each idxs build_cast_plan s ≠ (Failed err, s').
Proof.
  induction idxs as [|i idxs IH]; intros s s' err; simpl; [done|].
  intros [Hstep|(? & sm & Hstep & Hrest)]%bind_failed.
  - unfold build_cast_plan in Hstep. run_monad.
    destruct (_target_types (init_self s) !! i); [|done]. simpl in Hstep.
    destruct (_source_types (init_self s) !! i); [|done]. simpl in Hstep.
    by destruct (decide (_ = _)).
  - by eapply IH.
Qed.

(** What [init] has done when it completes, and when it fails; [f] is a
    part of the state that no [init] of a sub-iterator changes. *)
Lemma init_outcome {X} (f : InitState → X) opts (s s1 : InitState) :
  (∀ it (s : InitState),
     f (mkInit (set_null_iter (Some (iter_init it opts (init_stats s)).1.2) (init_self s))
               (iter_init it opts (init_stats s)).2) = f s) →
  (∀ i it (s : InitState),
     f (mkInit (set_flat_iter i (iter_init it opts (init_stats s)).1.2 (init_self s))
               (iter_init it opts (init_stats s)).2) = f s) →
  (init opts s = (Done tt, s1) →
   ∃ (s3 : InitState) p,
     f s3 = f s
     ∧ plan_of (init_self s3) = plan_of (init_self s)
     ∧ _path (init_self s) = Some p
     ∧ (NDEBUG = false →
        length (_target_types (init_self s)) = length (_source_types (init_self s)))
     ∧ for_each (seq 0 (length (_target_types (init_self s)))) build_cast_plan
                (mkInit (init_self s3)
                        (mkStats (count_hit (absolute_path p) (flat_json_hits (init_stats s3)))
                                 (dynamic_json_hits (init_stats s3))
                                 (json_flatten_ns (init_stats s3))))
       = (Done tt, s1))
  ∧ (∀ err, init opts s = (Failed err, s1) → f s1 = f s).
Proof.
  intros Hfn Hff.
  destruct (init_sub_iterators_keep f opts Hfn Hff) as [Hkn Hkf].
  destruct (init_sub_iterators_keep (λ s : InitState, _path (init_self s)) opts)
    as [Hpn Hpf]; [done..|].
  split.
  - unfold init. intros Hrun.
    apply bind_done in Hrun as ([] & ? & [= <-] & Hrun).
    apply bind_done in Hrun as ([] & s2 & Hnull & Hrun).
    pose proof (Hpn _ _ _ Hnull) as Hpath2. pose proof (Hkn _ _ _ Hnull) as Hf2.
    apply init_null_iter_plan in Hnull.
    apply bind_done in Hrun as (? & ? & [= <- <-] & Hrun).
    apply bind_done in Hrun as ([] & s3 & Hflat & Hrun).
    pose proof (Hpf _ _ _ _ Hflat) as Hpath3. pose proof (Hkf _ _ _ _ Hflat) as Hf3.
    apply init_flat_iters_plan in Hflat.
    apply bind_done in Hrun as (? & ? & [= <- <-] & Hrun).
    apply bind_done in Hrun as ([] & ? & [-> _]%DCHECK_done & Hrun).
    apply bind_done in Hrun as ([] & s4 & Hstats & Hrun).
    apply bind_done in Hrun as ([] & ? & [-> Hlen]%DCHECK_done & Hrun).
    apply bind_done in Hrun as ([] & s5 & Hplan & [= <-]).
    unfold update_stats in Hstats.
    apply bind_done in Hstats as (? & ? & [= <- <-] & Hstats).
    apply bind_done in Hstats as (p & ? & Hp & [= <-]).
    destruct (_path (init_self s3)) as [p'|] eqn:Hpath; [|done]. injection Hp as <- <-.
    assert (plan_of (init_self s3) = plan_of (init_self s)) as Heq by congruence.
    pose proof Heq as Heq'. unfold plan_of in Heq'. injection Heq' as Ht Hs He Hc.
    exists s3, p'. rewrite Ht, Hs in *. split_and!; try done.
    + congruence.
    + simpl in *. congruence.
    + intros Hdebug. specialize (Hlen Hdebug). by apply bool_decide_eq_true in Hlen.
  - intros err. unfold init. intros Hrun.
    apply bind_failed in Hrun as [Hrun|([] & ? & [= <-] & Hrun)]; [done|].
    apply bind_failed in Hrun as [Hnull|([] & s2 & Hnull & Hrun)]; [by eapply Hkn|].
    apply Hkn in Hnull.
    apply bind_failed in Hrun as [Hrun|(? & ? & [= <- <-] & Hrun)]; [done|].
    apply bind_failed in Hrun as [Hflat|([] & s3 & Hflat & Hrun)].
    { apply Hkf in Hflat. congruence. }
    apply bind_failed in Hrun as [Hrun|(? & ? & [= <- <-] & Hrun)]; [done|].
    apply bind_failed in Hrun as [Hrun|([] & ? & _ & Hrun)];
      [by apply DCHECK_not_failed in Hrun|].
    apply bind_failed in Hrun as [Hrun|([] & ? & _ & Hrun)];
      [by apply update_stats_not_failed in Hrun|].
    apply bind_failed in Hrun as [Hrun|([] & ? & _ & Hrun)];
      [by apply DCHECK_not_failed in Hrun|].
    apply bind_failed in Hrun as [Hrun|([] & ? & _ & Hrun)];
      [by apply build_cast_plan_not_failed in Hrun|done].
Qed.

Lemma init_done opts (s s1 : InitState) :
  init opts s = (Done tt, s1) →
  ∃ (s3 : InitState) p,
    plan_of (init_self s3) = plan_of (init_self s)
    ∧ _path (init_self s) = Some p
    ∧ (NDEBUG = false →
       length (_target_types (init_self s)) = length (_source_types (init_self s)))
    ∧ for_each (seq 0 (length (_target_types (init_self s)))) build_cast_plan
               (mkInit (init_self s3)
                       (mkStats (count_hit (absolute_path p) (flat_json_hits (init_stats s3)))
                                (dynamic_json_hits (init_stats s3))
                                (json_flatten_ns (init_stats s3))))
      = (Done tt, s1).
Proof.
  intros Hrun.
  destruct (init_outcome (λ _, tt) opts s s1) as [Hdone _]; [done..|].
  destruct (Hdone Hrun) as (s3 & p & _ & ?). eauto.
Qed.

(** X10. After an [init] that completes, the cast plan and the scratch columns
    have one entry per target type, and where the target type differs from
    the source type the entry is the cast expression [from_type] builds
    and an empty column of the source type. *)
Theorem init_plans_cast_for_differing_types reader null_iter field_iters flat_paths
    target_types source_types path opts stats (s1 : InitState) :
  init opts (mkInit (new reader null_iter field_iters flat_paths target_types
                         source_types path) stats) = (Done tt, s1) →
  length (_cast_exprs (init_self s1)) = length target_types
  ∧ length (_source_columns (init_self s1)) = length target_types
  ∧ ∀ i target source,
      target_types !! i = Some target →
      source_types !! i = Some source →
      target ≠ source →
      _cast_exprs (init_self s1) !! i = Some (from_type source target i)
      ∧ _source_columns (init_self s1) !! i = Some (Some (create_column source)).
Proof.
  intros (s3 & p & Hplan & _ & _ & Hloop)%init_done. simpl in *.
  unfold plan_of in Hplan. simpl in Hplan. injection Hplan as Ht Hs He Hc.
  apply build_cast_plan_loop_entries in Hloop
    as (_ & _ & es & cs & Hes & Hcs & Hles & Hlcs & Hentries).
  simpl in *. rewrite He in Hes. rewrite Hc in Hcs. rewrite Ht, Hs in Hentries.
  simpl in *. rewrite Hes, Hcs. split_and!; try done.
  intros i target source Htgt Hsrc Hne.
  apply (Hentries i target source); try done. by eapply lookup_lt_Some.
Qed.

(** X11. [init] completes only for a reader with an access path and a source
    type for every target type; in a debug build the two type lists have
    the same length. *)
Theorem init_needs_path_and_aligned_types opts (s s1 : InitState) :
  init opts s = (Done tt, s1) →
  is_Some (_path (init_self s))
  ∧ (length (_target_types (init_self s)) ≤ length (_source_types (init_self s)))%nat
  ∧ (NDEBUG = false →
     length (_target_types (init_self s)) = length (_source_types (init_self s))).
Proof.
  intros Hrun.
  destruct (init_done _ _ _ Hrun) as (s3 & p & Hplan & Hpath & Hlen & Hloop).
  apply build_cast_plan_loop_entries in Hloop as (Hls & _). simpl in Hls.
  unfold plan_of in Hplan. injection Hplan as Ht Hs He Hc. rewrite Ht, Hs in Hls.
  split_and!; [by rewrite Hpath| |done].
  destruct (length (_target_types (init_self s))) as [|m] eqn:Hm; [lia|].
  destruct Hls; lia.
Qed.

(** X12. With sub-iterators whose [init] leaves the statistics alone, an
    [init] that completes has counted exactly one hit under the absolute
    path of the column and has left the other counter alone; an [init]
    that fails has counted nothing and has built no cast plan. *)
Theorem init_counts_hit_only_on_success opts (r : t) stats o (s1 : InitState) :
  (∀ (it : NI) st, (iter_init it opts st).2 = st) →
  (∀ (it : FI) st, (iter_init it opts st).2 = st) →
  init opts (mkInit r stats) = (o, s1) →
  match o with
  | Done _ =>
      ∃ p, _path r = Some p
           ∧ init_stats s1
             = mkStats (count_hit (absolute_path p) (flat_json_hits stats))
                       (dynamic_json_hits stats) (json_flatten_ns stats)
  | Failed _ =>
      init_stats s1 = stats
      ∧ _cast_exprs (init_self s1) = _cast_exprs r
      ∧ _source_columns (init_self s1) = _source_columns r
  | Crashed _ => True
  end.
Proof.
  intros Hn Hf Hrun.
  destruct (init_outcome (λ s : InitState, (init_stats s, plan_of (init_self s)))
                         opts (mkInit r stats) s1) as [Hdone Hfailed].
  { intros it s. simpl. by rewrite Hn. }
  { intros i it s. simpl. by rewrite Hf. }
  destruct o as [[]|err|]; [| |done].
  - destruct (Hdone Hrun) as (s3 & p & Hkept & _ & Hp & _ & Hloop).
    apply build_cast_plan_loop_entries in Hloop as (_ & Hstats & _).
    simpl in *. injection Hkept as Hs3 _. exists p. split; [done|]. by rewrite Hstats, Hs3.
  - specialize (Hfailed err Hrun). simpl in Hfailed. unfold plan_of in Hfailed.
    injection Hfailed as Hs _ _ He Hc. done.
Qed.

(** *** The seeks *)

Lemma with_flat_iters_same (r : t) : with_flat_iters (_flat_iters r) r = r.
Proof. by destruct r. Qed.

Lemma seek_flat_iters_run (seek : FI → Status * FI) : ∀ rest pre (r : t),
  _flat_iters r = pre ++ rest →
  for_each (seq (length pre) (length rest)) (seek_flat_iter seek) r
  = (status_outcome (seek_each seek rest).1,
     with_flat_iters (pre ++ (seek_each seek rest).2) r).
Proof.
  induction rest as [|it rest IH]; intros pre r Hr; simpl.
  - rewrite app_nil_r in *. rewrite <- Hr. by rewrite with_flat_iters_same.
  - unfold mbind at 1, M_bind at 1. unfold seek_flat_iter at 1. run_monad.
    rewrite Hr, list_lookup_middle by done. simpl.
    destruct (seek it) as [[|err] it'] eqn:Hseek; simpl.
    + replace (S (length pre)) with (length (pre ++ [it']))
        by (rewrite length_app; simpl; lia).
      rewrite (IH (pre ++ [it'])).
      * destruct (seek_each seek rest) as [st rest']. simpl.
        unfold with_flat_iters, set_flat_iter. simpl. by rewrite <- app_assoc.
      * simpl. rewrite Hr. rewrite insert_app_r_alt, Nat.sub_diag by done. simpl.
        by rewrite <- app_assoc.
    + unfold with_flat_iters, set_flat_iter. simpl.
      rewrite Hr, insert_app_r_alt, Nat.sub_diag by done. done.
Qed.

Lemma seek_each_all_ok (seek : FI → Status * FI) its :
  Forall (λ it, (seek it).1 = OK) its →
  seek_each seek its = (OK, (λ it, (seek it).2) <$> its).
Proof.
  induction 1 as [|it its Hok _ IH]; simpl; [done|].
  destruct (seek it) as [st it']. simpl in Hok. subst st. by rewrite IH.
Qed.

Lemma seek_each_first_failure (seek : FI → Status * FI) its k it err :
  its !! k = Some it →
  (seek it).1 = Err err →
  (∀ j it', (j < k)%nat → its !! j = Some it' → (seek it').1 = OK) →
  seek_each seek its
  = (Err err, ((λ it, (seek it).2) <$> take k its) ++ (seek it).2 :: drop (S k) its).
Proof.
  revert k. induction its as [|it0 its IH]; intros k Hk Herr Hbefore; [done|].
  destruct k as [|k]; simpl in *.
  - injection Hk as ->. destruct (seek it) as [st it']. simpl in Herr. subst st.
    by rewrite drop_0.
  - pose proof (Hbefore 0%nat it0 ltac:(lia) eq_refl) as Hok0.
    destruct (seek it0) as [st it0']. simpl in Hok0. subst st.
    rewrite (IH k Hk Herr); [done|].
    intros j it' Hj Hit'. apply (Hbefore (S j)); [lia|done].
Qed.

(** The two seeks, as one call on the null sub-iterator and then
    [seek_each] on the flat ones. *)
Lemma seek_run (seek_null : NI → Status * NI) (seek_flat : FI → Status * FI) (r : t) :
  (seek_null_iter seek_null;;
   r ← get;
   for_each (seq 0 (length (_flat_iters r))) (seek_flat_iter seek_flat);;
   mret tt) r
  = match _null_iter r with
    | Some it =>
        match (seek_null it).1 with
        | OK =>
            (status_outcome (seek_each seek_flat (_flat_iters r)).1,
             with_flat_iters (seek_each seek_flat (_flat_iters r)).2
                             (set_null_iter (Some (seek_null it).2) r))
        | Err err => (Failed err, set_null_iter (Some (seek_null it).2) r)
        end
    | None =>
        (status_outcome (seek_each seek_flat (_flat_iters r)).1,
         with_flat_iters (seek_each seek_flat (_flat_iters r)).2 r)
    end.
Proof.
  unfold mbind at 1, M_bind at 1. unfold seek_null_iter at 1. run_monad.
  destruct (_null_iter r) as [it|] eqn:Hnull; simpl.
  - destruct (seek_null it) as [[|err] it'] eqn:Hseek; simpl; [|done].
    pose proof (seek_flat_iters_run seek_flat (_flat_iters r) []
                  (set_null_iter (Some it') r) eq_refl) as Hrun.
    simpl in Hrun. unfold mbind, M_bind. simpl. rewrite Hrun.
    by destruct (seek_each seek_flat (_flat_iters r)) as [[|err] its'].
  - pose proof (seek_flat_iters_run seek_flat (_flat_iters r) [] r eq_refl) as Hrun.
    simpl in Hrun. unfold mbind, M_bind. simpl. rewrite Hrun.
    by destruct (seek_each seek_flat (_flat_iters r)) as [[|err] its'].
Qed.

(** Either seek is the call on the null sub-iterator followed by the
    loop over the flat ones. *)
Lemma seek_as_run (m : SeekMode) (r : t) :
  seek m r
  = (seek_null_iter (sub_seek m);;
     r ← get;
     for_each (seq 0 (length (_flat_iters r))) (seek_flat_iter (sub_seek m));;
     mret tt) r.
Proof. by destruct m. Qed.

(** X13. A seek (to the first row or to an ordinal) whose sub-iterators all
    succeed completes, and has repositioned the null sub-iterator and
    every flat sub-iterator, each exactly once. *)
Theorem seek_repositions_every_sub_iterator (m : SeekMode) (r : t) :
  (∀ it, _null_iter r = Some it → (sub_seek m it).1 = OK) →
  Forall (λ it, (sub_seek m it).1 = OK) (_flat_iters r) →
  seek m r
  = (Done tt,
     with_flat_iters ((λ it, (sub_seek m it).2) <$> _flat_iters r)
                     (set_null_iter ((λ it, (sub_seek m it).2) <$> _null_iter r) r)).
Proof.
  intros Hnull Hflat. rewrite seek_as_run, seek_run.
  rewrite (seek_each_all_ok _ _ Hflat). simpl.
  destruct (_null_iter r) as [it|] eqn:Hit; simpl.
  - by rewrite (Hnull it eq_refl).
  - destruct r. simpl in *. by subst.
Qed.

(** X14. A seek stops at the first flat sub-iterator that fails and returns
    its error: the sub-iterators before it have been repositioned, the
    failing one is as its own seek left it, the ones behind it are where
    they were. *)
Theorem seek_stops_at_first_failure (m : SeekMode) (r : t) k it err :
  (∀ nit, _null_iter r = Some nit → (sub_seek m nit).1 = OK) →
  _flat_iters r !! k = Some it →
  (sub_seek m it).1 = Err err →
  (∀ j it', (j < k)%nat → _flat_iters r !! j = Some it' →
            (sub_seek m it').1 = OK) →
  ∃ r', seek m r = (Failed err, r')
        ∧ _flat_iters r'
          = ((λ it, (sub_seek m it).2) <$> take k (_flat_iters r))
            ++ (sub_seek m it).2 :: drop (S k) (_flat_iters r).
Proof.
  intros Hnull Hk Herr Hbefore. rewrite seek_as_run, seek_run.
  rewrite (seek_each_first_failure _ _ k it err Hk Herr Hbefore). simpl.
  destruct (_null_iter r) as [nit|] eqn:Hit; simpl.
  - rewrite (Hnull nit eq_refl). eexists. split; [done|]. done.
  - eexists. split; [done|]. done.
Qed.

(** X15. A null sub-iterator that fails a seek ends the seek with its error;
    no flat sub-iterator is repositioned. *)
Theorem seek_null_failure_skips_flat_iters (m : SeekMode) (r : t) it err :
  _null_iter r = Some it →
  (sub_seek m it).1 = Err err →
  seek m r
  = (Failed err, set_null_iter (Some (sub_seek m it).2) r).
Proof.
  intros Hit Herr. rewrite seek_as_run, seek_run. by rewrite Hit, Herr.
Qed.

(** *** Errors in the middle of a batch read *)

Lemma read_fn_of_not_failed mode i c (e e1 : Env) err :
  read_fn_of mode i c e ≠ (Failed err, e1).
Proof.
  destruct (_flat_iters (self e) !! i) as [it|] eqn:Hit.
  - by rewrite (read_fn_of_run _ _ _ _ it Hit).
  - destruct mode; simpl; unfold read_next, read_range, read_rowid;
      run_monad; by rewrite Hit.
Qed.

Lemma append_cast_result_not_failed target res source (e e1 : Env) err :
  append_cast_result target res source e ≠ (Failed err, e1).
Proof.
  unfold append_cast_result, append_value_multiple_times, append.
  destruct (only_null res); [done|]. destruct (is_constant res).
  - run_monad. by destruct (Column_rows (const_data_column res) !! 0%nat).
  - by case_decide.
Qed.

Lemma at_index_not_failed {St A} (v : list A) i (s s' : St) err :
  at_index v i s ≠ (Failed err, s').
Proof. unfold at_index. by destruct (v !! i). Qed.

Lemma deref_not_failed {St A} (p : option A) (s s' : St) err :
  deref p s ≠ (Failed err, s').
Proof. by destruct p. Qed.

(** What a round that returns an error has done. *)
Lemma read_and_cast_step_failed mode i chunk (e e2 : Env) err :
  read_and_cast_step (read_fn_of mode) i chunk e = (Failed err, e2) →
  ∃ it plan,
    _flat_iters (self e) !! i = Some it
    ∧ _cast_exprs (self e) !! i = Some plan
    ∧ match plan with
      | None =>
          ∃ c0, flat_columns (json_of (dst e)) !! i = Some c0
            ∧ let sub := sub_read mode it (cnt e) c0 in
              sub.1.1.1 = Err err
              ∧ e2 = after_round i sub.1.1.2 sub.1.2 sub.2 e
      | Some expr =>
          ∃ scratch, _source_columns (self e) !! i = Some (Some scratch)
            ∧ let sub := sub_read mode it (cnt e) (clone_empty scratch) in
              (sub.1.1.1 = Err err
               ∨ (sub.1.1.1 = OK
                  ∧ evaluate_checked expr (append_column chunk sub.2 i) = inl err))
              ∧ e2 = mkEnv (set_flat_iter i sub.1.1.2 (self e)) sub.1.2 (dst e)
      end.
Proof.
  unfold read_and_cast_step. intros Hrun.
  apply bind_failed in Hrun as [Hrun|(e0 & s1 & [= <- <-] & Hrun)]; [done|].
  apply bind_failed in Hrun as [Hrun|(plan & s1 & [Hplan ->]%at_index_done & Hrun)];
    [by apply at_index_not_failed in Hrun|].
  destruct plan as [expr|].
  - apply bind_failed in Hrun as [Hrun|(oscratch & s1 & [Hscr ->]%at_index_done & Hrun)];
      [by apply at_index_not_failed in Hrun|].
    apply bind_failed in Hrun as [Hrun|(scratch & s1 & Hderef & Hrun)];
      [by apply deref_not_failed in Hrun|].
    destruct oscratch as [sc|]; [|done]. injection Hderef as <- <-.
    apply bind_failed in Hrun as [Hrun|([st source] & s1 & Hread & Hrun)];
      [by apply read_fn_of_not_failed in Hrun|].
    apply read_fn_of_done in Hread as (it & Hit & -> & -> & ->).
    set (sub := sub_read mode it (cnt e) (clone_empty sc)) in *.
    exists it, (Some expr). split_and!; try done. exists sc. split; [done|]. fold sub.
    apply bind_failed in Hrun as [Hst|([] & s1 & Hst & Hrun)].
    { destruct (sub.1.1.1) eqn:Hok; [done|]. injection Hst as -> <-. split; [by left|done]. }
    destruct (sub.1.1.1) eqn:Hok; [|done]. injection Hst as <-.
    apply bind_failed in Hrun as [Hres|(res & s1 & Hres & Hrun)].
    { unfold ASSIGN_OR_RETURN in Hres.
      destruct (evaluate_checked _ _) as [err'|res'] eqn:Heval; [|done].
      injection Hres as -> <-. split; [right; done|done]. }
    unfold ASSIGN_OR_RETURN in Hres.
    destruct (evaluate_checked _ _) as [?|res'] eqn:Heval; [done|]. injection Hres as <- <-.
    apply bind_failed in Hrun as [Hget|(c0 & s1 & Hget & Hrun)].
    { unfold get_flat_field in Hget.
      apply bind_failed in Hget as [Hget|(? & ? & [= <- <-] & Hget)]; [done|].
      by apply at_index_not_failed in Hget. }
    unfold get_flat_field in Hget.
    apply bind_done in Hget as (? & ? & [= <- <-] & [Hc0 ->]%at_index_done).
    apply bind_failed in Hrun as [Happ|(tgt & s1 & Happ & Hrun)];
      [by apply append_cast_result_not_failed in Happ|].
    apply append_cast_result_done in Happ as [-> ->].
    apply bind_failed in Hrun as [Hrun|([] & s1 & [= <-] & Hrun)]; [done|].
    apply bind_failed in Hrun as [Hrun|(? & ? & [= <- <-] & Hrun)]; [done|].
    apply bind_failed in Hrun as [Hrun|([] & s1 & _ & Hrun)];
      [by apply DCHECK_not_failed in Hrun|done].
  - apply bind_failed in Hrun as [Hget|(c0 & s1 & Hget & Hrun)].
    { unfold get_flat_field in Hget.
      apply bind_failed in Hget as [Hget|(? & ? & [= <- <-] & Hget)]; [done|].
      by apply at_index_not_failed in Hget. }
    unfold get_flat_field in Hget.
    apply bind_done in Hget as (? & ? & [= <- <-] & [Hc0 ->]%at_index_done).
    apply bind_failed in Hrun as [Hrun|([st c'] & s1 & Hread & Hrun)];
      [by apply read_fn_of_not_failed in Hrun|].
    apply read_fn_of_done in Hread as (it & Hit & -> & -> & ->).
    set (sub := sub_read mode it (cnt e) c0) in *.
    exists it, None. split_and!; try done. exists c0. split; [done|]. fold sub.
    apply bind_failed in Hrun as [Hrun|([] & s1 & [= <-] & Hrun)]; [done|].
    apply bind_failed in Hrun as [Hst|([] & s1 & Hst & Hrun)]; [|done].
    destruct (sub.1.1.1) eqn:Hok; [done|]. by injection Hst as -> <-.
Qed.

Lemma read_and_cast_loop_failed mode k : ∀ a chunk (e e' : Env) err,
  read_and_cast_loop (read_fn_of mode) (seq a k) chunk e = (Failed err, e') →
  ∃ i chunk_i (e1 : Env),
    (a ≤ i < a + k)%nat
    ∧ (∀ j, (i ≤ j)%nat → same_at j e e1)
    ∧ same_plan e e1
    ∧ read_and_cast_step (read_fn_of mode) i chunk_i e1 = (Failed err, e').
Proof.
  induction k as [|k IH]; intros a chunk e e' err Hrun; simpl in Hrun; [done|].
  apply bind_failed in Hrun as [Hstep|(chunk1 & em & Hstep & Hrest)].
  - exists a, chunk, e. split_and!; try done. lia.
  - pose proof (read_and_cast_step_frame _ _ _ _ _ _ Hstep) as [Hplan Hframe].
    apply IH in Hrest as (i & chunk_i & e1 & Hi & Hf & Hp & Hs).
    exists i, chunk_i, e1. split_and!.
    + lia.
    + lia.
    + intros j Hj. eapply same_at_trans; [apply Hframe|apply Hf]; lia.
    + by eapply same_plan_trans.
    + done.
Qed.

Lemma read_null_column_failed mode it (e e0 : Env) err :
  read_null_column it (null_of (dst e)) (sub_read mode it (cnt e))
                   (sub_read_null mode it (cnt e)) e = (Failed err, e0) →
  null_read_answer mode it e = inr (Err err)
  ∧ json_of (dst e0) = json_of (dst e)
  ∧ _flat_iters (self e0) = _flat_iters (self e).
Proof.
  unfold null_read_answer. destruct (dst e) as [nc|jc] eqn:Hdst; simpl.
  - rewrite (read_null_column_run _ _ _ _ _ nc Hdst).
    destruct ((sub_read mode it (cnt e) (null_column nc)).1.1.1) eqn:Hst; [done|].
    intros [= -> <-]. split_and!; try done.
  - rewrite (read_null_column_null _ _ _ _ jc Hdst).
    destruct (sub_read_null mode it (cnt e)) as [f|[[[|err'] it'] n']]; try done.
    intros [= -> <-]. by rewrite Hdst.
Qed.

(** A batch read that returns an error: the null sub-iterator failed, or
    [_read_and_cast] did after a null phase that completed. *)
Lemma batch_read_failed mode (e e' : Env) err :
  batch_read mode e = (Failed err, e') →
  (∃ it, _null_iter (self e) = Some it
         ∧ null_read_answer mode it e = inr (Err err)
         ∧ json_of (dst e') = json_of (dst e)
         ∧ _flat_iters (self e') = _flat_iters (self e))
  ∨ ∃ e0, null_phase mode e e0
          ∧ _read_and_cast (read_fn_of mode) e0 = (Failed err, e').
Proof.
  intros Hrun. destruct mode as [|range|rowids]; simpl in Hrun.
  - unfold next_batch in Hrun.
    apply bind_failed in Hrun as [Hrun|(? & ? & [= <- <-] & Hrun)]; [done|].
    apply bind_failed in Hrun as [Hnull|([] & e0 & Hnull & Hrun)].
    + left. destruct (_null_iter (self e)) as [it|] eqn:Hit; [|done].
      apply (read_null_column_failed NextN) in Hnull as (? & ? & ?).
      by exists it.
    + right. exists e0. split; [|done].
      destruct (_null_iter (self e)) as [it|] eqn:Hit.
      * by eapply (read_null_column_done NextN).
      * injection Hnull as <-. by apply null_phase_none.
  - unfold next_batch_range in Hrun.
    apply bind_failed in Hrun as [Hrun|(? & ? & [= <- <-] & Hrun)]; [done|].
    apply bind_failed in Hrun as [Hcheck|([] & ? & Hcheck & Hrun)].
    { unfold CHECK in Hcheck. by case_bool_decide. }
    unfold CHECK in Hcheck. case_bool_decide; [|done]. injection Hcheck as <-.
    apply bind_failed in Hrun as [Hnull|([] & e0 & Hnull & Hrun)].
    + left. destruct (_null_iter (self e)) as [it|] eqn:Hit; [|done].
      apply (read_null_column_failed (ByRange range)) in Hnull as (? & ? & ?).
      by exists it.
    + right. exists e0. split; [|done].
      destruct (_null_iter (self e)) as [it|] eqn:Hit.
      * by eapply (read_null_column_done (ByRange range)).
      * injection Hnull as <-. by apply null_phase_none.
  - unfold fetch_values_by_rowid in Hrun.
    apply bind_failed in Hrun as [Hrun|(? & ? & [= <- <-] & Hrun)]; [done|].
    apply bind_failed in Hrun as [Hnull|([] & e0 & Hnull & Hrun)].
    + left. destruct (_null_iter (self e)) as [it|] eqn:Hit.
      * apply bind_failed in Hnull as [Hcast|(nc & ? & Hcast & Hnull)].
        { by destruct (dst e). }
        destruct (dst e) as [nc'|] eqn:Hdst; [|done]. injection Hcast as <- <-.
        assert (Some (null_column nc') = null_of (dst e)) as Hnc by (by rewrite Hdst).
        rewrite Hnc in Hnull.
        apply (read_null_column_failed (ByRowid rowids)) in Hnull as (? & Hj & ?).
        exists it. rewrite Hdst in Hj. by split_and!.
      * apply bind_failed in Hnull as [Hcast|(? & ? & _ & ?)]; [|done].
        by destruct (dst e).
    + right. exists e0. split; [|done].
      destruct (_null_iter (self e)) as [it|] eqn:Hit.
      * apply bind_done in Hnull as (nc & ? & Hcast & Hnull).
        destruct (dst e) as [nc'|] eqn:Hdst; [|done]. injection Hcast as <- <-.
        eapply (read_null_column_done (ByRowid rowids)); [done..|by rewrite Hdst].
      * apply bind_done in Hnull as (? & ? & Hcast & [= <-]).
        destruct (dst e); [done|]. injection Hcast as _ <-.
        by apply null_phase_none.
Qed.

(** X16. The error of a batch read is the error of one of its collaborators:
    of the null sub-iterator, in which case no flat field and no flat
    sub-iterator has been touched, or of a flat sub-iterator or of the cast
    of its field, in which case the fields and sub-iterators behind it
    have not been touched. *)
Theorem batch_read_error_comes_from_collaborator mode (e e' : Env) err :
  batch_read mode e = (Failed err, e') →
  (∃ it, _null_iter (self e) = Some it
         ∧ null_read_answer mode it e = inr (Err err)
         ∧ json_of (dst e') = json_of (dst e)
         ∧ _flat_iters (self e') = _flat_iters (self e))
  ∨ ∃ i it n c,
      _flat_iters (self e) !! i = Some it
      ∧ ((sub_read mode it n c).1.1.1 = Err err
         ∨ ∃ expr chunk, _cast_exprs (self e) !! i = Some (Some expr)
                         ∧ evaluate_checked expr chunk = inl err)
      ∧ ∀ j, (i < j)%nat →
             flat_columns (json_of (dst e')) !! j
             = flat_columns (init_flat_columns (_flat_paths (self e)) (_target_types (self e))
                                               (json_of (dst e))) !! j
             ∧ _flat_iters (self e') !! j = _flat_iters (self e) !! j.
Proof.
  intros [Hnull|(e0 & Hnull & Hcast)]%batch_read_failed; [by left|right].
  destruct Hnull as (Hiters & Hplan & Hsrc & Hpaths & Htypes & Hjson & _).
  unfold _read_and_cast in Hcast.
  apply bind_failed in Hcast as [Hcast|(? & ? & [= <- <-] & Hcast)]; [done|].
  apply bind_failed in Hcast as [Hcast|([] & ? & [= <-] & Hloop)]; [done|].
  apply read_and_cast_loop_failed in Hloop as (i & chunk & e1 & Hi & Hf & Hp & Hstep).
  apply read_and_cast_step_failed in Hstep as (it & plan & Hit & Hplan1 & Hcase).
  destruct (Hf i) as [_ Hit1]; [lia|]. simpl in Hit1.
  destruct Hp as (Hp & _).
  assert (∀ j, (i < j)%nat → same_at j e1 e') as Hafter.
  { intros j Hj. destruct plan as [expr|].
    - destruct Hcase as (scratch & _ & _ & ->). split; simpl; [done|].
      by rewrite list_lookup_insert_ne by lia.
    - destruct Hcase as (c0 & _ & _ & ->). apply after_round_same_at. lia. }
  assert (∀ j, (i < j)%nat →
               flat_columns (json_of (dst e')) !! j
               = flat_columns (init_flat_columns (_flat_paths (self e))
                                                 (_target_types (self e))
                                                 (json_of (dst e))) !! j
               ∧ _flat_iters (self e') !! j = _flat_iters (self e) !! j) as Hrest.
  { intros j Hj. destruct (Hafter j Hj) as [Hc Hi']. destruct (Hf j) as [Hc1 Hi1]; [lia|].
    simpl in Hc1, Hi1. rewrite json_of_with_json in Hc1. split; congruence. }
  destruct plan as [expr|].
  - destruct Hcase as (scratch & Hscr & [Herr|[Hok Heval]] & ->).
    + exists i, it, (cnt e1), (clone_empty scratch). split_and!; [congruence|by left|done].
    + exists i, it, (cnt e1), (clone_empty scratch). split_and!; [congruence| |done].
      right. eexists expr, _. split; [|exact Heval]. simpl in *. congruence.
  - destruct Hcase as (c0 & Hc0 & Herr & ->).
    exists i, it, (cnt e1), c0. split_and!; [congruence|by left|done].
Qed.
End FlatMore.

Section DynamicMore.
Import JsonDynamicFlatIterator.
Context `{Collaborators} {JI : Type} `{!ColumnIterator JI DocColumn}.
#[local] Abbreviation dt := (JsonDynamicFlatIterator.t (JI := JI)).
#[local] Abbreviation DEnv := (JsonDynamicFlatIterator.Env (JI := JI)).

Lemma dynamic_batch_read_as_proxy mode (e : DEnv) :
  batch_read mode e = read_via_proxy (sub_read mode) e.
Proof. by destruct mode. Qed.

(** X17. When the raw-document sub-iterator of the Runtime-Flat Reader fails,
    the batch read returns its error and the destination is as it was: no
    flat field is made, nothing is flattened and no time is counted. *)
Theorem runtime_read_failure_leaves_destination mode (e : DEnv) err :
  let sub := sub_read mode (_json_iter (self e)) (cnt e) (doc_clone_empty (dst e)) in
  sub.1.1.1 = Err err →
  batch_read mode e
  = (Failed err, mkEnv (set_json_iter sub.1.1.2 (self e)) sub.1.2 (dst e)
                       (stats e) (flatten_time e)).
Proof.
  intros sub Herr. rewrite dynamic_batch_read_as_proxy. unfold read_via_proxy. run_monad.
  fold sub. destruct sub as [[[st it'] n'] proxy]. simpl in *. by subst st.
Qed.

(** X18. When the raw-document sub-iterator succeeds (and hands back a
    null-wrapped proxy for a null-wrapped destination), the runtime batch
    read of a reader that has been initialised completes; the flat fields
    of the destination are what the flattener makes of the proxy over the
    fields [init_flat_columns] made, the destination stays null-wrapped or
    bare as it was, the count is the one the sub-iterator reported, and
    the time the flattening took is added to [json_flatten_ns].  On a
    reader that was never initialised the timer writes through a null
    pointer. *)
Theorem runtime_batch_read_flattens_proxy mode (e : DEnv) :
  let sub := sub_read mode (_json_iter (self e)) (cnt e) (doc_clone_empty (dst e)) in
  let own := batch_read mode e in
  let j0 := init_flat_columns (_flat_paths (self e)) (_target_types (self e))
              (json_of (doc_set_delete_state (doc_delete_state sub.2) (dst e))) in
  sub.1.1.1 = OK →
  (is_nullable (dst e) = true → is_nullable sub.2 = true) →
  match _opts (self e) with
  | Some _ =>
      own.1 = Done tt
      ∧ json_of (dst own.2)
        = set_flat_columns (flatten (_flattener (self e)) sub.2 (flat_columns j0)) j0
      ∧ is_nullable (dst own.2) = is_nullable (dst e)
      ∧ self own.2 = set_json_iter sub.1.1.2 (self e)
      ∧ cnt own.2 = sub.1.2
      ∧ stats own.2
        = mkStats (flat_json_hits (stats e)) (dynamic_json_hits (stats e))
                  (json_flatten_ns (stats e) + flatten_time e)
  | None => own.1 = Crashed NullPointer
  end.
Proof.
  intros sub own j0 Hok Hshape. subst own. rewrite dynamic_batch_read_as_proxy.
  unfold read_via_proxy. run_monad. subst j0. fold sub.
  destruct sub as [[[st it'] n'] proxy]. simpl in *. subst st. simpl.
  unfold _flat_json, SCOPED_RAW_TIMER. run_monad.
  destruct (dst e) as [nc|jc]; simpl.
  - destruct proxy as [pnc|pjc]; [|by specialize (Hshape eq_refl)]. simpl.
    by destruct (_opts (self e)).
  - by destruct (_opts (self e)).
Qed.

(** X19. Whatever a batch read or a seek of the Runtime-Flat Reader does, the
    reader keeps its flat paths, target types, access path and
    flattener. *)
Theorem runtime_reads_keep_descriptors mode (ord : Z) :
  keeps (λ e : DEnv, (_flat_paths (self e), _target_types (self e), _path (self e),
                      _flattener (self e))) (batch_read mode)
  ∧ keeps (λ r : dt, (_flat_paths r, _target_types r, _path r, _flattener r)) seek_to_first
  ∧ keeps (λ r : dt, (_flat_paths r, _target_types r, _path r, _flattener r))
          (seek_to_ordinal ord).
Proof.
  split_and!.
  - assert (batch_read mode = read_via_proxy (sub_read mode)) as -> by (by destruct mode).
    unfold read_via_proxy.
    apply keeps_bind; [keeps_step|intros e].
    destruct (sub_read mode _ _ _) as [[[st it'] n'] proxy].
    apply keeps_bind; [by keeps_step|intros _].
    apply keeps_bind; [keeps_step|intros _].
    apply keeps_bind; [by keeps_step|intros _].
    unfold _flat_json, SCOPED_RAW_TIMER.
    apply keeps_bind; [|intros _].
    { apply keeps_bind; [keeps_step|intros e1].
      apply keeps_bind; [|intros _].
      { destruct (is_nullable (dst e1)).
        - unfold down_cast_nullable.
          destruct (dst e1); [|keeps_step].
          apply keeps_bind; [keeps_step|intros ?].
          destruct proxy; [|keeps_step].
          apply keeps_bind; [keeps_step|intros ?]. by keeps_step.
        - unfold down_cast_json. destruct (dst e1); repeat keeps_step. }
      apply keeps_bind; [by keeps_step|intros _].
      apply keeps_bind; [by keeps_step|intros _]. keeps_step. }
    apply keeps_bind; [keeps_step|intros e2].
    apply keeps_bind; [keeps_step|intros ?]. by keeps_step.
  - intros r o r'. unfold seek_to_first. run_monad.
    destruct (iter_seek_to_first _) as [[|err] it']; by intros [= <- <-].
  - intros r o r'. unfold seek_to_ordinal. run_monad.
    destruct (iter_seek_to_ordinal _ _) as [[|err] it']; by intros [= <- <-].
Qed.
End DynamicMore.

(** X20. The hit counter both [init] functions update: [k] hits on a path add
    [k] to its count (starting from zero for a path not yet counted), a
    hit leaves the count of every other path alone, and hits on two paths
    can be counted in either order. *)
Theorem count_hit_adds_up (p q : string) (hits : gmap string Z) (k : nat) :
  q ≠ p →
  Nat.iter (S k) (count_hit p) hits !! p = Some (default 0 (hits !! p) + Z.of_nat (S k))
  ∧ Nat.iter k (count_hit p) hits !! q = hits !! q
  ∧ count_hit p (count_hit q hits) = count_hit q (count_hit p hits).
Proof.
  intros Hne.
  assert (∀ a m, count_hit a m !! a = Some (default 0 (m !! a) + 1)) as Hsame.
  { intros a m. unfold count_hit. destruct (m !! a); simpl; by rewrite lookup_insert_eq. }
  assert (∀ a b m, a ≠ b → count_hit a m !! b = m !! b) as Hother.
  { intros a b m Hab. unfold count_hit. destruct (m !! a); by rewrite lookup_insert_ne. }
  split_and!.
  - induction k as [|k IH]; [simpl; by rewrite Hsame|].
    change (Nat.iter (S (S k)) (count_hit p) hits)
      with (count_hit p (Nat.iter (S k) (count_hit p) hits)).
    rewrite Hsame, IH. simpl. f_equal. lia.
  - induction k as [|k IH]; [done|]. simpl. by rewrite Hother.
  - apply map_eq. intros x.
    destruct (decide (x = p)) as [->|Hxp]; [|destruct (decide (x = q)) as [->|Hxq]].
    + rewrite Hsame, !(Hother q p) by done. by rewrite Hsame.
    + rewrite !(Hother p q) by done. rewrite !Hsame. by rewrite (Hother p q).
    + by rewrite !Hother.
Qed.

(** ** The further facts at work *)

Section MoreRuns.
Import Fixture Demo.
#[local] Existing Instance Demo.E.
#[local] Existing Instance Demo.C.
#[local] Existing Instance Demo.flat_iterator.
#[local] Existing Instance Demo.null_iterator.
#[local] Existing Instance Demo.json_iterator.

(** Witness of X10: the second field of the demo reader is an integer
    asked for as a string. *)
Lemma init_plans_cast_for_differing_types_witness :
  JsonFlatColumnIterator.init tt (JsonFlatColumnIterator.mkInit flat_reader no_stats)
  = (Done tt, flat_initialised)
  ∧ length (JsonFlatColumnIterator._cast_exprs
              (JsonFlatColumnIterator.init_self flat_initialised)) = 4%nat
  ∧ JsonFlatColumnIterator._cast_exprs (JsonFlatColumnIterator.init_self flat_initialised)
      !! 1%nat = Some (from_type TYPE_INT TYPE_VARCHAR 1%nat)
  ∧ JsonFlatColumnIterator._source_columns (JsonFlatColumnIterator.init_self flat_initialised)
      !! 1%nat = Some (Some (create_column TYPE_INT)).
Proof.
  destruct (init_plans_cast_for_differing_types
              (mkColumnReader 1000)
              (JsonFlatColumnIterator._null_iter flat_reader)
              (JsonFlatColumnIterator._flat_iters flat_reader)
              (JsonFlatColumnIterator._flat_paths flat_reader)
              (JsonFlatColumnIterator._target_types flat_reader)
              (JsonFlatColumnIterator._source_types flat_reader)
              doc_path tt no_stats flat_initialised flat_reader_init_run)
    as (Hlen & _ & Hcast).
  destruct (Hcast 1%nat TYPE_VARCHAR TYPE_INT eq_refl eq_refl) as [Hplan Hscratch];
    [discriminate|].
  split_and!; [exact flat_reader_init_run | exact Hlen | exact Hplan | exact Hscratch].
Defined.

(** Witness of X11. *)
Lemma init_needs_path_and_aligned_types_witness :
  JsonFlatColumnIterator.init tt (JsonFlatColumnIterator.mkInit flat_reader no_stats)
  = (Done tt, flat_initialised)
  ∧ is_Some (JsonFlatColumnIterator._path flat_reader)
  ∧ length (JsonFlatColumnIterator._target_types flat_reader)
    = length (JsonFlatColumnIterator._source_types flat_reader).
Proof.
  destruct (init_needs_path_and_aligned_types (H := Demo.E) tt
              (JsonFlatColumnIterator.mkInit flat_reader no_stats) flat_initialised
              flat_reader_init_run) as (Hpath & _ & Hlen).
  split_and!; [exact flat_reader_init_run | exact Hpath | exact (Hlen eq_refl)].
Defined.

(** Witness of X12: the demo reader counts its one hit under the path of
    the column. *)
Lemma init_counts_hit_only_on_success_witness :
  JsonFlatColumnIterator.init tt (JsonFlatColumnIterator.mkInit flat_reader no_stats)
  = (Done tt, flat_initialised)
  ∧ JsonFlatColumnIterator.init_stats flat_initialised
    = mkStats (count_hit "doc" ∅) ∅ 0.
Proof.
  assert (∀ (it : Stub Z) st, (iter_init it tt st).2 = st) as Hnull
    by (intros it st; reflexivity).
  assert (∀ (it : Stub (option Value)) st, (iter_init it tt st).2 = st) as Hflat
    by (intros it st; reflexivity).
  destruct (init_counts_hit_only_on_success (H := Demo.E) tt flat_reader no_stats (Done tt) flat_initialised
              Hnull Hflat flat_reader_init_run) as (p & Hp & Hstats).
  injection Hp as <-.
  split; [exact flat_reader_init_run | exact Hstats].
Defined.

(** Witness of X2: the three null flags of the demo reader. *)
Lemma batch_read_fills_null_column_witness :
  JsonFlatColumnIterator.batch_read NextN flat_env = (Done tt, flat_env_read)
  ∧ JsonFlatColumnIterator._null_iter (JsonFlatColumnIterator.self flat_env)
    = Some (mkStub [0; 0; 1] 0%nat OK)
  ∧ JsonFlatColumnIterator.dst flat_env
    = Nullable (mkNullableColumn (empty_json false) [] false false)
  ∧ wrapper (JsonFlatColumnIterator.dst flat_env_read) = Some ([0; 0; 1], true, false)
  ∧ JsonFlatColumnIterator._null_iter (JsonFlatColumnIterator.self flat_env_read)
    = Some (mkStub [0; 0; 1] 3%nat OK).
Proof.
  assert (JsonFlatColumnIterator._null_iter (JsonFlatColumnIterator.self flat_env)
          = Some (mkStub [0; 0; 1] 0%nat OK)) as Hit by (vm_compute; reflexivity).
  destruct (batch_read_fills_null_column NextN flat_env flat_env_read
              (mkStub [0; 0; 1] 0%nat OK)
              (mkNullableColumn (empty_json false) [] false false)
              flat_env_run Hit eq_refl) as (_ & Hwrapper & Hnull).
  split_and!; [exact flat_env_run | exact Hit | reflexivity | exact Hwrapper | exact Hnull].
Defined.

(** Witness of X5: the second flat sub-iterator of the demo reader. *)
Lemma batch_read_advances_each_sub_iterator_witness :
  JsonFlatColumnIterator.batch_read NextN flat_env = (Done tt, flat_env_read)
  ∧ (1 < length (JsonFlatColumnIterator._flat_iters (JsonFlatColumnIterator.self flat_env)))%nat
  ∧ ∃ n c,
      (sub_read NextN (mkStub [Some (IntVal 1); Some (IntVal 2); None] 0%nat OK) n c).1.1.1 = OK
      ∧ JsonFlatColumnIterator._flat_iters (JsonFlatColumnIterator.self flat_env_read) !! 1%nat
        = Some (sub_read NextN (mkStub [Some (IntVal 1); Some (IntVal 2); None] 0%nat OK)
                         n c).1.1.2.
Proof.
  assert (1 < length (JsonFlatColumnIterator._flat_iters
                        (JsonFlatColumnIterator.self flat_env)))%nat as Hlen
    by (vm_compute; lia).
  destruct (batch_read_advances_each_sub_iterator NextN flat_env flat_env_read 1%nat
              flat_env_run Hlen) as (it & n & c & plan & Hit & _ & _ & Hok & Hafter).
  vm_compute in Hit. injection Hit as <-.
  split_and!; [exact flat_env_run | exact Hlen |].
  exists n, c. split; [exact Hok | exact Hafter].
Defined.

(** Witness of X6: the demo reader is asked for five rows and reports
    the three its last sub-iterator had. *)
Lemma next_batch_reports_last_count_witness :
  JsonFlatColumnIterator.batch_read NextN flat_env = (Done tt, flat_env_read)
  ∧ JsonFlatColumnIterator._flat_iters (JsonFlatColumnIterator.self flat_env)
    = [mkStub [Some (IntVal 7); Some (IntVal 8); Some (IntVal 9)] 0%nat OK;
       mkStub [Some (IntVal 1); Some (IntVal 2); None] 0%nat OK;
       mkStub [Some (StrVal "x"); Some (StrVal "y"); None] 0%nat OK]
      ++ [mkStub [Some (IntVal 4); Some (IntVal 5); Some (IntVal 6)] 0%nat OK]
  ∧ ∃ n c,
      JsonFlatColumnIterator.cnt flat_env_read
      = (iter_next_batch (mkStub [Some (IntVal 4); Some (IntVal 5); Some (IntVal 6)] 0%nat OK)
                         n c).1.2.
Proof.
  assert (JsonFlatColumnIterator._flat_iters (JsonFlatColumnIterator.self flat_env)
          = [mkStub [Some (IntVal 7); Some (IntVal 8); Some (IntVal 9)] 0%nat OK;
             mkStub [Some (IntVal 1); Some (IntVal 2); None] 0%nat OK;
             mkStub [Some (StrVal "x"); Some (StrVal "y"); None] 0%nat OK]
            ++ [mkStub [Some (IntVal 4); Some (IntVal 5); Some (IntVal 6)] 0%nat OK]) as Hits
    by (vm_compute; reflexivity).
  destruct (next_batch_reports_last_count flat_env flat_env_read _ _ flat_env_run Hits)
    as (n & c & _ & _ & Hcnt).
  split_and!; [exact flat_env_run | exact Hits |].
  exists n, c. exact Hcnt.
Defined.

(** Witness of X7. *)
Lemma batch_read_needs_plan_and_fields_witness :
  JsonFlatColumnIterator.batch_read NextN flat_env = (Done tt, flat_env_read)
  ∧ (length (JsonFlatColumnIterator._flat_iters (JsonFlatColumnIterator.self flat_env))
     ≤ length (JsonFlatColumnIterator._cast_exprs (JsonFlatColumnIterator.self flat_env)))%nat
  ∧ length (flat_columns (json_of (JsonFlatColumnIterator.dst flat_env_read))) = 4%nat.
Proof.
  destruct (batch_read_needs_plan_and_fields NextN flat_env flat_env_read flat_env_run)
    as (Hplan & _ & Hlen & _).
  split_and!; [exact flat_env_run | exact Hplan | exact Hlen].
Defined.

(** Witness of X8: the cast of the second field of the demo reader
    gives a column that is neither constant nor entirely null. *)
Lemma plain_cast_result_is_copied_witness :
  JsonFlatColumnIterator.batch_read NextN flat_env = (Done tt, flat_env_read)
  ∧ (1 < length (JsonFlatColumnIterator._flat_iters (JsonFlatColumnIterator.self flat_env)))%nat
  ∧ JsonFlatColumnIterator._cast_exprs (JsonFlatColumnIterator.self flat_env) !! 1%nat
    = Some (Some (mkCast TYPE_INT TYPE_VARCHAR 1))
  ∧ ∃ it n c0 scratch chunk res,
      JsonFlatColumnIterator._flat_iters (JsonFlatColumnIterator.self flat_env) !! 1%nat
      = Some it
      ∧ flat_columns
          (init_flat_columns
             (JsonFlatColumnIterator._flat_paths (JsonFlatColumnIterator.self flat_env))
             (JsonFlatColumnIterator._target_types (JsonFlatColumnIterator.self flat_env))
             (json_of (JsonFlatColumnIterator.dst flat_env))) !! 1%nat = Some c0
      ∧ JsonFlatColumnIterator._source_columns (JsonFlatColumnIterator.self flat_env) !! 1%nat
        = Some (Some scratch)
      ∧ let sub := sub_read NextN it n (clone_empty scratch) in
        let source := sub.2 in
        sub.1.1.1 = OK
        ∧ evaluate_checked (mkCast TYPE_INT TYPE_VARCHAR 1) (append_column chunk source 1%nat)
          = inr res
        ∧ (only_null res = false → is_constant res = false →
           (Column_size source ≤ Column_size res)%nat
           ∧ ∃ c, flat_columns (json_of (JsonFlatColumnIterator.dst flat_env_read)) !! 1%nat
                  = Some c
               ∧ Column_rows c
                 = Column_rows c0 ++ take (Column_size source) (Column_rows res)).
Proof.
  split_and!.
  - exact flat_env_run.
  - vm_compute. lia.
  - vm_compute. reflexivity.
  - apply (plain_cast_result_is_copied NextN flat_env flat_env_read 1%nat
             (mkCast TYPE_INT TYPE_VARCHAR 1) flat_env_run).
    + vm_compute. lia.
    + vm_compute. reflexivity.
Defined.

(** Witness of X9. *)
Lemma cast_field_takes_delete_state_witness :
  JsonFlatColumnIterator.batch_read NextN flat_env = (Done tt, flat_env_read)
  ∧ (1 < length (JsonFlatColumnIterator._flat_iters (JsonFlatColumnIterator.self flat_env)))%nat
  ∧ JsonFlatColumnIterator._cast_exprs (JsonFlatColumnIterator.self flat_env) !! 1%nat
    = Some (Some (mkCast TYPE_INT TYPE_VARCHAR 1))
  ∧ ∃ it n c0 scratch c,
      JsonFlatColumnIterator._flat_iters (JsonFlatColumnIterator.self flat_env) !! 1%nat
      = Some it
      ∧ flat_columns
          (init_flat_columns
             (JsonFlatColumnIterator._flat_paths (JsonFlatColumnIterator.self flat_env))
             (JsonFlatColumnIterator._target_types (JsonFlatColumnIterator.self flat_env))
             (json_of (JsonFlatColumnIterator.dst flat_env))) !! 1%nat = Some c0
      ∧ JsonFlatColumnIterator._source_columns (JsonFlatColumnIterator.self flat_env) !! 1%nat
        = Some (Some scratch)
      ∧ flat_columns (json_of (JsonFlatColumnIterator.dst flat_env_read)) !! 1%nat = Some c
      ∧ let source := (sub_read NextN it n (clone_empty scratch)).2 in
        delete_state c = delete_state source
        ∧ Column_size c = (Column_size c0 + Column_size source)%nat.
Proof.
  split_and!.
  - exact flat_env_run.
  - vm_compute. lia.
  - vm_compute. reflexivity.
  - apply (cast_field_takes_delete_state NextN flat_env flat_env_read 1%nat
             (mkCast TYPE_INT TYPE_VARCHAR 1) flat_env_run).
    + vm_compute. lia.
    + vm_compute. reflexivity.
Defined.

(** Witness of X13: the demo reader, sent to ordinal 2. *)
Lemma seek_repositions_every_sub_iterator_witness :
  (∀ it, JsonFlatColumnIterator._null_iter flat_reader = Some it
         → (sub_seek (SeekOrdinal 2) it).1 = OK)
  ∧ Forall (λ it, (sub_seek (SeekOrdinal 2) it).1 = OK)
           (JsonFlatColumnIterator._flat_iters flat_reader)
  ∧ (JsonFlatColumnIterator.seek (SeekOrdinal 2) flat_reader).1 = Done tt
  ∧ stub_pos <$> JsonFlatColumnIterator._flat_iters
                   (JsonFlatColumnIterator.seek (SeekOrdinal 2) flat_reader).2
    = [2; 2; 2; 2]%nat.
Proof.
  assert (∀ it, JsonFlatColumnIterator._null_iter flat_reader = Some it
                → (sub_seek (SeekOrdinal 2) it).1 = OK) as Hnull
    by (intros it _; reflexivity).
  assert (Forall (λ it, (sub_seek (SeekOrdinal 2) it).1 = OK)
                 (JsonFlatColumnIterator._flat_iters flat_reader)) as Hflat
    by (repeat constructor).
  pose proof (seek_repositions_every_sub_iterator (SeekOrdinal 2) flat_reader Hnull Hflat)
    as Hrun.
  split_and!; [exact Hnull | exact Hflat | |]; rewrite Hrun; vm_compute; reflexivity.
Defined.

(** Witness of X18: the demo runtime reader, after [init] and as the
    constructor left it. *)
Lemma runtime_batch_read_flattens_proxy_witness :
  (sub_read NextN (JsonDynamicFlatIterator._json_iter (JsonDynamicFlatIterator.self dynamic_env))
            (JsonDynamicFlatIterator.cnt dynamic_env)
            (doc_clone_empty (JsonDynamicFlatIterator.dst dynamic_env))).1.1.1 = OK
  ∧ JsonDynamicFlatIterator._opts (JsonDynamicFlatIterator.self dynamic_env) = Some tt
  ∧ (JsonDynamicFlatIterator.batch_read NextN dynamic_env).1 = Done tt
  ∧ JsonDynamicFlatIterator.cnt (JsonDynamicFlatIterator.batch_read NextN dynamic_env).2 = 3%N
  ∧ json_flatten_ns
      (JsonDynamicFlatIterator.stats (JsonDynamicFlatIterator.batch_read NextN dynamic_env).2)
    = 250
  ∧ JsonDynamicFlatIterator._opts (JsonDynamicFlatIterator.self dynamic_env_without_init)
    = None
  ∧ (JsonDynamicFlatIterator.batch_read NextN dynamic_env_without_init).1
    = Crashed NullPointer.
Proof.
  assert ((sub_read NextN
             (JsonDynamicFlatIterator._json_iter (JsonDynamicFlatIterator.self dynamic_env))
             (JsonDynamicFlatIterator.cnt dynamic_env)
             (doc_clone_empty (JsonDynamicFlatIterator.dst dynamic_env))).1.1.1 = OK) as Hok
    by reflexivity.
  assert ((sub_read NextN
             (JsonDynamicFlatIterator._json_iter
                (JsonDynamicFlatIterator.self dynamic_env_without_init))
             (JsonDynamicFlatIterator.cnt dynamic_env_without_init)
             (doc_clone_empty (JsonDynamicFlatIterator.dst dynamic_env_without_init))).1.1.1
          = OK) as Hok' by reflexivity.
  pose proof (runtime_batch_read_flattens_proxy NextN dynamic_env Hok (λ _, eq_refl)) as Hrun.
  pose proof (runtime_batch_read_flattens_proxy NextN dynamic_env_without_init Hok'
                (λ _, eq_refl)) as Hcrash.
  assert (JsonDynamicFlatIterator._opts (JsonDynamicFlatIterator.self dynamic_env) = Some tt)
    as Hopts by (vm_compute; reflexivity).
  rewrite Hopts in Hrun. destruct Hrun as (Hdone & _ & _ & _ & Hcnt & Hstats).
  split_and!; [exact Hok | exact Hopts | exact Hdone | exact Hcnt | | reflexivity
               | exact Hcrash].
  rewrite Hstats. vm_compute. reflexivity.
Defined.

(** Witness of X20. *)
Lemma count_hit_adds_up_witness :
  "b" ≠ "a"
  ∧ Nat.iter 3 (count_hit "a") (∅ : gmap string Z) !! "a" = Some 3
  ∧ count_hit "a" (count_hit "b" (∅ : gmap string Z)) = count_hit "b" (count_hit "a" ∅).
Proof.
  assert ("b" ≠ "a") as Hne by discriminate.
  destruct (count_hit_adds_up "a" "b" ∅ 2 Hne) as (Hsum & _ & Hcomm).
  split_and!; [exact Hne | exact Hsum | exact Hcomm].
Defined.
End MoreRuns.

(** ** Sub-iterators that fail *)

Section FailingRuns.
Import Fixture Probe.
#[local] Existing Instance Probe.E.
#[local] Existing Instance Probe.C.
#[local] Existing Instance Probe.flat_iterator.
#[local] Existing Instance Probe.null_iterator.
#[local] Existing Instance Probe.json_iterator.


(** Witness of X3: the reader behind a broken null sub-iterator. *)
Lemma null_read_failure_stops_batch_witness :
  JsonFlatColumnIterator._null_iter (JsonFlatColumnIterator.self null_broken_env)
  = Some (mkStub [0; 1; 0] 0%nat (Err io_error))
  ∧ JsonFlatColumnIterator.dst null_broken_env
    = Nullable (mkNullableColumn (Fixture.empty_json false) [] false false)
  ∧ (sub_read NextN (mkStub [0; 1; 0] 0%nat (Err io_error))
              (JsonFlatColumnIterator.cnt null_broken_env) []).1.1.1 = Err io_error
  ∧ JsonFlatColumnIterator.batch_read NextN null_broken_env
    = (Failed io_error, null_broken_env).
Proof.
  assert ((sub_read NextN (mkStub [0; 1; 0] 0%nat (Err io_error))
                    (JsonFlatColumnIterator.cnt null_broken_env) []).1.1.1 = Err io_error)
    as Herr by reflexivity.
  pose proof (null_read_failure_stops_batch NextN null_broken_env
                (mkStub [0; 1; 0] 0%nat (Err io_error))
                (mkNullableColumn (Fixture.empty_json false) [] false false) io_error
                eq_refl eq_refl Herr) as Hrun.
  split_and!; [reflexivity | reflexivity | exact Herr | exact Hrun].
Defined.

(** Witness of X16: the reader whose second flat sub-iterator is
    broken. *)
Lemma batch_read_error_comes_from_collaborator_witness :
  JsonFlatColumnIterator.batch_read NextN brittle_env
  = (Failed io_error, (JsonFlatColumnIterator.batch_read NextN brittle_env).2)
  ∧ JsonFlatColumnIterator._flat_iters
      (JsonFlatColumnIterator.self (JsonFlatColumnIterator.batch_read NextN brittle_env).2)
      !! 2%nat
    = JsonFlatColumnIterator._flat_iters (JsonFlatColumnIterator.self brittle_env) !! 2%nat.
Proof.
  assert (JsonFlatColumnIterator.batch_read NextN brittle_env
          = (Failed io_error, (JsonFlatColumnIterator.batch_read NextN brittle_env).2)) as Hrun
    by (vm_compute; reflexivity).
  split; [exact Hrun|].
  destruct (batch_read_error_comes_from_collaborator NextN brittle_env _ io_error Hrun)
    as [(it & Hit & Herr & _) | (i & it & n & c & Hit & Hcause & Hrest)].
  - injection Hit as <-. discriminate Herr.
  - destruct i as [|[|i]].
    + injection Hit as <-. destruct Hcause as [Herr | (expr & chunk & Hplan & _)];
        [discriminate Herr | discriminate Hplan].
    + apply (Hrest 2%nat). lia.
    + vm_compute. reflexivity.
Defined.

(** Witness of X14: the second flat sub-iterator is broken; the first
    has been sent to the first row, the third has not. *)
Lemma seek_stops_at_first_failure_witness :
  (∀ nit, JsonFlatColumnIterator._null_iter brittle_reader = Some nit
          → (sub_seek SeekFirst nit).1 = OK)
  ∧ JsonFlatColumnIterator._flat_iters brittle_reader !! 1%nat
    = Some (mkStub [Some (IntVal 1); Some (IntVal 2); Some (IntVal 3)] 1%nat (Err io_error))
  ∧ ∃ r', JsonFlatColumnIterator.seek SeekFirst brittle_reader = (Failed io_error, r')
          ∧ stub_pos <$> JsonFlatColumnIterator._flat_iters r' = [0; 1; 1]%nat.
Proof.
  assert (∀ nit, JsonFlatColumnIterator._null_iter brittle_reader = Some nit
                 → (sub_seek SeekFirst nit).1 = OK) as Hnull.
  { intros nit [= <-]. reflexivity. }
  assert ((sub_seek SeekFirst
             (mkStub [Some (IntVal 1); Some (IntVal 2); Some (IntVal 3)] 1%nat (Err io_error))).1
          = Err io_error) as Herr by reflexivity.
  destruct (seek_stops_at_first_failure SeekFirst brittle_reader 1%nat
              (mkStub [Some (IntVal 1); Some (IntVal 2); Some (IntVal 3)] 1%nat (Err io_error))
              io_error Hnull eq_refl Herr) as (r' & Hrun & Hiters).
  { intros j it' Hj Hit'. destruct j as [|j]; [|lia]. injection Hit' as <-. reflexivity. }
  split_and!; [exact Hnull | reflexivity |].
  exists r'. split; [exact Hrun|]. rewrite Hiters. reflexivity.
Defined.

(** Witness of X15. *)
Lemma seek_null_failure_skips_flat_iters_witness :
  JsonFlatColumnIterator._null_iter null_broken_reader
  = Some (mkStub [0; 1; 0] 0%nat (Err io_error))
  ∧ (sub_seek (SeekOrdinal 2) (mkStub [0; 1; 0] 0%nat (Err io_error))).1 = Err io_error
  ∧ JsonFlatColumnIterator.seek (SeekOrdinal 2) null_broken_reader
    = (Failed io_error, null_broken_reader).
Proof.
  assert ((sub_seek (SeekOrdinal 2) (mkStub [0; 1; 0] 0%nat (Err io_error))).1 = Err io_error)
    as Herr by reflexivity.
  pose proof (seek_null_failure_skips_flat_iters (SeekOrdinal 2) null_broken_reader
                (mkStub [0; 1; 0] 0%nat (Err io_error)) io_error eq_refl Herr) as Hrun.
  split_and!; [reflexivity | exact Herr | exact Hrun].
Defined.

(** Witness of X17: the runtime reader over a broken raw-document
    sub-iterator. *)
Lemma runtime_read_failure_leaves_destination_witness :
  (sub_read NextN
            (JsonDynamicFlatIterator._json_iter (JsonDynamicFlatIterator.self broken_dynamic_env))
            (JsonDynamicFlatIterator.cnt broken_dynamic_env)
            (doc_clone_empty (JsonDynamicFlatIterator.dst broken_dynamic_env))).1.1.1
  = Err io_error
  ∧ JsonDynamicFlatIterator.batch_read NextN broken_dynamic_env
    = (Failed io_error, broken_dynamic_env).
Proof.
  assert ((sub_read NextN
             (JsonDynamicFlatIterator._json_iter
                (JsonDynamicFlatIterator.self broken_dynamic_env))
             (JsonDynamicFlatIterator.cnt broken_dynamic_env)
             (doc_clone_empty (JsonDynamicFlatIterator.dst broken_dynamic_env))).1.1.1
          = Err io_error) as Herr by reflexivity.
  pose proof (runtime_read_failure_leaves_destination NextN broken_dynamic_env io_error Herr)
    as Hrun.
  split; [exact Herr | exact Hrun].
Defined.
End FailingRuns.
